(** * CRM-to-ERP transformer UI: chat stream consumer, rule editor,
      readiness gate and rule-mutation protocol

    A shallow embedding of the TypeScript sources under [ui/src]:
    - [app/rules/page.tsx] ([RulesPage]: [canSend], [handleSend],
      [handleInputKeyDown], [handleClearHistory]);
    - the rule editor component ([RuleEditor]: [save]);
    - [lib/api.ts] ([previewRulesAIUpdate], [applyRulesAIUpdate]);
    - [lib/types.ts] ([SchemaStore], [SchemaStoreStatus]).

    JavaScript strings are modelled as lists of 8-bit code units
    ([list ascii]); the reads of the response body are modelled after
    [TextDecoder.decode(value, {stream: true})], whose outputs concatenate to
    the decoding of the concatenated byte chunks. *)

From Stdlib Require Import Ascii String List ZArith Lia Bool.
From stdpp Require Import base option list gmap strings.

Abbreviation text := (list ascii).

Coercion list_ascii_of_string : string >-> list.

(** ** JavaScript string primitives used by the sources *)
Module JS.

Definition nl : ascii := "010"%char.

Definition is_nl (c : ascii) : bool := Ascii.eqb c nl.

(** [WhiteSpace] and [LineTerminator] code units below 256, the characters
    removed by [String.prototype.trim]. *)
Definition is_ws (c : ascii) : bool :=
  let n := nat_of_ascii c in
  (Nat.leb 9 n && Nat.leb n 13) || Nat.eqb n 32 || Nat.eqb n 160.

Fixpoint trim_start (s : text) : text :=
  match s with
  | [] => []
  | c :: s' => if is_ws c then trim_start s' else s
  end.

(** [s.trim()] *)
Definition trim (s : text) : text :=
  rev (trim_start (rev (trim_start s))).

(** [!s] on a string: the empty string is the only falsy one. *)
Definition is_empty (s : text) : bool :=
  match s with [] => true | _ :: _ => false end.

Definition text_eqb (a b : text) : bool := bool_decide (a = b).

(** [s.startsWith(p)] *)
Fixpoint startsWith (p s : text) : bool :=
  match p, s with
  | [], _ => true
  | _ :: _, [] => false
  | a :: p', b :: s' => Ascii.eqb a b && startsWith p' s'
  end.

(** Pushes a character in front of the first piece of a split. *)
Definition cons_head (c : ascii) (pieces : list text) : list text :=
  match pieces with
  | [] => [[c]]
  | h :: t => (c :: h) :: t
  end.

(** [s.split("\n")] *)
Fixpoint split_nl (s : text) : list text :=
  match s with
  | [] => [[]]
  | c :: s' => if is_nl c then [] :: split_nl s' else cons_head c (split_nl s')
  end.

(** [s.split("\n\n")]: leftmost, non-overlapping occurrences of the
    two-character separator. *)
Fixpoint split_blank (s : text) : list text :=
  match s with
  | [] => [[]]
  | c :: s' =>
      match s' with
      | c' :: s'' =>
          if is_nl c && is_nl c' then [] :: split_blank s''
          else cons_head c (split_blank s')
      | [] => cons_head c (split_blank s')
      end
  end.

(** [const last = events.pop() || ""], returning the shortened array and
    the removed element. *)
Fixpoint pop (l : list text) : list text * text :=
  match l with
  | [] => ([], [])
  | x :: l' =>
      match l' with
      | [] => ([], x)
      | _ :: _ => let '(front, back) := pop l' in (x :: front, back)
      end
  end.

(** [pieces.join(sep)] *)
Fixpoint join (sep : text) (pieces : list text) : text :=
  match pieces with
  | [] => []
  | x :: rest =>
      match rest with
      | [] => x
      | _ :: _ => x ++ sep ++ join sep rest
      end
  end.

Definition blank : text := [nl; nl].

(** [s.includes("\n\n")] *)
Fixpoint has_blank (s : text) : bool :=
  match s with
  | [] => false
  | c :: s' =>
      match s' with
      | c' :: _ => (is_nl c && is_nl c') || has_blank s'
      | [] => false
      end
  end.

(** A thrown value, as seen by [catch (e)]: [e instanceof Error] with its
    [message], or anything else. *)
Inductive Thrown :=
| ThrownError (message : text)
| ThrownOther.

Section Values.

(** The carrier of the JavaScript number type (IEEE doubles) is left
    abstract, with the three operations the sources rely on. *)
Variable number : Type.
Variable number_truthy : number -> bool.
Variable number_to_string : number -> text.

(** The result of [JSON.parse]. The properties of an object are kept in
    source order; a later duplicate name overrides an earlier one. *)
#[local] Unset Elimination Schemes.
Inductive JSValue :=
| JNull
| JBool (b : bool)
| JNum (n : number)
| JStr (s : text)
| JArr (items : list JSValue)
| JObj (props : list (text * JSValue)).
#[local] Set Elimination Schemes.

(** The value of an expression that may be [undefined]. *)
Inductive Read :=
| Undefined
| Value (v : JSValue).

Fixpoint lookup_prop (name : text) (props : list (text * JSValue)) : Read :=
  match props with
  | [] => Undefined
  | (k, v) :: rest =>
      match lookup_prop name rest with
      | Value w => Value w
      | Undefined => if text_eqb k name then Value v else Undefined
      end
  end.

(** [v.name] for a property name that no builtin prototype defines
    ([type], [content], [error]): [None] is the [TypeError] raised on
    [null]; primitives and arrays give [undefined]. *)
Definition get (v : JSValue) (name : text) : option Read :=
  match v with
  | JNull => None
  | JObj props => Some (lookup_prop name props)
  | _ => Some Undefined
  end.

Definition truthy (r : Read) : bool :=
  match r with
  | Undefined => false
  | Value JNull => false
  | Value (JBool b) => b
  | Value (JNum n) => number_truthy n
  | Value (JStr s) => negb (is_empty s)
  | Value (JArr _) => true
  | Value (JObj _) => true
  end.

(** [r === "lit"] *)
Definition strict_eq_str (r : Read) (lit : text) : bool :=
  match r with
  | Value (JStr s) => text_eqb s lit
  | _ => false
  end.

(** [ToString(v)], as applied by [string + v] and by [new Error(v)]. *)
Fixpoint ToString (v : JSValue) : text :=
  match v with
  | JNull => "null"%string
  | JBool true => "true"%string
  | JBool false => "false"%string
  | JNum n => number_to_string n
  | JStr s => s
  | JArr items =>
      join ","%string
        (map (fun item => match item with JNull => [] | _ => ToString item end) items)
  | JObj _ => "[object Object]"%string
  end.

End Values.

Arguments JNull {number}.
Arguments JBool {number} b.
Arguments JNum {number} n.
Arguments JStr {number} s.
Arguments JArr {number} items.
Arguments JObj {number} props.
Arguments Undefined {number}.
Arguments Value {number} v.
Arguments get {number} v name.
Arguments lookup_prop {number} name props.
Arguments strict_eq_str {number} r lit.

End JS.

(** ** The rules chat page ([app/rules/page.tsx]) *)
Module Chat.
Import JS.

Inductive Role := User | Assistant.

Record ChatMessage := { role : Role; content : text }.

(** The four [useState] cells of [RulesPage]. *)
Record PageState := {
  messages : list ChatMessage;
  input : text;
  busy : bool;
  error : option text
}.

(** [{ role: "user", content: prompt }] and
    [{ role: "assistant", content: reply }] *)
Definition user_message (prompt : text) : ChatMessage :=
  {| role := User; content := prompt |}.

Definition assistant_message (reply : text) : ChatMessage :=
  {| role := Assistant; content := reply |}.

(** [const canSend = useMemo(() => !busy && input.trim().length > 0, ...)] *)
Definition canSend (st : PageState) : bool :=
  negb (busy st) && Nat.ltb 0 (length (trim (input st))).

(** The updater of the [chunk] branch:
    [if (assistantIndex < 0 || !next[assistantIndex]) return current;
     next[assistantIndex] = {...next[assistantIndex],
                             content: next[assistantIndex].content + chunk}]. *)
Definition append_chunk (assistantIndex : Z) (chunk : text)
    (current : list ChatMessage) : list ChatMessage :=
  if (assistantIndex <? 0)%Z then current
  else
    match current !! Z.to_nat assistantIndex with
    | None => current
    | Some m =>
        <[Z.to_nat assistantIndex := {| role := role m; content := content m ++ chunk |}]>
          current
    end.

(** The updater of the [catch] block: the placeholder receives the error
    marker only when its content is still empty. *)
Definition mark_error (assistantIndex : Z) (message : text)
    (current : list ChatMessage) : list ChatMessage :=
  if (assistantIndex <? 0)%Z then current
  else
    match current !! Z.to_nat assistantIndex with
    | None => current
    | Some m =>
        if is_empty (content m)
        then <[Z.to_nat assistantIndex :=
                 {| role := role m; content := "Error: "%string ++ message |}]> current
        else current
    end.

(** [streamError instanceof Error ? streamError.message
                                  : "Failed to stream chat response"] *)
Definition thrown_message (t : Thrown) : text :=
  match t with
  | ThrownError message => message
  | ThrownOther => "Failed to stream chat response"%string
  end.

(** The result of a piece of the [try] block: the message list reached, and
    the value thrown if the block was left by an exception. *)
Inductive Flow :=
| Continue (msgs : list ChatMessage)
| Raise (msgs : list ChatMessage) (t : Thrown).

(** How the response body ends: [reader.read()] reports [done], or rejects. *)
Inductive StreamEnd :=
| EndOfStream
| ReadFails (t : Thrown).

(** What [streamTransformerChat(prompt)] and [response.body?.getReader()]
    produce: a rejected request, a response without body, or a body read as
    a sequence of decoded chunks. *)
Inductive FetchResult :=
| FetchThrows (t : Thrown)
| FetchNoBody
| FetchBody (reads : list text) (ending : StreamEnd).

(** The state of the [while (true)] loop between two reads. *)
Inductive Loop :=
| Reading (buffer : text) (msgs : list ChatMessage)
| Aborted (msgs : list ChatMessage) (t : Thrown).

Section Consumer.

Variable number : Type.
Variable number_truthy : number -> bool.
Variable number_to_string : number -> text.

(** [JSON.parse], [None] standing for the [SyntaxError] it raises. *)
Variable JSON_parse : text -> option (JSValue number).

(** The message of the [TypeError] raised by reading a property of
    [null]; its wording depends on the engine. *)
Variable null_property_message : text.

Abbreviation truthy := (JS.truthy number number_truthy).
Abbreviation ToString := (JS.ToString number number_to_string).

(** [rawEvent.split("\n").map((line) => line.trim())
            .find((line) => line.startsWith("data:"))] *)
Definition find_data_line (rawEvent : text) : option text :=
  List.find (startsWith "data:"%string) (map trim (split_nl rawEvent)).

(** The three [continue] exits of the frame loop give [None]; otherwise
    the parsed payload. *)
Definition decode_frame (rawEvent : text) : option (JSValue number) :=
  match find_data_line rawEvent with
  | None => None
  | Some dataLine =>
      let payloadText := trim (drop 5 dataLine) in
      if is_empty payloadText then None else JSON_parse payloadText
  end.

(** [event.content || ""], as the string that [content + chunk] appends. *)
Definition chunk_text (event : JSValue number) : text :=
  match get event "content"%string with
  | Some (Value c) => if truthy (Value c) then ToString c else []
  | _ => []
  end.

(** [event.error || "Chat request failed"], as the message of the
    [Error] built from it. *)
Definition error_text (event : JSValue number) : text :=
  match get event "error"%string with
  | Some (Value e) => if truthy (Value e) then ToString e else "Chat request failed"%string
  | _ => "Chat request failed"%string
  end.

(** The [if (event.type === "chunk") ... else if (event.type === "error")]
    dispatch. *)
Definition handle_event (assistantIndex : Z) (event : JSValue number)
    (msgs : list ChatMessage) : Flow :=
  match get event "type"%string with
  | None => Raise msgs (ThrownError null_property_message)
  | Some ty =>
      if strict_eq_str ty "chunk"%string
      then Continue (append_chunk assistantIndex (chunk_text event) msgs)
      else if strict_eq_str ty "error"%string
      then Raise msgs (ThrownError (error_text event))
      else Continue msgs
  end.

(** One iteration of [for (const rawEvent of events)]. *)
Definition process_event (assistantIndex : Z) (rawEvent : text)
    (msgs : list ChatMessage) : Flow :=
  match decode_frame rawEvent with
  | None => Continue msgs
  | Some event => handle_event assistantIndex event msgs
  end.

Fixpoint process_events (assistantIndex : Z) (events : list text)
    (msgs : list ChatMessage) : Flow :=
  match events with
  | [] => Continue msgs
  | rawEvent :: rest =>
      match process_event assistantIndex rawEvent msgs with
      | Continue msgs' => process_events assistantIndex rest msgs'
      | Raise msgs' t => Raise msgs' t
      end
  end.

(** The body of the [while] loop for a read that delivered [value]:
    [buffer += decoder.decode(value, {stream: true});
     const events = buffer.split("\n\n"); buffer = events.pop() || "";
     for (const rawEvent of events) ...]. *)
Definition on_read (assistantIndex : Z) (buffer : text) (value : text)
    (msgs : list ChatMessage) : Loop :=
  let '(events, buffer') := pop (split_blank (buffer ++ value)) in
  match process_events assistantIndex events msgs with
  | Continue msgs' => Reading buffer' msgs'
  | Raise msgs' t => Aborted msgs' t
  end.

Fixpoint feed (assistantIndex : Z) (reads : list text) (l : Loop) : Loop :=
  match reads with
  | [] => l
  | value :: rest =>
      match l with
      | Reading buffer msgs => feed assistantIndex rest (on_read assistantIndex buffer value msgs)
      | Aborted msgs t => Aborted msgs t
      end
  end.

(** The whole loop, from [let buffer = ""] to the [break] on [done] or
    the exception that leaves it. The buffered tail is dropped at [done]. *)
Definition read_loop (assistantIndex : Z) (reads : list text) (ending : StreamEnd)
    (msgs : list ChatMessage) : Flow :=
  match feed assistantIndex reads (Reading [] msgs) with
  | Reading _ msgs' =>
      match ending with
      | EndOfStream => Continue msgs'
      | ReadFails t => Raise msgs' t
      end
  | Aborted msgs' t => Raise msgs' t
  end.

(** The [try] block of [handleSend]. *)
Definition exchange (assistantIndex : Z) (response : FetchResult)
    (msgs : list ChatMessage) : Flow :=
  match response with
  | FetchThrows t => Raise msgs t
  | FetchNoBody => Raise msgs (ThrownError "Streaming response not available"%string)
  | FetchBody reads ending => read_loop assistantIndex reads ending msgs
  end.

(** The prologue of [handleSend], up to the request: [None] for the early
    [return] on an empty prompt, otherwise the prompt, the index of the
    assistant placeholder and the state after the four setters. *)
Definition begin_send (st : PageState) : option (text * Z * PageState) :=
  let prompt := trim (input st) in
  if is_empty prompt then None
  else
    Some (prompt,
          (Z.of_nat (length (messages st)) + 1)%Z,
          {| messages := messages st ++ [user_message prompt; assistant_message []];
             input := [];
             busy := true;
             error := None |}).

(** The [catch] and [finally] blocks. *)
Definition end_send (assistantIndex : Z) (outcome : Flow) (st : PageState) : PageState :=
  match outcome with
  | Continue msgs =>
      {| messages := msgs; input := input st; busy := false; error := error st |}
  | Raise msgs t =>
      {| messages := mark_error assistantIndex (thrown_message t) msgs;
         input := input st;
         busy := false;
         error := Some (thrown_message t) |}
  end.

(** [handleSend], run to completion against the response it receives. The
    second component lists the prompts passed to [streamTransformerChat],
    one entry per request issued. *)
Definition handleSend (st : PageState) (response : FetchResult)
    : PageState * list text :=
  match begin_send st with
  | None => (st, [])
  | Some (prompt, assistantIndex, st1) =>
      (end_send assistantIndex (exchange assistantIndex response (messages st1)) st1,
       [prompt])
  end.

(** *** Vocabulary for the statements about streams *)

(** The bytes of a sequence of frames, each followed by its blank line. *)
Definition wire (frames : list text) : text :=
  concat (map (fun f => f ++ blank) frames).

(** A frame that its blank line delimits: it contains no blank line and
    does not end in a newline. *)
Definition delimited (f : text) : Prop := has_blank (f ++ [nl]) = false.

(** The frames whose processing leaves the loop by an exception: an
    [error] event, or a payload that is [null]. *)
Definition raises (rawEvent : text) : bool :=
  match decode_frame rawEvent with
  | None => false
  | Some event =>
      match get event "type"%string with
      | None => true
      | Some ty => negb (strict_eq_str ty "chunk"%string) && strict_eq_str ty "error"%string
      end
  end.

(** The content that a frame contributes to the assistant message: the
    content of a [chunk] event, nothing for any other frame. *)
Definition frame_chunk (rawEvent : text) : text :=
  match decode_frame rawEvent with
  | None => []
  | Some event =>
      match get event "type"%string with
      | Some ty => if strict_eq_str ty "chunk"%string then chunk_text event else []
      | None => []
      end
  end.

(** The complete frames of a stream, and the incomplete tail. *)
Definition complete_frames (stream : text) : list text := (pop (split_blank stream)).1.
Definition pending_tail (stream : text) : text := (pop (split_blank stream)).2.

(** The frames that are processed before the loop is left: all of them,
    or those before the first frame that raises. *)
Fixpoint processed (frames : list text) : list text :=
  match frames with
  | [] => []
  | f :: rest => if raises f then [] else f :: processed rest
  end.

(** The content received in an exchange: the contents of the [chunk]
    events among the complete frames processed. *)
Definition received (response : FetchResult) : text :=
  match response with
  | FetchBody reads _ =>
      concat (map frame_chunk (processed (complete_frames (concat reads))))
  | _ => []
  end.

Definition flow_messages (f : Flow) : list ChatMessage :=
  match f with
  | Continue msgs => msgs
  | Raise msgs _ => msgs
  end.

(** A malformed frame: no [data:] line, an empty payload, or a payload
    that [JSON.parse] rejects. *)
Definition malformed (rawEvent : text) : Prop :=
  find_data_line rawEvent = None
  \/ (exists dataLine, find_data_line rawEvent = Some dataLine
                       /\ trim (drop 5 dataLine) = [])
  \/ (exists dataLine, find_data_line rawEvent = Some dataLine
                       /\ JSON_parse (trim (drop 5 dataLine)) = None).

(** What a frame sent on one line contributes to the assistant message,
    read off its text: the line, trimmed, is [data:] followed by a payload
    that, trimmed, is not empty and is read by [JSON.parse] as an event. An
    event whose [type] is ["chunk"] and whose [content] is the string [c]
    contributes [c]; an event of another type than ["chunk"] and ["error"]
    contributes nothing. *)
Inductive contributes : text -> text -> Prop :=
| contributes_chunk (rawEvent rest : text) (event : JSValue number) (c : text) :
    forallb (fun ch => negb (is_nl ch)) rawEvent = true ->
    trim rawEvent = "data:"%string ++ rest ->
    is_empty (trim rest) = false ->
    JSON_parse (trim rest) = Some event ->
    get event "type"%string = Some (Value (JStr ("chunk"%string : text))) ->
    get event "content"%string = Some (Value (JStr c)) ->
    contributes rawEvent c
| contributes_other (rawEvent rest : text) (event : JSValue number) (ty : Read number) :
    forallb (fun ch => negb (is_nl ch)) rawEvent = true ->
    trim rawEvent = "data:"%string ++ rest ->
    is_empty (trim rest) = false ->
    JSON_parse (trim rest) = Some event ->
    get event "type"%string = Some ty ->
    strict_eq_str ty "chunk"%string = false ->
    strict_eq_str ty "error"%string = false ->
    contributes rawEvent [].

(** *** The page as a transition system

    Between two renders the page reacts to one event at a time: a DOM
    event of an enabled control, or the settling of a promise awaited by a
    running [handleSend]. Each running [handleSend] owns its
    [assistantIndex] and [buffer]. *)
Record Exchange := { assistantIndex : Z; buffer : text }.

Record UI := { page : PageState; running : list Exchange }.

Inductive Action :=
| TypeInput (value : text)
| ClickSend
| KeyDown (key : text)
| ClearHistory
| Deliver (k : nat) (value : text)
| Finish (k : nat) (ending : StreamEnd).

(** A call of [handleSend] up to its first [await]. *)
Definition start_send (ui : UI) : UI :=
  match begin_send (page ui) with
  | None => ui
  | Some (_, idx, st1) =>
      {| page := st1; running := running ui ++ [ {| assistantIndex := idx; buffer := [] |} ] |}
  end.

(** [handleInputKeyDown] *)
Definition handleInputKeyDown (key : text) (ui : UI) : UI :=
  if negb (text_eqb key "Enter"%string) then ui
  else if negb (canSend (page ui)) then ui
  else start_send ui.

(** [handleClearHistory] *)
Definition handleClearHistory (st : PageState) : PageState :=
  {| messages := []; input := input st; busy := busy st; error := None |}.

Definition with_messages (msgs : list ChatMessage) (st : PageState) : PageState :=
  {| messages := msgs; input := input st; busy := busy st; error := error st |}.

(** [step ui a] is [None] when the control that raises [a] is disabled
    ([disabled={busy}] on the input, [disabled={!canSend}] on the button)
    or when no running exchange has the given position. A request that
    fails before the first read is a [Finish] with the value thrown. *)
Definition step (ui : UI) (a : Action) : option UI :=
  match a with
  | TypeInput value =>
      if busy (page ui) then None
      else Some {| page := {| messages := messages (page ui); input := value;
                              busy := busy (page ui); error := error (page ui) |};
                   running := running ui |}
  | ClickSend =>
      if canSend (page ui) then Some (start_send ui) else None
  | KeyDown key => Some (handleInputKeyDown key ui)
  | ClearHistory =>
      Some {| page := handleClearHistory (page ui); running := running ui |}
  | Deliver k value =>
      match running ui !! k with
      | None => None
      | Some ex =>
          match on_read (assistantIndex ex) (buffer ex) value (messages (page ui)) with
          | Reading buffer' msgs' =>
              Some {| page := with_messages msgs' (page ui);
                      running := <[k := {| assistantIndex := assistantIndex ex;
                                           buffer := buffer' |}]> (running ui) |}
          | Aborted msgs' t =>
              Some {| page := end_send (assistantIndex ex) (Raise msgs' t) (page ui);
                      running := delete k (running ui) |}
          end
      end
  | Finish k ending =>
      match running ui !! k with
      | None => None
      | Some ex =>
          Some {| page :=
                    end_send (assistantIndex ex)
                      match ending with
                      | EndOfStream => Continue (messages (page ui))
                      | ReadFails t => Raise (messages (page ui)) t
                      end (page ui);
                  running := delete k (running ui) |}
      end
  end.

(** Either the page is idle and no exchange is running, or it is busy
    with exactly one. *)
Definition exclusive (ui : UI) : Prop :=
  (busy (page ui) = false /\ running ui = [])
  \/ (busy (page ui) = true /\ exists ex, running ui = [ex]).

(** The page after mounting, with the history restored from local
    storage. *)
Definition mounted (history : list ChatMessage) : UI :=
  {| page := {| messages := history; input := []; busy := false; error := None |};
     running := [] |}.

Inductive reachable : UI -> Prop :=
| reachable_mounted history : reachable (mounted history)
| reachable_step ui a ui' : reachable ui -> step ui a = Some ui' -> reachable ui'.

Fixpoint run (ui : UI) (actions : list Action) : option UI :=
  match actions with
  | [] => Some ui
  | a :: rest =>
      match step ui a with
      | None => None
      | Some ui' => run ui' rest
      end
  end.

End Consumer.

End Chat.

(** ** The rule editor component ([RuleEditor]) *)
Module RuleEditor.
Import JS.

Record MappingRow := { key : text; value : text }.

(** [addRow]: a new row starts with an empty key and an empty value. *)
Definition addRow (rows : list MappingRow) : list MappingRow :=
  rows ++ [ {| key := []; value := [] |} ].

(** The names that a fresh object literal inherits from [Object.prototype]:
    reading any of them on [{}] gives a value other than [undefined]. *)
Definition object_prototype_keys : list text :=
  [ "constructor"%string : text; "__defineGetter__"%string : text;
    "__defineSetter__"%string : text; "hasOwnProperty"%string : text;
    "__lookupGetter__"%string : text; "__lookupSetter__"%string : text;
    "isPrototypeOf"%string : text; "propertyIsEnumerable"%string : text;
    "toString"%string : text; "valueOf"%string : text;
    "__proto__"%string : text; "toLocaleString"%string : text ].

(** [duplicateKeys.add(key)] on a [Set], kept in insertion order. *)
Definition set_add (k : text) (s : list text) : list text :=
  if bool_decide (k ∈ s) then s else s ++ [k].

(** [c.toLowerCase()] on the code units below 256. *)
Definition lower (c : ascii) : ascii :=
  let n := nat_of_ascii c in
  if (Nat.leb 65 n && Nat.leb n 90)
     || (Nat.leb 192 n && Nat.leb n 222 && negb (Nat.eqb n 215))
  then ascii_of_nat (n + 32) else c.

Definition toLowerCase (s : text) : text := map lower s.

Section Save.

Variable number : Type.

(** [Number(s)] on a string, and the number [0]. *)
Variable Number : text -> number.
Variable number_zero : number.

(** [String(n)] on a number. *)
Variable number_to_string : number -> text.

(** The values that the editor writes into a rule. *)
Inductive Val :=
| VStr (s : text)
| VNum (n : number)
| VBool (b : bool).

(** The argument of [onSave]: a plain record of values (mapping and config
    rules), or [{ _default, conditions }] (conditional rules). *)
Inductive Payload :=
| Plain (fields : gmap text Val)
| Conditional (_default : Val) (conditions : gmap text Val).

(** [onSave(payload)]: [None] when the promise resolves, otherwise the
    rejection. *)
Variable onSave : Payload -> option Thrown.

(** The accumulator of [rows.reduce] together with the [duplicateKeys]
    set that its callback updates. *)
Record Acc := { builtRows : gmap text Val; duplicateKeys : list text }.

(** [acc[key] !== undefined], own or inherited. *)
Definition defined_in (acc : gmap text Val) (k : text) : bool :=
  bool_decide (is_Some (acc !! k)) || bool_decide (k ∈ object_prototype_keys).

(** [acc[key] = v] for a primitive [v]: the [__proto__] setter ignores
    primitives, every other name becomes an own property. *)
Definition assign (k : text) (v : Val) (acc : gmap text Val) : gmap text Val :=
  if text_eqb k "__proto__"%string then acc else <[k := v]> acc.

(** The callback of [rows.reduce]. *)
Definition add_row (isNumericConditional : bool) (acc : Acc) (row : MappingRow) : Acc :=
  let k := trim (key row) in
  let v := trim (value row) in
  if is_empty k || is_empty v then acc
  else
    {| builtRows :=
         assign k (if isNumericConditional then VNum (Number v) else VStr v) (builtRows acc);
       duplicateKeys :=
         if defined_in (builtRows acc) k then set_add k (duplicateKeys acc)
         else duplicateKeys acc |}.

Definition build_rows (isNumericConditional : bool) (rows : list MappingRow) : Acc :=
  fold_left (add_row isNumericConditional) rows {| builtRows := ∅; duplicateKeys := [] |}.

(** [Number(value)] and [String(value)] on an entry of [builtRows]. *)
Definition to_number (v : Val) : Val :=
  match v with
  | VStr s => VNum (Number s)
  | VNum n => VNum n
  | VBool b => VBool b
  end.

Definition to_text (v : Val) : text :=
  match v with
  | VStr s => s
  | VNum n => number_to_string n
  | VBool true => "true"%string
  | VBool false => "false"%string
  end.

Definition numericConfigKeys : list text :=
  [ "customerNamePrefixLength"%string : text; "invoiceIdPadLength"%string : text ].

Definition booleanConfigKeys : list text :=
  [ "includeYear"%string : text; "useInvoiceTotalWithoutDecimals"%string : text ].

(** The callback of [Object.entries(builtRows).reduce] in the config
    branch. *)
Definition config_value (k : text) (v : Val) : Val :=
  if bool_decide (k ∈ numericConfigKeys) then to_number v
  else if bool_decide (k ∈ booleanConfigKeys)
  then VBool (text_eqb (toLowerCase (to_text v)) "true"%string)
  else VStr (to_text v).

Definition config_payload (built : gmap text Val) : gmap text Val :=
  map_imap (fun k v => Some (config_value k v)) built.

(** What a call of [save] leaves behind: the payloads passed to [onSave],
    and the [error] and [saving] cells. *)
Record Outcome := { saved : list Payload; error : option text; saving : bool }.

(** [saveError instanceof Error ? saveError.message : "Failed to save rule"] *)
Definition save_error_message (t : Thrown) : text :=
  match t with
  | ThrownError message => message
  | ThrownOther => "Failed to save rule"%string
  end.

(** [save], for the editor of [ruleType] holding [rows] and
    [defaultValue]. *)
Definition save (ruleType : text) (rows : list MappingRow) (defaultValue : text) : Outcome :=
  let isMappingRule := text_eqb ruleType "customerNameMapping"%string in
  let isConfigRule :=
    text_eqb ruleType "customerReference"%string
    || text_eqb ruleType "paymentReference"%string in
  let isNumericConditional := text_eqb ruleType "deliveryDays"%string in
  let acc := build_rows isNumericConditional rows in
  match duplicateKeys acc with
  | _ :: _ =>
      {| saved := [];
         error := Some ("Duplicate keys: "%string ++ join ", "%string (duplicateKeys acc));
         saving := false |}
  | [] =>
      let payload :=
        if isMappingRule then Plain (builtRows acc)
        else if isConfigRule then Plain (config_payload (builtRows acc))
        else
          Conditional
            (if isNumericConditional
             then VNum (if is_empty defaultValue then number_zero else Number defaultValue)
             else VStr defaultValue)
            (builtRows acc) in
      {| saved := [payload];
         error := save_error_message <$> onSave payload;
         saving := false |}
  end.

(** The rows that the [reduce] callback does not skip. *)
Definition retained (row : MappingRow) : bool :=
  negb (is_empty (trim (key row)) || is_empty (trim (value row))).

(** The value stored for a retained row. *)
Definition stored (isNumericConditional : bool) (row : MappingRow) : Val :=
  if isNumericConditional then VNum (Number (trim (value row)))
  else VStr (trim (value row)).

(** Two rows of the editor carry the same key, as typed. *)
Definition shares_key (rows : list MappingRow) : Prop :=
  exists i j r1 r2,
    i <> j /\ rows !! i = Some r1 /\ rows !! j = Some r2 /\ key r1 = key r2.

(** The entries of a payload: the fields of a plain record, the
    conditions of a conditional rule. *)
Definition entries (p : Payload) : gmap text Val :=
  match p with
  | Plain fields => fields
  | Conditional _ conditions => conditions
  end.

Definition is_number (v : Val) : bool :=
  match v with VNum _ => true | _ => false end.

Definition is_string (v : Val) : bool :=
  match v with VStr _ => true | _ => false end.

End Save.

Arguments VStr {number} s.
Arguments VNum {number} n.
Arguments VBool {number} b.
Arguments Plain {number} fields.
Arguments Conditional {number} _default conditions.

End RuleEditor.

(** ** The readiness gate ([SchemaStore], [SchemaStoreStatus]) *)
Module Readiness.
Import JS.

Section Schema.

Variable number : Type.

(** [ERPSchemaColumn], [SchemaStoreAction] and [SchemaStore] of
    [lib/types.ts]. *)
Record ERPSchemaColumn := {
  default_value : JSValue number;
  data_type : text;
  description : text;
  required : bool;
  rules : list (text * JSValue number)
}.

Record SchemaStoreAction := {
  enabled : bool;
  action : text;
  extra : list (text * JSValue number)
}.

Record Metadata := {
  crm_columns : list text;
  notification_emails : list text;
  erp_system : text;
  version : text;
  last_updated : text
}.

Record SchemaStore := {
  erp_schema : gmap text ERPSchemaColumn;
  post_transformation_actions : gmap text SchemaStoreAction;
  metadata : Metadata
}.

(** [SchemaStoreStatus] of [lib/types.ts]. *)
Record SchemaStoreStatus := {
  erp_columns_count : nat;
  crm_columns_count : nat;
  notification_emails_count : nat;
  has_erp_columns : bool;
  has_crm_columns : bool;
  has_notification_emails : bool;
  can_use_chat : bool
}.

(** [emptySchemaStatus] of the schema page, the status shown before the
    first answer of the service; the fields that the page leaves out are
    given the values of an empty schema. *)
Definition emptySchemaStatus : SchemaStoreStatus :=
  {| erp_columns_count := 0;
     crm_columns_count := 0;
     notification_emails_count := 0;
     has_erp_columns := false;
     has_crm_columns := false;
     has_notification_emails := false;
     can_use_chat := false |}.

(** Modelled from the spec: the [status] operation of the readiness gate
    is computed by the service behind [GET /schema-store/status], which is
    not part of the sources; section 4.4 gives its contract. The three
    counts are the sizes of the ERP schema, of the CRM column list and of
    the notification e-mail list, and [can_use_chat] holds when all three
    are at least 1. The [has_*] flags of the response type are not
    described by the spec; they are given the reading of their names. *)
Definition status (schema : SchemaStore) : SchemaStoreStatus :=
  let erp := size (erp_schema schema) in
  let crm := length (crm_columns (metadata schema)) in
  let emails := length (notification_emails (metadata schema)) in
  {| erp_columns_count := erp;
     crm_columns_count := crm;
     notification_emails_count := emails;
     has_erp_columns := Nat.leb 1 erp;
     has_crm_columns := Nat.leb 1 crm;
     has_notification_emails := Nat.leb 1 emails;
     can_use_chat := Nat.leb 1 erp && Nat.leb 1 crm && Nat.leb 1 emails |}.

End Schema.

End Readiness.

(** ** The rule-mutation protocol ([POST rules/ai/update]) *)
Module RuleStore.
Import JS.

Section Protocol.

(** The rule set and the JSON values of a diff are opaque to the
    protocol. *)
Variable TransformRules : Type.
Variable Json : Type.

(** [RulesAIChange] and [RulesAIUpdateResponse] of [lib/types.ts]. *)
Record RulesAIChange := { path : text; before : Json; after : Json }.

Record RulesAIUpdateResponse := {
  applied : bool;
  summary : text;
  changes : list RulesAIChange;
  updated_rules : TransformRules
}.

(** The body of a [POST rules/ai/update] request. *)
Record UpdateRequest := { instruction : text; apply : bool }.

(** [previewRulesAIUpdate] and [applyRulesAIUpdate] of [lib/api.ts], as
    the request bodies they send. *)
Definition previewRulesAIUpdate (instr : text) : UpdateRequest :=
  {| instruction := instr; apply := false |}.

Definition applyRulesAIUpdate (instr : text) : UpdateRequest :=
  {| instruction := instr; apply := true |}.

(** The translation of an instruction under the current rules into a
    summary, a diff and the rule set the diff produces: the language-model
    call, an opaque function for the protocol. *)
Variable translate : text -> TransformRules -> text * list RulesAIChange * TransformRules.

(** Modelled from the spec: the service behind [POST rules/ai/update] and
    [GET rules] is not part of the sources; section 4.5 gives the
    rule-mutation sub-protocol. The response carries the summary, the
    changes and the materialized [updated_rules]; the stored rule set is
    replaced by [updated_rules] as a whole when [apply] is true and is left
    untouched otherwise. *)
Definition rules_ai_update (store : TransformRules) (req : UpdateRequest)
    : RulesAIUpdateResponse * TransformRules :=
  let '(text_summary, diff, rules') := translate (instruction req) store in
  ({| applied := apply req;
      summary := text_summary;
      changes := diff;
      updated_rules := rules' |},
   if apply req then rules' else store).

(** The store after a sequence of requests. *)
Definition store_after (store : TransformRules) (requests : list UpdateRequest)
    : TransformRules :=
  fold_left (fun st req => (rules_ai_update st req).2) requests store.

(** Modelled from the spec: [GET rules] returns the stored rule set. *)
Definition getRules (store : TransformRules) : TransformRules := store.

End Protocol.

End RuleStore.

(** ** A concrete platform for the examples

    Numbers are integers or [NaN]; [JSON.parse] is implemented for the
    fragment of JSON that the examples send: [null], and objects whose
    members are strings without escape sequences. *)
Module Fixture.
Import JS.

Definition number := option Z.

Definition number_truthy (n : number) : bool :=
  match n with
  | Some z => negb (z =? 0)%Z
  | None => false
  end.

Definition digit (c : ascii) : option Z :=
  let n := nat_of_ascii c in
  if Nat.leb 48 n && Nat.leb n 57 then Some (Z.of_nat (n - 48)) else None.

Fixpoint digits (acc : Z) (s : text) : option Z :=
  match s with
  | [] => Some acc
  | c :: s' =>
      match digit c with
      | Some d => digits (10 * acc + d)%Z s'
      | None => None
      end
  end.

(** [Number(s)] for strings of decimal digits; the empty string gives 0 and
    anything else [NaN]. *)
Definition Number (s : text) : number := digits 0 (trim s).

Definition number_zero : number := Some 0%Z.

Fixpoint digits_of (fuel : nat) (n : nat) (acc : text) : text :=
  match fuel with
  | O => acc
  | S fuel' =>
      let acc' := ascii_of_nat (48 + n mod 10) :: acc in
      if Nat.ltb n 10 then acc' else digits_of fuel' (n / 10) acc'
  end.

Definition number_to_string (n : number) : text :=
  match n with
  | None => "NaN"%string
  | Some z =>
      if (z <? 0)%Z then "-"%string ++ digits_of (S (Z.abs_nat z)) (Z.abs_nat z) []
      else digits_of (S (Z.abs_nat z)) (Z.abs_nat z) []
  end.

Definition quote : ascii := "034"%char.

(** The characters of a string literal up to its closing quote, and what
    follows it. *)
Fixpoint string_body (s : text) : option (text * text) :=
  match s with
  | [] => None
  | c :: s' =>
      if Ascii.eqb c quote then Some ([], s')
      else if Ascii.eqb c "\"%char || Nat.ltb (nat_of_ascii c) 32 then None
      else
        match string_body s' with
        | Some (body, rest) => Some (c :: body, rest)
        | None => None
        end
  end.

Definition string_literal (s : text) : option (text * text) :=
  match s with
  | c :: s' => if Ascii.eqb c quote then string_body s' else None
  | [] => None
  end.

(** The members of an object after its opening brace. *)
Fixpoint members (fuel : nat) (s : text) : option (list (text * JSValue number)) :=
  match fuel with
  | O => None
  | S fuel' =>
      match string_literal s with
      | Some (name, c :: s1) =>
          if Ascii.eqb c ":"%char then
            match string_literal s1 with
            | Some (v, [c2]) =>
                if Ascii.eqb c2 "}"%char then Some [(name, JStr v)] else None
            | Some (v, c2 :: s2) =>
                if Ascii.eqb c2 ","%char then
                  match members fuel' s2 with
                  | Some more => Some ((name, JStr v) :: more)
                  | None => None
                  end
                else None
            | _ => None
            end
          else None
      | _ => None
      end
  end.

Definition JSON_parse (s : text) : option (JSValue number) :=
  if text_eqb s "null"%string then Some JNull
  else if text_eqb s "{}"%string then Some (JObj [])
  else
    match s with
    | c :: s' => if Ascii.eqb c "{"%char then JObj <$> members (length s') s' else None
    | [] => None
    end.

Definition null_property_message : text :=
  "Cannot read properties of null (reading 'type')"%string.

(** [JSON.stringify] of a chunk event and of an event without payload, for
    contents without quotes, backslashes or control characters, and the
    frame that carries a payload. *)
Definition q (s : string) : text := quote :: (s : text) ++ [quote].

Definition chunk_payload (s : string) : text :=
  "{"%string ++ q "type" ++ ":"%string ++ q "chunk" ++ ","%string
    ++ q "content" ++ ":"%string ++ q s ++ "}"%string.

Definition plain_payload (ty : string) : text :=
  "{"%string ++ q "type" ++ ":"%string ++ q ty ++ "}"%string.

Definition error_payload (s : string) : text :=
  "{"%string ++ q "type" ++ ":"%string ++ q "error" ++ ","%string
    ++ q "error" ++ ":"%string ++ q s ++ "}"%string.

Definition frame (payload : text) : text := "data: "%string ++ payload.

Definition no_rejection {A} (payload : A) : option Thrown := None.

End Fixture.

(** ** Concrete inputs for the examples *)
Module Samples.
Import JS Fixture.

Definition handleSend :=
  Chat.handleSend number number_truthy number_to_string JSON_parse null_property_message.

Definition step :=
  Chat.step number number_truthy number_to_string JSON_parse null_property_message.

Definition save :=
  RuleEditor.save number Number number_zero number_to_string (@no_rejection _).

(** An idle page with a history and a text typed into the input. *)
Definition idle (history : list Chat.ChatMessage) (typed : string) : Chat.PageState :=
  {| Chat.messages := history; Chat.input := typed; Chat.busy := false; Chat.error := None |}.

(** Cuts a text into pieces of the given sizes, the rest last. *)
Fixpoint cut (sizes : list nat) (s : text) : list text :=
  match sizes with
  | [] => [s]
  | n :: rest => take n s :: cut rest (drop n s)
  end.

(** The stream of the reassembly example: a start event, the chunks "Hel",
    "lo, " and "world", a done event, and the beginning of a further frame. *)
Definition hello_frames : list text :=
  [ frame (plain_payload "start");
    frame (chunk_payload "Hel");
    frame (chunk_payload "lo, ");
    frame (chunk_payload "world");
    frame (plain_payload "done") ].

Definition hello_tail : text := "data: {"%string.

(** The reads cut the first blank line in two, the second chunk frame in
    the middle of its payload, and deliver single characters in between. *)
Definition hello_reads : list text :=
  cut [23; 1; 1; 40; 1; 37; 2; 60] (Chat.wire hello_frames ++ hello_tail).

(** A stream with a frame whose payload is not JSON between two chunks, a
    stream that fails after a chunk, and one that fails at once. *)
Definition broken_frame : text := frame "{oops"%string.

Definition failing_reads : list text :=
  [ Chat.wire [frame (chunk_payload "partial answer")];
    Chat.wire [frame (error_payload "model unavailable"); frame (chunk_payload "late")] ].

(** The page after typing "hi" and clicking send. *)
Definition sending : Chat.UI :=
  {| Chat.page :=
       {| Chat.messages :=
            [ Chat.user_message "hi"%string; Chat.assistant_message [] ];
          Chat.input := [];
          Chat.busy := true;
          Chat.error := None |};
     Chat.running := [ {| Chat.assistantIndex := 1; Chat.buffer := [] |} ] |}.

Definition row (k v : string) : RuleEditor.MappingRow :=
  {| RuleEditor.key := k; RuleEditor.value := v |}.

Definition sample_column : Readiness.ERPSchemaColumn number :=
  {| Readiness.default_value := JNull;
     Readiness.data_type := "string"%string;
     Readiness.description := [];
     Readiness.required := false;
     Readiness.rules := [] |}.

Definition sample_schema (crm emails : list text) : Readiness.SchemaStore number :=
  {| Readiness.erp_schema := <[("invoice_no"%string : text) := sample_column]> ∅;
     Readiness.post_transformation_actions := ∅;
     Readiness.metadata :=
       {| Readiness.crm_columns := crm;
          Readiness.notification_emails := emails;
          Readiness.erp_system := "Odoo"%string;
          Readiness.version := "1.0.0"%string;
          Readiness.last_updated := [] |} |}.

End Samples.

(** ** The rule editor: loading a rule and editing its rows *)
Module RuleEditorLoad.
Import JS RuleEditor.

(** The callback test of [current.filter((_, idx) => idx !== index)],
    applied from position [idx] on. *)
Fixpoint filter_other (index idx : nat) (rows : list MappingRow) : list MappingRow :=
  match rows with
  | [] => []
  | r :: rest =>
      if Nat.eqb idx index then filter_other index (S idx) rest
      else r :: filter_other index (S idx) rest
  end.

(** [removeRow] *)
Definition removeRow (index : nat) (rows : list MappingRow) : list MappingRow :=
  filter_other index 0 rows.

Section Load.

Variable number : Type.
Variable Number : text -> number.
Variable number_zero : number.
Variable number_to_string : number -> text.

(** The [ruleData] handed to the editor, as the guard
    [!value || typeof value !== "object" || Array.isArray(value)] sees it:
    rejected, or an object given by the list that [Object.entries]
    enumerates. *)
Inductive RuleData :=
| NotAnObject
| Entries (entries : list (text * JSValue number)).

(** The row of an entry: [([key, target]) => ({ key, value: String(target) })]. *)
Definition entry_row (e : text * JSValue number) : MappingRow :=
  {| key := e.1; value := ToString number number_to_string e.2 |}.

(** [asMappingRows] *)
Definition asMappingRows (value : RuleData) : list MappingRow :=
  match value with
  | NotAnObject => []
  | Entries entries => map entry_row entries
  end.

(** The object that [asConditional] casts its argument to: [_default] may
    be missing, [conditions] is missing ([None]) or an object given by its
    entries. *)
Inductive ConditionalData :=
| NotConditional
| Typed (_default : Read number) (conditions : option (list (text * JSValue number))).

(** [asConditional]: [String(typed._default ?? "")] and the rows of
    [typed.conditions || {}]. *)
Definition asConditional (value : ConditionalData) : text * list MappingRow :=
  match value with
  | NotConditional => ([], [])
  | Typed d conditions =>
      (match d with
       | Undefined => []
       | Value JNull => []
       | Value v => ToString number number_to_string v
       end,
       match conditions with
       | None => []
       | Some entries => map entry_row entries
       end)
  end.

(** What [save] writes for a retained row of a rule of the given type. *)
Definition written (ruleType : text) (row : MappingRow) : Val number :=
  if text_eqb ruleType "customerNameMapping"%string then stored number Number false row
  else if text_eqb ruleType "customerReference"%string
          || text_eqb ruleType "paymentReference"%string
  then config_value number Number number_to_string (trim (key row))
         (stored number Number false row)
  else stored number Number (text_eqb ruleType "deliveryDays"%string) row.

(** An entry that the editor shows and saves as it is: a string value, key
    and value without surrounding white space and not empty, and a key that
    is not a name of [Object.prototype]. *)
Definition plain_entry (e : text * JSValue number) : Prop :=
  exists s, e.2 = JStr s /\ trim s = s /\ s <> []
            /\ trim e.1 = e.1 /\ e.1 <> [] /\ e.1 ∉ object_prototype_keys.

Definition entry_value (e : text * JSValue number) : text * Val number :=
  (e.1, VStr (ToString number number_to_string e.2)).

End Load.

Arguments NotAnObject {number}.
Arguments Entries {number} entries.
Arguments NotConditional {number}.
Arguments Typed {number} _default conditions.

End RuleEditorLoad.

(** ** The rules chat page: stored history, failed requests, and what a
    step may change *)
Module ChatMore.
Import JS Chat.

(** [xs.slice(-n)] *)
Definition slice_last {A : Type} (n : nat) (l : list A) : list A :=
  drop (length l - n) l.

(** A history in which every user message is directly followed by an
    assistant message. *)
Fixpoint paired (msgs : list ChatMessage) : bool :=
  match msgs with
  | [] => true
  | u :: rest =>
      match rest with
      | a :: rest' =>
          match role u, role a with
          | User, Assistant => paired rest'
          | _, _ => false
          end
      | [] => false
      end
  end.

(** [later] keeps every message of [earlier] at its position, with its
    role, and with its content possibly extended at the end. *)
Definition extends (earlier later : list ChatMessage) : Prop :=
  forall j m, earlier !! j = Some m ->
    exists m', later !! j = Some m' /\ role m' = role m /\ content m `prefix_of` content m'.

(** The messages that a read leaves, whether the loop goes on or not. *)
Definition loop_messages (l : Loop) : list ChatMessage :=
  match l with
  | Reading _ msgs => msgs
  | Aborted msgs _ => msgs
  end.

Definition role_name (r : Role) : text :=
  match r with
  | User => "user"%string
  | Assistant => "assistant"%string
  end.

Section Stored.

Variable number : Type.
Variable number_truthy : number -> bool.
Variable number_to_string : number -> text.
Variable JSON_parse : text -> option (JSValue number).

(** [JSON.stringify] *)
Variable JSON_stringify : JSValue number -> text.

(** The test of the [filter] in the mount effect,
    [item && (item.role === "user" || item.role === "assistant")
          && typeof item.content === "string"],
    with the message that the page reads from an item that passes it. *)
Definition valid_item (item : JSValue number) : option ChatMessage :=
  if truthy number number_truthy (Value item) then
    match get item "role"%string, get item "content"%string with
    | Some r, Some (Value (JStr c)) =>
        if strict_eq_str r "user"%string then Some (user_message c)
        else if strict_eq_str r "assistant"%string then Some (assistant_message c)
        else None
    | _, _ => None
    end
  else None.

(** The mount effect: [None] when it returns without calling
    [setMessages] (nothing stored, a payload that does not parse, a payload
    that is not an array), otherwise the messages it sets. *)
Definition restore (raw : option text) : option (list ChatMessage) :=
  match raw with
  | None => None
  | Some r =>
      if is_empty r then None
      else
        match JSON_parse r with
        | Some (JArr items) => Some (slice_last 200 (omap valid_item items))
        | _ => None
        end
  end.

(** The value that the storage effect serializes,
    [messages.slice(-200)], for messages with the two fields that the page
    creates. *)
Definition encode (m : ChatMessage) : JSValue number :=
  JObj [ ("role"%string : text, JStr (role_name (role m)));
         ("content"%string : text, JStr (content m)) ].

Definition persisted (msgs : list ChatMessage) : JSValue number :=
  JArr (map encode (slice_last 200 msgs)).

(** What [localStorage.setItem(CHAT_STORAGE_KEY, ...)] stores. *)
Definition stored_text (msgs : list ChatMessage) : text :=
  JSON_stringify (persisted msgs).

(** *** [streamTransformerChat] and [request] of [lib/api.ts] *)

(** A response as the two functions read it: [ok], [statusText], the
    outcome of [response.json()] and the body stream. *)
Record Response := {
  ok : bool;
  statusText : text;
  json : Thrown + JSValue number;
  body : option (list text * StreamEnd)
}.

(** The outcome of [fetch]: it rejects, or it resolves with a response. *)
Inductive Fetched :=
| NetworkError (t : Thrown)
| Answered (r : Response).

(** The message of the [Error] thrown for a response that is not [ok]:
    [let detail = response.statusText;
     try { const body = await response.json(); detail = body.detail || detail; }
     catch { }]. *)
Definition error_detail (r : Response) : text :=
  match json r with
  | inl _ => statusText r
  | inr b =>
      match get b "detail"%string with
      | Some (Value d) =>
          if truthy number number_truthy (Value d) then ToString number number_to_string d
          else statusText r
      | _ => statusText r
      end
  end.

(** [request] *)
Definition request (f : Fetched) : Thrown + JSValue number :=
  match f with
  | NetworkError t => inl t
  | Answered r => if ok r then json r else inl (ThrownError (error_detail r))
  end.

(** [streamTransformerChat], followed by [response.body?.getReader()] in
    [handleSend]. *)
Definition streamTransformerChat (f : Fetched) : FetchResult :=
  match f with
  | NetworkError t => FetchThrows t
  | Answered r =>
      if ok r then
        match body r with
        | None => FetchNoBody
        | Some (reads, ending) => FetchBody reads ending
        end
      else FetchThrows (ThrownError (error_detail r))
  end.

End Stored.

End ChatMore.

(** ** The schema page: ERP and CRM column forms and their requests *)
Module SchemaPage.
Import JS Readiness.

Section Page.

Variable number : Type.
Variable number_truthy : number -> bool.
Variable JSON_parse : text -> option (JSValue number).

(** [JSON.stringify(v)] and [JSON.stringify(v, null, 2)] *)
Variable JSON_stringify : JSValue number -> text.
Variable JSON_stringify_indented : JSValue number -> text.

(** [parseDefaultValue] *)
Definition parseDefaultValue (t : text) : JSValue number :=
  let trimmed := trim t in
  if is_empty trimmed then JNull
  else
    match JSON_parse trimmed with
    | Some v => v
    | None => JStr trimmed
    end.

(** The state cells of the ERP column form. *)
Record Form := {
  erpOriginalName : option text;
  erpName : text;
  erpDataType : text;
  erpRequired : text;
  erpDescription : text;
  erpDefaultValue : text;
  erpRulesText : text
}.

(** The state of [SchemaPage]. *)
Record Page := {
  schemaStore : SchemaStore number;
  schemaStatus : SchemaStoreStatus;
  status : option text;
  error : option text;
  busy : bool;
  form : Form;
  crmColumnName : text;
  crmEditingOriginal : option text;
  crmEditingValue : text
}.

Definition setSchema (store : SchemaStore number) (st : SchemaStoreStatus) (p : Page) : Page :=
  {| schemaStore := store; schemaStatus := st; status := status p; error := error p;
     busy := busy p; form := form p; crmColumnName := crmColumnName p;
     crmEditingOriginal := crmEditingOriginal p; crmEditingValue := crmEditingValue p |}.

Definition setStatus (s : option text) (p : Page) : Page :=
  {| schemaStore := schemaStore p; schemaStatus := schemaStatus p; status := s;
     error := error p; busy := busy p; form := form p; crmColumnName := crmColumnName p;
     crmEditingOriginal := crmEditingOriginal p; crmEditingValue := crmEditingValue p |}.

Definition setError (e : option text) (p : Page) : Page :=
  {| schemaStore := schemaStore p; schemaStatus := schemaStatus p; status := status p;
     error := e; busy := busy p; form := form p; crmColumnName := crmColumnName p;
     crmEditingOriginal := crmEditingOriginal p; crmEditingValue := crmEditingValue p |}.

Definition setBusy (b : bool) (p : Page) : Page :=
  {| schemaStore := schemaStore p; schemaStatus := schemaStatus p; status := status p;
     error := error p; busy := b; form := form p; crmColumnName := crmColumnName p;
     crmEditingOriginal := crmEditingOriginal p; crmEditingValue := crmEditingValue p |}.

Definition setForm (f : Form) (p : Page) : Page :=
  {| schemaStore := schemaStore p; schemaStatus := schemaStatus p; status := status p;
     error := error p; busy := busy p; form := f; crmColumnName := crmColumnName p;
     crmEditingOriginal := crmEditingOriginal p; crmEditingValue := crmEditingValue p |}.

Definition setCrmColumnName (name : text) (p : Page) : Page :=
  {| schemaStore := schemaStore p; schemaStatus := schemaStatus p; status := status p;
     error := error p; busy := busy p; form := form p; crmColumnName := name;
     crmEditingOriginal := crmEditingOriginal p; crmEditingValue := crmEditingValue p |}.

(** [setCrmEditingOriginal(original); setCrmEditingValue(value)] *)
Definition setCrmEditing (original : option text) (value : text) (p : Page) : Page :=
  {| schemaStore := schemaStore p; schemaStatus := schemaStatus p; status := status p;
     error := error p; busy := busy p; form := form p; crmColumnName := crmColumnName p;
     crmEditingOriginal := original; crmEditingValue := value |}.

(** [resetErpForm] *)
Definition emptyForm : Form :=
  {| erpOriginalName := None;
     erpName := [];
     erpDataType := "string"%string;
     erpRequired := "false"%string;
     erpDescription := [];
     erpDefaultValue := [];
     erpRulesText := "{}"%string |}.

Definition resetErpForm (p : Page) : Page := setForm emptyForm p.

(** [startEditErp] *)
Definition startEditErp (name : text) (column : ERPSchemaColumn number) (p : Page) : Page :=
  setForm
    {| erpOriginalName := Some name;
       erpName := name;
       erpDataType :=
         if is_empty (data_type number column) then "string"%string
         else data_type number column;
       erpRequired := if required number column then "true"%string else "false"%string;
       erpDescription := description number column;
       erpDefaultValue :=
         match default_value number column with
         | JNull => []
         | v => JSON_stringify v
         end;
       erpRulesText := JSON_stringify_indented (JObj (rules number column)) |}
    p.

(** The requests of the page, by the function of [lib/api.ts] that sends
    them. *)
Inductive Call :=
| UpsertERPSchemaColumn (columnName : text) (payload : ERPSchemaColumn number)
| DeleteERPSchemaColumn (columnName : text)
| AddCRMColumn (columnName : text)
| RenameCRMColumn (columnName newName : text)
| DeleteCRMColumn (columnName : text)
| GetSchemaStore
| GetSchemaStoreStatus.

(** What the service does with the requests of one handler: a write is
    rejected with a thrown value or goes through (the page does not read
    its answer), and the two reads of [refreshSchema], awaited together,
    are rejected or give a store and a status. *)
Record Service := {
  write : Call -> option Thrown;
  refresh : Thrown + (SchemaStore number * SchemaStoreStatus)
}.

(** What a call of a handler does: the requests it sends, in order, the
    state updates it makes before its first [await], and the updates it
    makes when its last request is answered. *)
Record Run := {
  calls : list Call;
  begun : Page -> Page;
  settled : Page -> Page
}.

(** [error instanceof Error ? error.message : fallback] *)
Definition error_message (fallback : text) (t : Thrown) : text :=
  match t with
  | ThrownError message => message
  | ThrownOther => fallback
  end.

(** A handler that returns after [setError(message)]. *)
Definition rejected (message : text) : Run :=
  {| calls := []; begun := setError (Some message); settled := fun p => p |}.

(** The writes of a [try] block, awaited one after the other: the requests
    sent, and the value thrown by the first one that is rejected. *)
Fixpoint perform (service : Service) (writes : list Call) : list Call * option Thrown :=
  match writes with
  | [] => ([], None)
  | c :: rest =>
      match write service c with
      | Some t => ([c], Some t)
      | None => let '(sent, thrown) := perform service rest in (c :: sent, thrown)
      end
  end.

(** The common shape of the handlers after their checks:
    [setBusy(true); setError(null);
     try { writes; await refreshSchema(); updates }
     catch (e) { setError(...) } finally { setBusy(false) }]. *)
Definition attempt (service : Service) (fallback : text) (writes : list Call)
    (updates : Page -> Page) : Run :=
  let start := fun p => setError None (setBusy true p) in
  let fail := fun t p => setBusy false (setError (Some (error_message fallback t)) p) in
  match perform service writes with
  | (sent, Some t) => {| calls := sent; begun := start; settled := fail t |}
  | (sent, None) =>
      match refresh service with
      | inl t =>
          {| calls := sent ++ [GetSchemaStore; GetSchemaStoreStatus];
             begun := start; settled := fail t |}
      | inr (store, st) =>
          {| calls := sent ++ [GetSchemaStore; GetSchemaStoreStatus];
             begun := start;
             settled := fun p => setBusy false (updates (setSchema store st p)) |}
      end
  end.

(** The rules of the form:
    [const payload = erpRulesText.trim() ? JSON.parse(erpRulesText) : {};
     if (!payload || Array.isArray(payload) || typeof payload !== "object") throw ...],
    [None] when the [try] block is left by an exception. *)
Definition parsedRules (erpRulesText : text) : option (list (text * JSValue number)) :=
  if is_empty (trim erpRulesText) then Some []
  else
    match JSON_parse erpRulesText with
    | None => None
    | Some payload =>
        if negb (truthy number number_truthy (Value payload)) then None
        else
          match payload with
          | JArr _ => None
          | JObj props => Some props
          | _ => None
          end
    end.

(** The column that [handleSaveErpColumn] sends. *)
Definition form_payload (f : Form) (rules : list (text * JSValue number)) :
    ERPSchemaColumn number :=
  {| default_value := parseDefaultValue (erpDefaultValue f);
     data_type :=
       if is_empty (trim (erpDataType f)) then "string"%string else trim (erpDataType f);
     description := trim (erpDescription f);
     required := text_eqb (erpRequired f) "true"%string;
     rules := rules |}.

(** [erpOriginalName && erpOriginalName !== trimmedName] *)
Definition renamed (original : option text) (trimmedName : text) : option text :=
  match original with
  | Some name =>
      if negb (is_empty name) && negb (text_eqb name trimmedName) then Some name else None
  | None => None
  end.

(** [handleSaveErpColumn], called on a page in state [p]. *)
Definition handleSaveErpColumn (p : Page) (service : Service) : Run :=
  let f := form p in
  let trimmedName := trim (erpName f) in
  if is_empty trimmedName then rejected "ERP column name is required."%string
  else
    match parsedRules (erpRulesText f) with
    | None => rejected "ERP rules must be a valid JSON object."%string
    | Some rules =>
        attempt service "Failed to save ERP column"%string
          (UpsertERPSchemaColumn trimmedName (form_payload f rules)
             :: match renamed (erpOriginalName f) trimmedName with
                | Some name => [DeleteERPSchemaColumn name]
                | None => []
                end)
          (fun q =>
             setStatus (Some ("ERP column '"%string ++ trimmedName ++ "' saved"%string))
               (resetErpForm q))
    end.

(** [handleDeleteErpColumn] *)
Definition handleDeleteErpColumn (name : text) (p : Page) (service : Service) : Run :=
  attempt service "Failed to delete ERP column"%string [DeleteERPSchemaColumn name]
    (fun q =>
       setStatus (Some ("ERP column '"%string ++ name ++ "' deleted"%string))
         (if bool_decide (erpOriginalName (form p) = Some name) then resetErpForm q else q)).

(** [handleAddCrmColumn] *)
Definition handleAddCrmColumn (p : Page) (service : Service) : Run :=
  let name := trim (crmColumnName p) in
  if is_empty name then rejected "CRM column name is required."%string
  else
    attempt service "Failed to add CRM column"%string [AddCRMColumn name]
      (fun q =>
         setStatus (Some ("CRM column '"%string ++ name ++ "' added"%string))
           (setCrmColumnName [] q)).

(** [handleRenameCrmColumn] *)
Definition handleRenameCrmColumn (p : Page) (service : Service) : Run :=
  match crmEditingOriginal p with
  | None => {| calls := []; begun := fun q => q; settled := fun q => q |}
  | Some original =>
      if is_empty original then {| calls := []; begun := fun q => q; settled := fun q => q |}
      else
        let newName := trim (crmEditingValue p) in
        if is_empty newName then rejected "CRM column name is required."%string
        else
          attempt service "Failed to rename CRM column"%string
            [RenameCRMColumn original newName]
            (fun q =>
               setCrmEditing None []
                 (setStatus
                    (Some ("CRM column '"%string ++ original ++ "' renamed to '"%string
                             ++ newName ++ "'"%string))
                    q))
  end.

(** [handleDeleteCrmColumn] *)
Definition handleDeleteCrmColumn (name : text) (p : Page) (service : Service) : Run :=
  attempt service "Failed to delete CRM column"%string [DeleteCRMColumn name]
    (fun q =>
       let q' := setStatus (Some ("CRM column '"%string ++ name ++ "' deleted"%string)) q in
       if bool_decide (crmEditingOriginal p = Some name) then setCrmEditing None [] q'
       else q').

(** The buttons that start a request, and the handler of each. *)
Inductive Button :=
| SaveErpColumn
| DeleteErpColumn (name : text)
| AddCrmColumn
| SaveCrmColumn
| DeleteCrmColumnButton (name : text).

Definition onClick (b : Button) (p : Page) (service : Service) : Run :=
  match b with
  | SaveErpColumn => handleSaveErpColumn p service
  | DeleteErpColumn name => handleDeleteErpColumn name p service
  | AddCrmColumn => handleAddCrmColumn p service
  | SaveCrmColumn => handleRenameCrmColumn p service
  | DeleteCrmColumnButton name => handleDeleteCrmColumn name p service
  end.

(** The column name that a request creates, if it creates one. *)
Definition created_name (c : Call) : option text :=
  match c with
  | UpsertERPSchemaColumn name _ => Some name
  | AddCRMColumn name => Some name
  | RenameCRMColumn _ newName => Some newName
  | _ => None
  end.

End Page.

Arguments DeleteERPSchemaColumn {number} columnName.
Arguments AddCRMColumn {number} columnName.
Arguments RenameCRMColumn {number} columnName newName.
Arguments DeleteCRMColumn {number} columnName.
Arguments GetSchemaStore {number}.
Arguments GetSchemaStoreStatus {number}.

End SchemaPage.

(** ** The deployment script: health checks *)
Module Deploy.
Import JS.

(** [log] *)
Definition log (line : text) : text := "[deploy] "%string ++ line ++ [nl].

(** A number as bash's arithmetic holds it: in 64 bits, two's
    complement. *)
Definition int64 (z : Z) : Z := ((z + 2 ^ 63) mod 2 ^ 64 - 2 ^ 63)%Z.

(** The number of iterations that [for ((i=1; i<=tries; i++))] allows.
    [tries] is read as a 64-bit number; below 1 the body never runs; at
    the largest 64-bit number [i<=tries] holds for every [i], [i++]
    wrapping around, and the loop has no bound ([None]). *)
Definition iterations (tries : Z) : option nat :=
  let t := int64 tries in
  if (t =? 2 ^ 63 - 1)%Z then None else Some (Z.to_nat t).

(** What a call of [wait_for_http_200] leaves: its exit status, the number
    of runs of [curl] and of [sleep 1], and the line it logs. *)
Record Waited := { exit_status : nat; probes : nat; sleeps : nat; logged : text }.

Section Check.

(** The first argument, and what the [i]-th run of
    [curl -sS -o ... -w "%{http_code}" "$url" || true] prints. *)
Variable name : text.
Variable probe : nat -> text.

(** The [for] loop after [done] iterations, with [remaining] iterations to
    go and the value of [code]. *)
Fixpoint poll (done remaining : nat) (code : text) : Waited :=
  match remaining with
  | O =>
      {| exit_status := 1; probes := done; sleeps := done;
         logged :=
           log (name ++ " health check failed (last code: "%string
                  ++ (if is_empty code then "none"%string : text else code)
                  ++ ")"%string) |}
  | S remaining' =>
      let code' := probe (S done) in
      if text_eqb code' "200"%string then
        {| exit_status := 0; probes := S done; sleeps := done;
           logged := log (name ++ " health OK (200)"%string) |}
      else poll (S done) remaining' code'
  end.

(** [wait_for_http_200 name url tries], with [tries="${3:-40}"]; [tries]
    is the number written as the third argument. The result is [None]
    when the loop has no bound of its own: the call then returns only once
    a probe answers 200. *)
Definition wait_for_http_200 (tries : option Z) : option Waited :=
  (fun n => poll 0 n []) <$> iterations (default 40%Z tries).

End Check.

(** The code of a healthy answer, and an endpoint that gives it at one of
    its first [n] probes. *)
Definition ok : text := "200"%string.

Definition answers (probe : nat -> text) (n : nat) : Prop :=
  exists i, 1 <= i <= n /\ probe i = ok.

(** The three checks at the end of the script. Under [set -e] a check that
    returns 1 ends the script, so the checks after it are not run. *)
Fixpoint health_checks (targets : list (text * (nat -> text))) : list Waited :=
  match targets with
  | [] => []
  | (name, probe) :: rest =>
      match wait_for_http_200 name probe (Some 50%Z) with
      | Some w => if Nat.eqb (exit_status w) 0 then w :: health_checks rest else [w]
      | None => []
      end
  end.

(** Whether the script gets past the checks. *)
Definition healthy (targets : list (text * (nat -> text))) : bool :=
  forallb (fun w => Nat.eqb (exit_status w) 0) (health_checks targets).

Definition deploy_targets (backend openapi ui : nat -> text) : list (text * (nat -> text)) :=
  [ ("backend"%string : text, backend);
    ("openapi"%string : text, openapi);
    ("ui"%string : text, ui) ].

End Deploy.

(** ** The customer drop-down: filtering by the search text *)
Module CustomerDropdown.
Import JS.

(** [hay.includes(needle)] *)
Fixpoint includes (needle hay : text) : bool :=
  startsWith needle hay
  || match hay with
     | [] => false
     | _ :: hay' => includes needle hay'
     end.

Section Filter.

(** [String.prototype.toLowerCase]. Lower-casing depends on the letters
    around a letter (a capital sigma at the end of a word has a small
    letter of its own), so it is kept as a function on whole texts. *)
Variable toLowerCase : text -> text.

(** [filtered] *)
Definition filtered (customers : list text) (query : text) : list text :=
  let lowered := trim (toLowerCase query) in
  if is_empty lowered then customers
  else List.filter (fun customer => includes lowered (toLowerCase customer)) customers.

End Filter.

End CustomerDropdown.

(** ** The data table: page range and page buttons *)
Module DataTable.

(** The whole number held by the double nearest to the whole number [z],
    for results below the largest double: up to 2^53 in magnitude every
    whole number is a double; above, the 53 leading bits are kept and the
    rest is rounded to the nearest double, a tie going to the even one. *)
Definition round53 (z : Z) : Z :=
  let a := Z.abs z in
  if (a <? 2 ^ 53)%Z then z
  else
    let e := (Z.log2 a - 52)%Z in
    let q := (a / 2 ^ e)%Z in
    let r := (a mod 2 ^ e)%Z in
    let half := (2 ^ (e - 1))%Z in
    let q' :=
      if (r <? half)%Z then q
      else if (half <? r)%Z then (q + 1)%Z
      else if Z.even q then q else (q + 1)%Z in
    (Z.sgn z * (q' * 2 ^ e))%Z.

(** [Pagination], for fields that are whole numbers held by doubles. *)
Record Pagination := { page : Z; total_pages : Z; total : Z; limit : Z }.

Definition pageStart (pagination : Pagination) : Z :=
  if (total pagination =? 0)%Z then 0%Z
  else round53 (round53 (round53 (page pagination - 1) * limit pagination) + 1).

Definition pageEnd (pagination : Pagination) : Z :=
  Z.min (round53 (page pagination * limit pagination)) (total pagination).

(** The page that the Previous and the Next button ask for; [None] when the
    button is disabled. *)
Definition previous (pagination : Pagination) : option Z :=
  if (page pagination <=? 1)%Z then None else Some (round53 (page pagination - 1)).

Definition next (pagination : Pagination) : option Z :=
  if (page pagination >=? total_pages pagination)%Z then None
  else Some (round53 (page pagination + 1)).

End DataTable.

(** ** Further concrete inputs *)
Module MoreSamples.
Import JS Fixture.

(** [JSON.stringify(v)] for values whose strings have no quotes,
    backslashes or control characters. *)
Fixpoint JSON_stringify (v : JSValue number) : text :=
  match v with
  | JNull => "null"%string
  | JBool true => "true"%string
  | JBool false => "false"%string
  | JNum n => match n with Some _ => number_to_string n | None => "null"%string end
  | JStr s => quote :: s ++ [quote]
  | JArr items => "["%string ++ join ","%string (map JSON_stringify items) ++ "]"%string
  | JObj props =>
      "{"%string
        ++ join ","%string
             (map (fun '(k, w) => quote :: k ++ [quote] ++ ":"%string ++ JSON_stringify w)
                props)
        ++ "}"%string
  end.

(** [JSON.stringify(v, null, 2)] at the given indentation. *)
Fixpoint stringify_indented (indent : text) (v : JSValue number) : text :=
  let inner := "  "%string ++ indent in
  match v with
  | JArr [] => "[]"%string
  | JArr items =>
      "["%string ++ [nl] ++ inner
        ++ join (","%string ++ [nl] ++ inner) (map (stringify_indented inner) items)
        ++ [nl] ++ indent ++ "]"%string
  | JObj [] => "{}"%string
  | JObj props =>
      "{"%string ++ [nl] ++ inner
        ++ join (","%string ++ [nl] ++ inner)
             (map (fun '(k, w) =>
                     quote :: k ++ [quote] ++ ": "%string ++ stringify_indented inner w)
                props)
        ++ [nl] ++ indent ++ "}"%string
  | _ => JSON_stringify v
  end.

Definition JSON_stringify_indented (v : JSValue number) : text := stringify_indented [] v.

(** The text of an object up to its closing brace, and what follows. *)
Fixpoint object_text (in_string : bool) (s : text) : option (text * text) :=
  match s with
  | [] => None
  | c :: s' =>
      if negb in_string && Ascii.eqb c "}"%char then Some ([c], s')
      else
        match object_text (xorb in_string (Ascii.eqb c quote)) s' with
        | Some (body, rest) => Some (c :: body, rest)
        | None => None
        end
  end.

(** The elements of an array of objects after its opening bracket. *)
Fixpoint elements (fuel : nat) (s : text) : option (list (JSValue number)) :=
  match fuel with
  | O => None
  | S fuel' =>
      match object_text false s with
      | Some (body, c :: rest) =>
          match Fixture.JSON_parse body with
          | Some item =>
              if Ascii.eqb c "]"%char then
                if is_empty rest then Some [item] else None
              else if Ascii.eqb c ","%char then
                match elements fuel' rest with
                | Some more => Some (item :: more)
                | None => None
                end
              else None
          | None => None
          end
      | _ => None
      end
  end.

(** [JSON.parse] for [null], strings, flat objects, and arrays of flat
    objects. *)
Definition JSON_parse (s : text) : option (JSValue number) :=
  if text_eqb s "[]"%string then Some (JArr [])
  else
    match s with
    | c :: s' =>
        if Ascii.eqb c "["%char then JArr <$> elements (length s') s'
        else if Ascii.eqb c quote then
          match string_literal s with
          | Some (v, []) => Some (JStr v)
          | _ => None
          end
        else Fixture.JSON_parse s
    | [] => None
    end.

(** A history of two exchanges. *)
Definition history : list Chat.ChatMessage :=
  [ Chat.user_message "add a tax rule"%string;
    Chat.assistant_message "Done."%string;
    Chat.user_message "show it"%string;
    Chat.assistant_message "salesTaxRate: 10%"%string ].

(** A response with status 503 and a detail, and one whose body is not
    JSON. *)
Definition unavailable : ChatMore.Response number :=
  {| ChatMore.ok := false;
     ChatMore.statusText := "Service Unavailable"%string;
     ChatMore.json := inr (JObj [("detail"%string : text, JStr "model is loading"%string)]);
     ChatMore.body := None |}.

(** The entries of a customer name mapping. *)
Definition mapping_entries : list (text * JSValue number) :=
  [ ("ACME Ltd"%string : text, JStr "ACME Limited"%string);
    ("Globex"%string : text, JStr "Globex Corporation"%string) ].

(** A schema page showing [sample_schema], with a form state. *)
Definition schema_page (f : SchemaPage.Form) : SchemaPage.Page number :=
  {| SchemaPage.schemaStore := Samples.sample_schema [] [];
     SchemaPage.schemaStatus := Readiness.emptySchemaStatus;
     SchemaPage.status := None;
     SchemaPage.error := None;
     SchemaPage.busy := false;
     SchemaPage.form := f;
     SchemaPage.crmColumnName := " customer_company "%string;
     SchemaPage.crmEditingOriginal := Some ("company"%string : text);
     SchemaPage.crmEditingValue := "customer"%string |}.

(** The form after renaming the column [invoice_no] to [invoice_number]. *)
Definition rename_form : SchemaPage.Form :=
  {| SchemaPage.erpOriginalName := Some ("invoice_no"%string : text);
     SchemaPage.erpName := " invoice_number"%string;
     SchemaPage.erpDataType := "string"%string;
     SchemaPage.erpRequired := "true"%string;
     SchemaPage.erpDescription := "Invoice number"%string;
     SchemaPage.erpDefaultValue := [];
     SchemaPage.erpRulesText := "{}"%string |}.

(** A service that accepts every write and answers the reads. *)
Definition accepting : SchemaPage.Service number :=
  {| SchemaPage.write := fun _ => None;
     SchemaPage.refresh :=
       inr (Samples.sample_schema [] [], Readiness.emptySchemaStatus) |}.

(** An endpoint that answers 200 from its [n]-th probe on, and refuses the
    connection before. *)
Definition up_from (n : nat) (i : nat) : text :=
  if Nat.leb n i then "200"%string else "000"%string.

Definition customers : list text :=
  [ "ACME Ltd"%string : text; "Globex"%string : text; "Acme Holdings"%string : text ].

(** [toLowerCase] on texts of ASCII characters: the capital letters A to Z
    have their small letter 32 places further. *)
Definition lower_ascii (s : text) : text :=
  map (fun c =>
         let n := nat_of_ascii c in
         if Nat.leb 65 n && Nat.leb n 90 then ascii_of_nat (n + 32) else c)
      s.

(** The page of [Samples.sending] after a read that carries the chunk
    "Hello". *)
Definition hello_read : text := Chat.wire [frame (chunk_payload "Hello")].

Definition answered : Chat.UI :=
  {| Chat.page :=
       {| Chat.messages :=
            [ Chat.user_message "hi"%string; Chat.assistant_message "Hello"%string ];
          Chat.input := [];
          Chat.busy := true;
          Chat.error := None |};
     Chat.running := [ {| Chat.assistantIndex := 1; Chat.buffer := [] |} ] |}.

(** An idle page with " hi " typed into the input. *)
Definition typed : Chat.UI :=
  {| Chat.page := Samples.idle [] " hi "; Chat.running := [] |}.

(** A send whose response arrives in two reads, with and without a click
    on Clear Chat History between them. *)
Definition two_reads : list text :=
  [ Chat.wire [frame (chunk_payload "Hel")];
    Chat.wire [frame (chunk_payload "lo, "); frame (chunk_payload "world")] ].

Definition cleared_send : list Chat.Action :=
  [ Chat.TypeInput ("hi"%string : text);
    Chat.ClickSend;
    Chat.Deliver 0 (Chat.wire [frame (chunk_payload "Hel")]);
    Chat.ClearHistory;
    Chat.Deliver 0 (Chat.wire [frame (chunk_payload "lo, "); frame (chunk_payload "world")]);
    Chat.Finish 0 Chat.EndOfStream ].

Definition plain_send : list Chat.Action :=
  Chat.TypeInput ("hi"%string : text)
    :: Chat.ClickSend :: map (Chat.Deliver 0) two_reads ++ [Chat.Finish 0 Chat.EndOfStream].

(** A further exchange on a page mounted with [history], and the page it
    leaves. *)
Definition script : list Chat.Action :=
  [ Chat.TypeInput ("hi"%string : text);
    Chat.ClickSend;
    Chat.Deliver 0 hello_read;
    Chat.Finish 0 Chat.EndOfStream ].

Definition after_script : Chat.UI :=
  {| Chat.page :=
       {| Chat.messages :=
            history ++ [ Chat.user_message "hi"%string; Chat.assistant_message "Hello"%string ];
          Chat.input := [];
          Chat.busy := false;
          Chat.error := None |};
     Chat.running := [] |}.

(** A stored column with a default value. *)
Definition currency_column : Readiness.ERPSchemaColumn number :=
  {| Readiness.default_value := JStr "GBP"%string;
     Readiness.data_type := "string"%string;
     Readiness.description := "Invoice currency"%string;
     Readiness.required := true;
     Readiness.rules := [] |}.

(** The payload of a tax rule with the default 0% and two conditions. *)
Definition tax_payload : RuleEditor.Payload number :=
  RuleEditor.Conditional (RuleEditor.VStr ("0%"%string : text))
    (<[("Globex"%string : text) := RuleEditor.VStr ("12%"%string : text)]>
       (<[("ACME"%string : text) := RuleEditor.VStr ("10%"%string : text)]> ∅)).

(** The second page of 25 records, ten to a page, and a page of a result
    so large that the products of the range are rounded. *)
Definition second_page : DataTable.Pagination :=
  {| DataTable.page := 2; DataTable.total_pages := 3;
     DataTable.total := 25; DataTable.limit := 10 |}.

Definition huge_page : DataTable.Pagination :=
  {| DataTable.page := 94906268; DataTable.total_pages := 105367120;
     DataTable.total := 10000000000000000; DataTable.limit := 94906267 |}.

End MoreSamples.

(** * Properties *)

(** ** Splitting and joining *)
Module SplitFacts.
Import JS.

Lemma pairs_ind (P : text -> Prop) :
  P [] ->
  (forall c, P [c]) ->
  (forall c c' s, P s -> P (c' :: s) -> P (c :: c' :: s)) ->
  forall s, P s.
Proof.
  intros H0 H1 H2 s.
  assert (P s /\ forall c, P (c :: s)) as [Hs _]; [|exact Hs].
  induction s as [|c' s [IHs IHc]].
  - split; [exact H0 | exact H1].
  - split; [apply IHc|]. intros c. apply H2; [exact IHs | apply IHc].
Qed.

Lemma split_blank_cons (c : ascii) (s : text) :
  split_blank (c :: s) =
    match s with
    | c' :: s'' =>
        if is_nl c && is_nl c' then [] :: split_blank s''
        else cons_head c (split_blank s)
    | [] => [[c]]
    end.
Proof. destruct s; reflexivity. Qed.

Lemma split_blank_not_nil (s : text) : split_blank s <> [].
Proof.
  induction s as [| c | c c' s IHs IHc] using pairs_ind; try discriminate.
  rewrite split_blank_cons. destruct (is_nl c && is_nl c'); [discriminate|].
  destruct (split_blank (c' :: s)); [contradiction | discriminate].
Qed.

Lemma is_nl_true (c : ascii) : is_nl c = true -> c = nl.
Proof. unfold is_nl. apply Ascii.eqb_eq. Qed.

Lemma join_cons_head (c : ascii) (pieces : list text) :
  pieces <> [] -> join blank (cons_head c pieces) = c :: join blank pieces.
Proof.
  destruct pieces as [|h t]; [contradiction|]. intros _.
  destruct t; reflexivity.
Qed.

(** Joining the pieces with the separator gives the text back: splitting
    loses no character. *)
Lemma join_split_blank (s : text) : join blank (split_blank s) = s.
Proof.
  induction s as [| c | c c' s IHs IHc] using pairs_ind; try reflexivity.
  rewrite split_blank_cons.
  destruct (is_nl c && is_nl c') eqn:E.
  - apply andb_prop in E as [Hc Hc'].
    apply is_nl_true in Hc, Hc'. subst.
    pose proof (split_blank_not_nil s) as Hne.
    simpl. destruct (split_blank s) eqn:Es; [contradiction|].
    rewrite <- IHs. reflexivity.
  - rewrite join_cons_head by apply split_blank_not_nil.
    rewrite IHc. reflexivity.
Qed.

Lemma split_blank_single (s h : text) : split_blank s = [h] -> h = s.
Proof.
  intros H. rewrite <- (join_split_blank s), H. reflexivity.
Qed.

Lemma pop_app (l1 l2 : list text) :
  l2 <> [] -> pop (l1 ++ l2) = (l1 ++ (pop l2).1, (pop l2).2).
Proof.
  intros Hne. induction l1 as [|x l1 IH].
  - simpl. destruct (pop l2); reflexivity.
  - change ((x :: l1) ++ l2) with (x :: (l1 ++ l2)).
    simpl. destruct (l1 ++ l2) eqn:E.
    + destruct l1; [simpl in E; contradiction | discriminate].
    + rewrite IH. reflexivity.
Qed.

Lemma pop_snoc (l : list text) (x : text) : pop (l ++ [x]) = (l, x).
Proof. rewrite pop_app by discriminate. simpl. rewrite app_nil_r. reflexivity. Qed.

Lemma pop_cons (x : text) (l : list text) :
  l <> [] -> pop (x :: l) = (x :: (pop l).1, (pop l).2).
Proof.
  destruct l as [|y l]; [contradiction|]. intros _.
  change (pop (x :: y :: l)) with
    (let '(front, back) := pop (y :: l) in (x :: front, back)).
  destruct (pop (y :: l)). reflexivity.
Qed.

Lemma cons_head_cons (c : ascii) (h : text) (t : list text) :
  cons_head c (h :: t) = (c :: h) :: t.
Proof. reflexivity. Qed.

(** The pieces of a text followed by more text: the complete pieces of the
    first part, then the pieces of its last piece followed by the rest. *)
Lemma split_blank_app (a b : text) :
  split_blank (a ++ b) =
    (pop (split_blank a)).1 ++ split_blank ((pop (split_blank a)).2 ++ b).
Proof.
  induction a as [| c | c c' s IHs IHc] using pairs_ind; try reflexivity.
  change ((c :: c' :: s) ++ b) with (c :: c' :: (s ++ b)).
  rewrite !(split_blank_cons c).
  destruct (is_nl c && is_nl c') eqn:E.
  - rewrite IHs, pop_cons by apply split_blank_not_nil. reflexivity.
  - change (c' :: s ++ b) with ((c' :: s) ++ b). rewrite IHc.
    destruct (split_blank (c' :: s)) as [|h t] eqn:Es.
    { exfalso. eapply split_blank_not_nil, Es. }
    destruct t as [|t1 t].
    + apply split_blank_single in Es. subst h. simpl.
      rewrite E. reflexivity.
    + rewrite cons_head_cons, !(pop_cons _ (t1 :: t)) by discriminate.
      reflexivity.
Qed.

(** The piece held back by [pop] contains no separator. *)
Lemma split_blank_rest (s : text) :
  split_blank (pop (split_blank s)).2 = [(pop (split_blank s)).2].
Proof.
  induction s as [| c | c c' s IHs IHc] using pairs_ind; try reflexivity.
  rewrite split_blank_cons.
  destruct (is_nl c && is_nl c') eqn:E.
  - rewrite pop_cons by apply split_blank_not_nil. exact IHs.
  - destruct (split_blank (c' :: s)) as [|h t] eqn:Es.
    { exfalso. eapply split_blank_not_nil, Es. }
    destruct t as [|t1 t].
    + pose proof Es as Es'. apply split_blank_single in Es'. subst h.
      change (pop (cons_head c [c' :: s])).2 with (c :: c' :: s).
      rewrite split_blank_cons, E, Es. reflexivity.
    + rewrite cons_head_cons, pop_cons by discriminate.
      rewrite pop_cons in IHc by discriminate. exact IHc.
Qed.

Lemma has_blank_cons (c : ascii) (s : text) :
  has_blank (c :: s) =
    match s with
    | c' :: _ => (is_nl c && is_nl c') || has_blank s
    | [] => false
    end.
Proof. destruct s; reflexivity. Qed.

(** A text without blank line is a single piece. *)
Lemma split_blank_no_blank (s : text) : has_blank s = false -> split_blank s = [s].
Proof.
  induction s as [|c s IH]; [reflexivity|].
  rewrite has_blank_cons, split_blank_cons.
  destruct s as [|c' s]; [reflexivity|].
  intros H. apply orb_false_iff in H as [Hc Hs].
  rewrite Hc, (IH Hs). reflexivity.
Qed.

(** A frame without blank line that does not end in a newline, followed by
    a blank line, splits into the frame and an empty rest. *)
Lemma split_blank_delimited (f : text) :
  has_blank (f ++ [nl]) = false -> split_blank (f ++ blank) = [f; []].
Proof.
  induction f as [|c f IH]; [reflexivity|].
  change ((c :: f) ++ [nl]) with (c :: (f ++ [nl])).
  change ((c :: f) ++ blank) with (c :: (f ++ blank)).
  rewrite has_blank_cons, split_blank_cons.
  destruct f as [|c' f].
  - simpl. intros H. apply orb_false_iff in H as [Hc _]. rewrite Hc. reflexivity.
  - change ((c' :: f) ++ [nl]) with (c' :: (f ++ [nl])) in *.
    change ((c' :: f) ++ blank) with (c' :: (f ++ blank)) in *.
    intros H. apply orb_false_iff in H as [Hc Hs].
    rewrite Hc, (IH Hs). reflexivity.
Qed.

Lemma split_blank_single_no_blank (s : text) : split_blank s = [s] -> has_blank s = false.
Proof.
  induction s as [|c s IH]; [reflexivity|].
  rewrite has_blank_cons, split_blank_cons.
  destruct s as [|c' s]; [reflexivity|].
  destruct (is_nl c && is_nl c'); [discriminate|].
  destruct (split_blank (c' :: s)) as [|h t]; [discriminate|].
  rewrite cons_head_cons. intros [= -> ->]. rewrite IH; reflexivity.
Qed.

Lemma pop_rebuild (l : list text) : l <> [] -> (pop l).1 ++ [(pop l).2] = l.
Proof.
  induction l as [|x l IH]; [contradiction|]. intros _.
  destruct l as [|y l]; [reflexivity|].
  rewrite pop_cons by discriminate. simpl. f_equal. apply IH. discriminate.
Qed.

End SplitFacts.

(** ** The chat stream consumer *)
Module ChatFacts.
Import JS Chat SplitFacts.

Section Consumer.

Variable number : Type.
Variable number_truthy : number -> bool.
Variable number_to_string : number -> text.
Variable JSON_parse : text -> option (JSValue number).
Variable null_property_message : text.

Abbreviation decode_frame := (Chat.decode_frame number JSON_parse).
Abbreviation handle_event :=
  (Chat.handle_event number number_truthy number_to_string null_property_message).
Abbreviation process_event :=
  (Chat.process_event number number_truthy number_to_string JSON_parse null_property_message).
Abbreviation process_events :=
  (Chat.process_events number number_truthy number_to_string JSON_parse null_property_message).
Abbreviation on_read :=
  (Chat.on_read number number_truthy number_to_string JSON_parse null_property_message).
Abbreviation feed :=
  (Chat.feed number number_truthy number_to_string JSON_parse null_property_message).
Abbreviation read_loop :=
  (Chat.read_loop number number_truthy number_to_string JSON_parse null_property_message).
Abbreviation exchange :=
  (Chat.exchange number number_truthy number_to_string JSON_parse null_property_message).
Abbreviation handleSend :=
  (Chat.handleSend number number_truthy number_to_string JSON_parse null_property_message).
Abbreviation raises := (Chat.raises number JSON_parse).
Abbreviation frame_chunk := (Chat.frame_chunk number number_truthy number_to_string JSON_parse).
Abbreviation malformed := (Chat.malformed number JSON_parse).
Abbreviation step :=
  (Chat.step number number_truthy number_to_string JSON_parse null_property_message).
Abbreviation reachable :=
  (Chat.reachable number number_truthy number_to_string JSON_parse null_property_message).
Abbreviation run :=
  (Chat.run number number_truthy number_to_string JSON_parse null_property_message).

(** *** Framing *)

Lemma process_events_app idx (e1 e2 : list text) msgs :
  process_events idx (e1 ++ e2) msgs =
    match process_events idx e1 msgs with
    | Continue msgs' => process_events idx e2 msgs'
    | Raise msgs' t => Raise msgs' t
    end.
Proof.
  revert msgs. induction e1 as [|e e1 IH]; intros msgs; [reflexivity|].
  simpl. destruct (process_event idx e msgs); [apply IH | reflexivity].
Qed.

(** A read delivered in two parts is processed as the two reads. *)
Lemma on_read_app idx (buf v w : text) msgs :
  on_read idx buf (v ++ w) msgs =
    match on_read idx buf v msgs with
    | Reading buf' msgs' => on_read idx buf' w msgs'
    | Aborted msgs' t => Aborted msgs' t
    end.
Proof.
  unfold Chat.on_read.
  rewrite (app_assoc buf v w), split_blank_app.
  rewrite pop_app by apply split_blank_not_nil.
  destruct (pop (split_blank (buf ++ v))) as [front back]. simpl.
  rewrite process_events_app.
  destruct (process_events idx front msgs) as [msgs'|msgs' t]; [|reflexivity].
  destruct (pop (split_blank (back ++ w))) as [front' back']. reflexivity.
Qed.

Lemma feed_aborted idx reads msgs t :
  feed idx reads (Aborted msgs t) = Aborted msgs t.
Proof. destruct reads; reflexivity. Qed.

(** The loop state after any sequence of reads is the state after one
    read of their concatenation: the read boundaries are not observable. *)
Lemma feed_concat idx (reads : list text) (buf : text) msgs :
  split_blank buf = [buf] ->
  feed idx reads (Reading buf msgs) = on_read idx buf (concat reads) msgs.
Proof.
  revert buf msgs. induction reads as [|v reads IH]; intros buf msgs Hbuf.
  - unfold Chat.on_read. simpl. rewrite app_nil_r, Hbuf. reflexivity.
  - simpl. rewrite on_read_app.
    destruct (on_read idx buf v msgs) as [buf' msgs'|msgs' t] eqn:E.
    + apply IH. unfold Chat.on_read in E.
      pose proof (split_blank_rest (buf ++ v)) as Hrest.
      destruct (pop (split_blank (buf ++ v))) as [front back].
      destruct (process_events idx front msgs); inversion E; subst. exact Hrest.
    + apply feed_aborted.
Qed.

(** The whole loop in terms of the stream: the complete frames are
    processed in order, the pending tail is never decoded. *)
Lemma read_loop_stream idx (reads : list text) ending msgs :
  read_loop idx reads ending msgs =
    match process_events idx (complete_frames (concat reads)) msgs with
    | Continue msgs' =>
        match ending with
        | EndOfStream => Continue msgs'
        | ReadFails t => Raise msgs' t
        end
    | Raise msgs' t => Raise msgs' t
    end.
Proof.
  unfold Chat.read_loop. rewrite feed_concat by reflexivity.
  unfold Chat.on_read, complete_frames. simpl.
  destruct (pop (split_blank (concat reads))) as [front back]. simpl.
  destruct (process_events idx front msgs); reflexivity.
Qed.

(** Whatever the reads, the loop has processed the complete frames of the
    stream so far and holds its pending tail. *)
Lemma feed_stream idx (reads : list text) msgs :
  feed idx reads (Reading [] msgs) =
    match process_events idx (complete_frames (concat reads)) msgs with
    | Continue msgs' => Reading (pending_tail (concat reads)) msgs'
    | Raise msgs' t => Aborted msgs' t
    end.
Proof.
  rewrite feed_concat by reflexivity.
  unfold Chat.on_read, complete_frames, pending_tail. simpl.
  destruct (pop (split_blank (concat reads))). reflexivity.
Qed.

(** The pending tail holds no complete frame, and the complete frames and
    the tail, joined by blank lines, are the stream: nothing is decoded
    early and nothing is lost. *)
Lemma pending_tail_incomplete (stream : text) :
  has_blank (pending_tail stream) = false
  /\ join blank (complete_frames stream ++ [pending_tail stream]) = stream.
Proof.
  unfold pending_tail, complete_frames. split.
  - apply split_blank_single_no_blank, split_blank_rest.
  - rewrite pop_rebuild by apply split_blank_not_nil. apply join_split_blank.
Qed.

Lemma split_blank_wire (frames : list text) (tail : text) :
  Forall delimited frames ->
  has_blank tail = false ->
  split_blank (wire frames ++ tail) = frames ++ [tail].
Proof.
  intros Hall Htail.
  induction Hall as [|f frames Hf _ IH]; [apply split_blank_no_blank, Htail|].
  unfold wire. simpl. rewrite <- app_assoc, split_blank_app.
  rewrite (split_blank_delimited f Hf). simpl. f_equal. exact IH.
Qed.

(** *** The assistant placeholder *)

Lemma placeholder_lookup (base : list ChatMessage) (u a : ChatMessage) :
  (base ++ [u; a]) !! Z.to_nat (Z.of_nat (length base) + 1) = Some a.
Proof.
  replace (Z.to_nat (Z.of_nat (length base) + 1)) with (length base + 1) by lia.
  rewrite lookup_app_r by lia.
  replace (length base + 1 - length base) with 1 by lia. reflexivity.
Qed.

Lemma placeholder_insert (base : list ChatMessage) (u a a' : ChatMessage) :
  <[Z.to_nat (Z.of_nat (length base) + 1) := a']> (base ++ [u; a]) = base ++ [u; a'].
Proof.
  replace (Z.to_nat (Z.of_nat (length base) + 1)) with (length base + 1) by lia.
  rewrite insert_app_r_alt by lia.
  replace (length base + 1 - length base) with 1 by lia. reflexivity.
Qed.

Lemma placeholder_index_nonneg (base : list ChatMessage) :
  (Z.of_nat (length base) + 1 <? 0)%Z = false.
Proof. apply Z.ltb_ge. lia. Qed.

(** A chunk lands at the end of the placeholder and nowhere else. *)
Lemma append_chunk_placeholder (base : list ChatMessage) (u : ChatMessage)
    (reply chunk : text) :
  append_chunk (Z.of_nat (length base) + 1) chunk (base ++ [u; assistant_message reply])
  = base ++ [u; assistant_message (reply ++ chunk)].
Proof.
  unfold append_chunk.
  rewrite placeholder_index_nonneg, placeholder_lookup, placeholder_insert.
  reflexivity.
Qed.

Lemma mark_error_placeholder (base : list ChatMessage) (u : ChatMessage)
    (reply message : text) :
  mark_error (Z.of_nat (length base) + 1) message (base ++ [u; assistant_message reply])
  = base ++ [u; assistant_message
                  (if is_empty reply then "Error: "%string ++ message else reply)].
Proof.
  unfold mark_error.
  rewrite placeholder_index_nonneg, placeholder_lookup. simpl.
  destruct (is_empty reply); [apply placeholder_insert | reflexivity].
Qed.

Lemma append_chunk_nil idx msgs : append_chunk idx [] msgs = msgs.
Proof.
  unfold append_chunk. destruct (idx <? 0)%Z; [reflexivity|].
  destruct (msgs !! Z.to_nat idx) as [m|] eqn:E; [|reflexivity].
  rewrite app_nil_r. apply list_insert_id. rewrite E. destruct m; reflexivity.
Qed.

Lemma append_chunk_app idx (c1 c2 : text) msgs :
  append_chunk idx c2 (append_chunk idx c1 msgs) = append_chunk idx (c1 ++ c2) msgs.
Proof.
  unfold append_chunk. destruct (idx <? 0)%Z; [reflexivity|].
  destruct (msgs !! Z.to_nat idx) as [m|] eqn:E.
  - rewrite list_lookup_insert_eq by (eapply lookup_lt_Some, E).
    rewrite list_insert_insert_eq. simpl. rewrite app_assoc. reflexivity.
  - rewrite E. reflexivity.
Qed.

(** *** Events *)

Lemma process_event_quiet idx (f : text) msgs :
  raises f = false ->
  process_event idx f msgs = Continue (append_chunk idx (frame_chunk f) msgs).
Proof.
  unfold Chat.raises, Chat.process_event, Chat.frame_chunk, Chat.handle_event.
  destruct (decode_frame f) as [event|]; [|rewrite append_chunk_nil; reflexivity].
  destruct (get event "type"%string) as [ty|]; [|discriminate].
  destruct (strict_eq_str ty "chunk"%string); [reflexivity|].
  simpl. intros ->. rewrite append_chunk_nil. reflexivity.
Qed.

Lemma process_event_raises idx (f : text) msgs :
  raises f = true -> exists t, process_event idx f msgs = Raise msgs t.
Proof.
  unfold Chat.raises, Chat.process_event, Chat.handle_event.
  destruct (decode_frame f) as [event|]; [|discriminate].
  destruct (get event "type"%string) as [ty|]; [|eauto].
  destruct (strict_eq_str ty "chunk"%string); [discriminate|].
  simpl. intros ->. eauto.
Qed.

(** The messages reached by the frame loop: the chunks of the processed
    frames, appended in order. *)
Lemma process_events_messages idx (frames : list text) msgs :
  flow_messages (process_events idx frames msgs)
  = append_chunk idx
      (concat (map frame_chunk (Chat.processed number JSON_parse frames))) msgs.
Proof.
  revert msgs. induction frames as [|f frames IH]; intros msgs.
  - simpl. rewrite append_chunk_nil. reflexivity.
  - simpl. destruct (raises f) eqn:E.
    + destruct (process_event_raises idx f msgs E) as [t ->].
      simpl. rewrite append_chunk_nil. reflexivity.
    + rewrite (process_event_quiet idx f msgs E), IH.
      simpl. apply append_chunk_app.
Qed.

Lemma processed_quiet (frames : list text) :
  Forall (fun f => raises f = false) frames ->
  Chat.processed number JSON_parse frames = frames.
Proof.
  induction 1 as [|f frames Hf _ IH]; [reflexivity|].
  simpl. rewrite Hf, IH. reflexivity.
Qed.

Lemma process_events_quiet idx (frames : list text) msgs :
  Forall (fun f => raises f = false) frames ->
  process_events idx frames msgs
  = Continue (append_chunk idx (concat (map frame_chunk frames)) msgs).
Proof.
  intros Hall. revert msgs. induction Hall as [|f frames Hf _ IH]; intros msgs.
  - simpl. rewrite append_chunk_nil. reflexivity.
  - simpl. rewrite (process_event_quiet idx f msgs Hf), IH, append_chunk_app.
    reflexivity.
Qed.

(** The [try] block changes nothing but the placeholder, whose content
    becomes what was received. *)
Lemma exchange_messages (base : list ChatMessage) (u : ChatMessage) response :
  flow_messages
    (exchange (Z.of_nat (length base) + 1) response (base ++ [u; assistant_message []]))
  = base ++ [u; assistant_message
                  (Chat.received number number_truthy number_to_string JSON_parse response)].
Proof.
  destruct response as [t| |reads ending]; try reflexivity.
  simpl. rewrite read_loop_stream.
  pose proof (process_events_messages (Z.of_nat (length base) + 1)
                (complete_frames (concat reads))
                (base ++ [u; assistant_message []])) as H.
  rewrite append_chunk_placeholder in H. simpl in H.
  unfold complete_frames in *.
  destruct (process_events _ _ _); simpl in H; subst; [destruct ending|]; reflexivity.
Qed.

Lemma begin_send_nonempty (st : PageState) :
  is_empty (trim (input st)) = false ->
  begin_send st =
    Some (trim (input st),
          (Z.of_nat (length (messages st)) + 1)%Z,
          {| messages := messages st ++
               [user_message (trim (input st)); assistant_message []];
             input := []; busy := true; error := None |}).
Proof. unfold begin_send. intros ->. reflexivity. Qed.

(** The page after [handleSend], for any response. *)
Lemma handleSend_result (st : PageState) response :
  is_empty (trim (input st)) = false ->
  handleSend st response =
    (let got := Chat.received number number_truthy number_to_string JSON_parse response in
     let idx := (Z.of_nat (length (messages st)) + 1)%Z in
     let msgs1 := messages st ++ [user_message (trim (input st)); assistant_message []] in
     match exchange idx response msgs1 with
     | Continue _ =>
         {| messages := messages st ++
              [user_message (trim (input st)); assistant_message got];
            input := []; busy := false; error := None |}
     | Raise _ t =>
         {| messages := messages st ++
              [user_message (trim (input st));
               assistant_message
                 (if is_empty got then "Error: "%string ++ thrown_message t else got)];
            input := []; busy := false; error := Some (thrown_message t) |}
     end,
     [trim (input st)]).
Proof.
  intros Hprompt. unfold Chat.handleSend.
  rewrite (begin_send_nonempty st Hprompt). simpl.
  pose proof (exchange_messages (messages st) (user_message (trim (input st))) response) as H.
  destruct (exchange _ response _) as [msgs|msgs t]; simpl in *; subst msgs.
  - reflexivity.
  - rewrite mark_error_placeholder. reflexivity.
Qed.

(** The outcome of [handleSend] depends on the reads only through their
    concatenation. *)
Lemma handleSend_split_independent (st : PageState) (reads reads' : list text) ending :
  concat reads' = concat reads ->
  handleSend st (FetchBody reads' ending) = handleSend st (FetchBody reads ending).
Proof.
  intros Heq. unfold Chat.handleSend.
  destruct (begin_send st) as [[[prompt idx] st1]|]; [|reflexivity].
  simpl. rewrite !read_loop_stream, Heq. reflexivity.
Qed.

(** *** Streaming reassembly *)


(** *** Malformed frames *)

Lemma malformed_not_decoded (bad : text) : malformed bad -> decode_frame bad = None.
Proof.
  unfold Chat.malformed, Chat.decode_frame.
  intros [H | [(line & H & Hempty) | (line & H & Hparse)]]; rewrite H.
  - reflexivity.
  - rewrite Hempty. reflexivity.
  - simpl. destruct (is_empty (trim (drop 5 line))); [reflexivity | exact Hparse].
Qed.

Lemma split_nl_single (s : text) :
  forallb (fun ch => negb (is_nl ch)) s = true -> split_nl s = [s].
Proof.
  induction s as [|c s IH]; [reflexivity|].
  cbn [forallb split_nl]. intros H. apply andb_prop in H as [Hc Hs].
  apply negb_true_iff in Hc. rewrite Hc, (IH Hs). reflexivity.
Qed.

(** A frame on one line whose payload is read by [JSON.parse] is decoded
    to the event read. *)
Lemma decode_single_line (rawEvent rest : text) (event : JSValue number) :
  forallb (fun ch => negb (is_nl ch)) rawEvent = true ->
  trim rawEvent = "data:"%string ++ rest ->
  is_empty (trim rest) = false ->
  JSON_parse (trim rest) = Some event ->
  decode_frame rawEvent = Some event.
Proof.
  intros Hline Htrim Hne Hparse. unfold Chat.decode_frame, Chat.find_data_line.
  rewrite (split_nl_single _ Hline). cbn [map List.find]. rewrite Htrim.
  change (startsWith "data:"%string ("data:"%string ++ rest)) with true. cbv iota.
  change (drop 5 ("data:"%string ++ rest)) with rest.
  cbv zeta. rewrite Hne. exact Hparse.
Qed.

Lemma contributes_quiet (f c : text) :
  Chat.contributes number JSON_parse f c -> raises f = false /\ frame_chunk f = c.
Proof.
  intros [rawEvent rest event c' Hline Htrim Hne Hparse Hty Hc
         |rawEvent rest event ty Hline Htrim Hne Hparse Hty Hchunk Herror];
    pose proof (decode_single_line _ _ _ Hline Htrim Hne Hparse) as Hdec;
    unfold Chat.raises, Chat.frame_chunk; rewrite Hdec, Hty.
  - split; [reflexivity|]. cbn [strict_eq_str].
    assert (text_eqb "chunk"%string "chunk"%string = true) as ->
      by (apply bool_decide_eq_true; reflexivity).
    unfold Chat.chunk_text. rewrite Hc. cbn [JS.truthy JS.ToString].
    destruct c'; reflexivity.
  - rewrite Hchunk, Herror. split; reflexivity.
Qed.

Lemma contributes_all (frames contents : list text) :
  Forall2 (Chat.contributes number JSON_parse) frames contents ->
  Forall (fun f => raises f = false) frames /\ map frame_chunk frames = contents.
Proof.
  induction 1 as [|f c frames contents Hf _ [IH1 IH2]]; [split; [constructor | reflexivity]|].
  destruct (contributes_quiet f c Hf) as [Hq Hc].
  split; [constructor; assumption|]. simpl. rewrite Hc, IH2. reflexivity.
Qed.


(** *** Sending *)

Lemma handle_chunk_event idx (event : JSValue number) msgs :
  get event "type"%string = Some (Value (JStr ("chunk"%string : text))) ->
  handle_event idx event msgs
  = Continue (append_chunk idx
                (Chat.chunk_text number number_truthy number_to_string event) msgs).
Proof. unfold Chat.handle_event. intros ->. reflexivity. Qed.

(** *** Errors *)

Lemma step_starts_exchange (ui ui' : UI) (a : Action) :
  step ui a = Some ui' ->
  length (running ui) < length (running ui') ->
  a = ClickSend \/ exists key, a = KeyDown key.
Proof.
  destruct a as [value| |key| |k value|k ending]; simpl; eauto.
  - destruct (busy (page ui)); [discriminate|].
    intros [= <-]. simpl. lia.
  - intros [= <-]. simpl. lia.
  - destruct (running ui !! k) as [ex|] eqn:E; [|discriminate].
    destruct (on_read _ _ _ _); intros [= <-]; simpl.
    + rewrite length_insert. lia.
    + rewrite length_delete by eauto. lia.
  - destruct (running ui !! k) as [ex|] eqn:E; [|discriminate].
    intros [= <-]. simpl. rewrite length_delete by eauto. lia.
Qed.


(** *** One exchange at a time *)

Lemma canSend_idle (st : PageState) : canSend st = true -> busy st = false.
Proof. unfold canSend. destruct (busy st); [discriminate | reflexivity]. Qed.

Lemma start_send_exclusive (ui : UI) :
  busy (page ui) = false -> running ui = [] ->
  exclusive (start_send ui).
Proof.
  intros Hbusy Hrun. unfold start_send, begin_send.
  destruct (is_empty (trim (input (page ui)))).
  - left. split; assumption.
  - right. simpl. rewrite Hrun. eauto.
Qed.

Lemma end_send_idle idx outcome (st : PageState) : busy (end_send idx outcome st) = false.
Proof. destruct outcome; reflexivity. Qed.

Lemma step_exclusive (ui ui' : UI) (a : Action) :
  exclusive ui -> step ui a = Some ui' -> exclusive ui'.
Proof.
  intros Hinv Hstep.
  destruct a as [value| |key| |k value|k ending]; simpl in Hstep.
  - destruct (busy (page ui)) eqn:Hb; [discriminate|].
    injection Hstep as <-. destruct Hinv as [[_ Hrun]|[Hb' _]]; [|congruence].
    left. split; [reflexivity | exact Hrun].
  - destruct (canSend (page ui)) eqn:Hc; [|discriminate].
    injection Hstep as <-. apply canSend_idle in Hc.
    destruct Hinv as [[_ Hrun]|[Hb' _]]; [|congruence].
    apply start_send_exclusive; assumption.
  - injection Hstep as <-. unfold handleInputKeyDown.
    destruct (negb (text_eqb key "Enter"%string)); [exact Hinv|].
    destruct (canSend (page ui)) eqn:Hc; [|exact Hinv]. simpl.
    apply canSend_idle in Hc.
    destruct Hinv as [[_ Hrun]|[Hb' _]]; [|congruence].
    apply start_send_exclusive; assumption.
  - injection Hstep as <-. exact Hinv.
  - destruct (running ui !! k) as [ex|] eqn:E; [|discriminate].
    destruct Hinv as [[_ Hrun]|[Hb (ex0 & Hrun)]]; [rewrite Hrun in E; discriminate|].
    rewrite Hrun in E. destruct k as [|k]; [|discriminate].
    destruct (on_read _ _ _ _); injection Hstep as <-.
    + right. simpl. rewrite Hrun. eauto.
    + left. simpl. rewrite Hrun. split; reflexivity.
  - destruct (running ui !! k) as [ex|] eqn:E; [|discriminate].
    destruct Hinv as [[_ Hrun]|[Hb (ex0 & Hrun)]]; [rewrite Hrun in E; discriminate|].
    rewrite Hrun in E. destruct k as [|k]; [|discriminate].
    injection Hstep as <-. left. simpl. rewrite Hrun.
    split; [apply end_send_idle | reflexivity].
Qed.

Lemma reachable_exclusive (ui : UI) : reachable ui -> exclusive ui.
Proof.
  induction 1 as [history|ui a ui' _ IH Hstep].
  - left. split; reflexivity.
  - eapply step_exclusive; eassumption.
Qed.

(** *** [handleSend] as a run of the transition system *)

Lemma run_app (ui : UI) (xs ys : list Action) :
  run ui (xs ++ ys) =
    match run ui xs with
    | Some ui' => run ui' ys
    | None => None
    end.
Proof.
  revert ui. induction xs as [|a xs IH]; intros ui; [reflexivity|].
  simpl. destruct (step ui a); [apply IH | reflexivity].
Qed.

Lemma run_deliveries idx (reads : list text) (buf buf' : text)
    (msgs msgs' : list ChatMessage) (st : PageState) :
  feed idx reads (Reading buf msgs) = Reading buf' msgs' ->
  run {| page := with_messages msgs st;
         running := [ {| assistantIndex := idx; buffer := buf |} ] |}
      (map (Deliver 0) reads)
  = Some {| page := with_messages msgs' st;
            running := [ {| assistantIndex := idx; buffer := buf' |} ] |}.
Proof.
  revert buf msgs. induction reads as [|v reads IH]; intros buf msgs Hfeed.
  - simpl in Hfeed. injection Hfeed as -> ->. reflexivity.
  - simpl in Hfeed. simpl.
    destruct (on_read idx buf v msgs) as [b1 m1|m1 t] eqn:E.
    + apply (IH b1 m1), Hfeed.
    + rewrite feed_aborted in Hfeed. discriminate.
Qed.

Lemma canSend_prompt (st : PageState) :
  canSend st = true -> is_empty (trim (input st)) = false.
Proof.
  unfold canSend. intros H. apply andb_prop in H as [_ H].
  destruct (trim (input st)); [discriminate | reflexivity].
Qed.

(** A click on the send button, the reads of the response and the end of
    the stream, taken one event at a time, leave the page where
    [handleSend] leaves it, with no exchange running. *)
Lemma handleSend_run (ui : UI) (reads : list text) (ending : StreamEnd)
    (buf : text) (msgs : list ChatMessage) :
  canSend (page ui) = true ->
  running ui = [] ->
  feed (Z.of_nat (length (messages (page ui))) + 1) reads
    (Reading []
       (messages (page ui) ++
          [user_message (trim (input (page ui))); assistant_message []]))
  = Reading buf msgs ->
  run ui (ClickSend :: map (Deliver 0) reads ++ [Finish 0 ending])
  = Some {| page := (handleSend (page ui) (FetchBody reads ending)).1; running := [] |}.
Proof.
  intros Hcan Hrun Hfeed.
  pose proof (canSend_prompt _ Hcan) as Hprompt.
  cbn [Chat.run Chat.step]. rewrite Hcan.
  unfold start_send, Chat.handleSend. rewrite (begin_send_nonempty _ Hprompt), Hrun.
  cbn [app fst]. rewrite run_app.
  match goal with
  | |- context [run {| page := ?st1; running := _ |} (map _ reads)] =>
      change st1 with (with_messages (messages st1) st1)
  end.
  rewrite (run_deliveries _ reads [] buf _ msgs _ Hfeed).
  unfold Chat.exchange, Chat.read_loop, with_messages.
  cbn [messages input busy error]. rewrite Hfeed.
  destruct ending; reflexivity.
Qed.

(** *** A send as a run of the page *)

Lemma complete_frames_app (a b : text) :
  complete_frames (a ++ b)
  = complete_frames a ++ complete_frames (pending_tail a ++ b).
Proof.
  unfold complete_frames, pending_tail.
  rewrite split_blank_app, pop_app by apply split_blank_not_nil. reflexivity.
Qed.

Lemma quiet_take (reads : list text) (k : nat) :
  Forall (fun f => raises f = false) (complete_frames (concat reads)) ->
  Forall (fun f => raises f = false) (complete_frames (concat (take k reads))).
Proof.
  intros H. rewrite <- (take_drop k reads), concat_app, complete_frames_app in H.
  apply Forall_app in H as [H _]. exact H.
Qed.

Lemma shown_grows (reads : list text) (k : nat) :
  concat (map frame_chunk (complete_frames (concat (take k reads))))
  `prefix_of` concat (map frame_chunk (complete_frames (concat (take (S k) reads)))).
Proof.
  destruct (reads !! k) as [r|] eqn:E.
  - rewrite (take_S_r _ _ _ E), concat_app, complete_frames_app, map_app, concat_app.
    apply prefix_app_r. reflexivity.
  - apply lookup_ge_None in E. rewrite !take_ge by lia. reflexivity.
Qed.

(** The page after a click on the send button and the reads of a response
    none of whose completed frames raises. *)
Lemma run_send_deliveries (ui : UI) (reads : list text) :
  canSend (page ui) = true ->
  running ui = [] ->
  Forall (fun f => raises f = false) (complete_frames (concat reads)) ->
  run ui (ClickSend :: map (Deliver 0) reads)
  = Some {| page :=
              {| messages :=
                   messages (page ui) ++
                     [user_message (trim (input (page ui)));
                      assistant_message
                        (concat (map frame_chunk (complete_frames (concat reads))))];
                 input := []; busy := true; error := None |};
            running :=
              [ {| assistantIndex := Z.of_nat (length (messages (page ui))) + 1;
                   buffer := pending_tail (concat reads) |} ] |}.
Proof.
  intros Hcan Hrun Hquiet.
  pose proof (canSend_prompt _ Hcan) as Hprompt.
  pose proof (feed_stream (Z.of_nat (length (messages (page ui))) + 1) reads
                (messages (page ui) ++
                   [user_message (trim (input (page ui))); assistant_message []])) as Hfeed.
  rewrite process_events_quiet in Hfeed by exact Hquiet.
  rewrite append_chunk_placeholder in Hfeed. cbn [app] in Hfeed.
  cbn [Chat.run Chat.step]. rewrite Hcan.
  unfold start_send. rewrite (begin_send_nonempty _ Hprompt), Hrun. cbn [app].
  match goal with
  | |- context [run {| page := ?st1; running := _ |} (map _ reads)] =>
      change st1 with (with_messages (messages st1) st1)
  end.
  cbn [messages]. rewrite (run_deliveries _ reads [] _ _ _ _ Hfeed). reflexivity.
Qed.


(** C9. In every reachable state of the page at most one exchange is
    running, and one is running exactly when [busy] is set; while [busy]
    is set the send button and the input are disabled and the key handler
    leaves the page as it is, so no second exchange can start. *)
Theorem one_request_in_flight (ui : UI) :
  reachable ui ->
  length (running ui) <= 1
  /\ (busy (page ui) = true <-> length (running ui) = 1)
  /\ (busy (page ui) = true ->
      canSend (page ui) = false
      /\ step ui ClickSend = None
      /\ (forall key, step ui (KeyDown key) = Some ui)
      /\ (forall value, step ui (TypeInput value) = None)).
Proof.
  intros Hreach. apply reachable_exclusive in Hreach.
  split; [|split].
  - destruct Hreach as [[_ ->]|[_ (ex & ->)]]; simpl; lia.
  - destruct Hreach as [[Hb ->]|[Hb (ex & ->)]]; rewrite Hb; simpl;
      split; try discriminate; reflexivity.
  - intros Hb.
    assert (canSend (page ui) = false) as Hc.
    { unfold canSend. rewrite Hb. reflexivity. }
    split; [exact Hc|]. simpl. rewrite Hc, Hb. split; [reflexivity|].
    split; [|reflexivity].
    intros key. unfold handleInputKeyDown. rewrite Hc.
    destruct (negb (text_eqb key "Enter"%string)); reflexivity.
Qed.

End Consumer.

End ChatFacts.

(** ** The rule editor *)
Module RuleEditorFacts.
Import JS RuleEditor.

Section Save.

Variable number : Type.
Variable Number : text -> number.
Variable number_zero : number.
Variable number_to_string : number -> text.
Variable onSave : Payload number -> option Thrown.

Abbreviation add_row := (RuleEditor.add_row number Number).
Abbreviation build_rows := (RuleEditor.build_rows number Number).
Abbreviation save := (RuleEditor.save number Number number_zero number_to_string onSave).
Abbreviation defined_in := (RuleEditor.defined_in number).
Abbreviation Acc := (RuleEditor.Acc number).

Abbreviation stored := (RuleEditor.stored number Number).

Lemma add_row_skipped b (acc : Acc) (row : MappingRow) :
  retained row = false -> add_row b acc row = acc.
Proof.
  unfold retained, RuleEditor.add_row. intros H.
  apply negb_false_iff in H. rewrite H. reflexivity.
Qed.

Lemma add_row_retained b (acc : Acc) (row : MappingRow) :
  retained row = true ->
  add_row b acc row =
    {| builtRows := assign number (trim (key row)) (stored b row) (builtRows number acc);
       duplicateKeys :=
         if defined_in (builtRows number acc) (trim (key row))
         then set_add (trim (key row)) (duplicateKeys number acc)
         else duplicateKeys number acc |}.
Proof.
  unfold retained, RuleEditor.add_row. intros H.
  apply negb_true_iff in H. rewrite H. reflexivity.
Qed.

(** The rows that are skipped play no part in the fold. *)
Lemma fold_add_row_filter b (rows : list MappingRow) (acc : Acc) :
  fold_left (add_row b) rows acc = fold_left (add_row b) (List.filter retained rows) acc.
Proof.
  revert acc. induction rows as [|row rows IH]; intros acc; [reflexivity|].
  simpl. destruct (retained row) eqn:E.
  - simpl. apply IH.
  - rewrite add_row_skipped by exact E. apply IH.
Qed.

(** Every entry of the built record comes from a retained row. *)
Lemma fold_add_row_lookup b (rows : list MappingRow) (acc : Acc) (k : text) (v : Val number) :
  builtRows number (fold_left (add_row b) rows acc) !! k = Some v ->
  builtRows number acc !! k = Some v
  \/ exists row, row ∈ rows /\ retained row = true
                 /\ trim (key row) = k /\ v = stored b row.
Proof.
  revert acc. induction rows as [|row rows IH]; intros acc H; [left; exact H|].
  simpl in H. apply IH in H as [H | (row' & Hin & Hret & Hk & Hv)].
  - destruct (retained row) eqn:E.
    + rewrite add_row_retained in H by exact E. simpl in H.
      unfold assign in H.
      destruct (text_eqb (trim (key row)) "__proto__"%string); [left; exact H|].
      destruct (decide (trim (key row) = k)) as [Heq|Hne].
      * subst k. rewrite lookup_insert_eq in H. injection H as <-.
        right. exists row. split; [left|]. auto.
      * rewrite lookup_insert_ne in H by exact Hne. left. exact H.
    + rewrite add_row_skipped in H by exact E. left. exact H.
  - right. exists row'. split; [right; exact Hin|]. auto.
Qed.

Lemma defined_in_add_row b (acc : Acc) (row : MappingRow) (k : text) :
  defined_in (builtRows number acc) k = true ->
  defined_in (builtRows number (add_row b acc row)) k = true.
Proof.
  intros H. destruct (retained row) eqn:E.
  - rewrite add_row_retained by exact E. simpl.
    unfold RuleEditor.defined_in, assign in *.
    destruct (text_eqb (trim (key row)) "__proto__"%string); [exact H|].
    apply orb_true_iff in H as [H|H]; apply orb_true_iff; [left|right; exact H].
    apply bool_decide_eq_true in H. apply bool_decide_eq_true.
    destruct (decide (trim (key row) = k)) as [->|Hne].
    + rewrite lookup_insert_eq. eauto.
    + rewrite lookup_insert_ne by exact Hne. exact H.
  - rewrite add_row_skipped by exact E. exact H.
Qed.

Lemma defined_in_after_row b (acc : Acc) (row : MappingRow) :
  retained row = true ->
  defined_in (builtRows number (add_row b acc row)) (trim (key row)) = true.
Proof.
  intros E. rewrite add_row_retained by exact E. simpl.
  unfold RuleEditor.defined_in, assign, text_eqb.
  destruct (bool_decide (trim (key row) = "__proto__"%string)) eqn:Hp.
  - apply bool_decide_eq_true in Hp. rewrite Hp.
    apply orb_true_iff. right. reflexivity.
  - apply orb_true_iff. left. apply bool_decide_eq_true.
    rewrite lookup_insert_eq. eauto.
Qed.

Lemma elem_of_set_add (k k' : text) (s : list text) :
  k ∈ set_add k' s <-> k = k' \/ k ∈ s.
Proof.
  unfold set_add. destruct (bool_decide (k' ∈ s)) eqn:E.
  - apply bool_decide_eq_true in E. split; [auto|]. intros [->|H]; assumption.
  - rewrite elem_of_app, list_elem_of_singleton. tauto.
Qed.

Lemma duplicateKeys_add_row b (acc : Acc) (row : MappingRow) (k : text) :
  k ∈ duplicateKeys number acc -> k ∈ duplicateKeys number (add_row b acc row).
Proof.
  intros H. destruct (retained row) eqn:E.
  - rewrite add_row_retained by exact E. simpl.
    destruct (defined_in _ _); [apply elem_of_set_add; right|]; exact H.
  - rewrite add_row_skipped by exact E. exact H.
Qed.

Lemma duplicateKeys_fold b (rows : list MappingRow) (acc : Acc) (k : text) :
  k ∈ duplicateKeys number acc ->
  k ∈ duplicateKeys number (fold_left (add_row b) rows acc).
Proof.
  revert acc. induction rows as [|row rows IH]; intros acc H; [exact H|].
  simpl. apply IH, duplicateKeys_add_row, H.
Qed.

(** A retained row whose key is already defined is reported. *)
Lemma duplicate_reported b (rows : list MappingRow) (acc : Acc) (row : MappingRow) :
  defined_in (builtRows number acc) (trim (key row)) = true ->
  row ∈ rows -> retained row = true ->
  trim (key row) ∈ duplicateKeys number (fold_left (add_row b) rows acc).
Proof.
  revert acc. induction rows as [|r rows IH]; intros acc Hdef Hin Hret.
  - inversion Hin.
  - simpl. apply elem_of_cons in Hin as [<-|Hin].
    + apply duplicateKeys_fold. rewrite add_row_retained by exact Hret. simpl.
      rewrite Hdef. apply elem_of_set_add. left. reflexivity.
    + apply IH; [apply defined_in_add_row, Hdef | exact Hin | exact Hret].
Qed.

Lemma duplicate_rows_reported b (rows : list MappingRow) (acc : Acc)
    (i j : nat) (r1 r2 : MappingRow) :
  i < j -> rows !! i = Some r1 -> rows !! j = Some r2 ->
  retained r1 = true -> retained r2 = true ->
  trim (key r1) = trim (key r2) ->
  trim (key r1) ∈ duplicateKeys number (fold_left (add_row b) rows acc).
Proof.
  revert acc i j. induction rows as [|r rows IH]; intros acc i j Hlt Hi Hj H1 H2 Hk.
  - discriminate.
  - destruct j as [|j]; [lia|]. simpl in Hj. destruct i as [|i].
    + simpl in Hi. injection Hi as ->. simpl. rewrite Hk.
      apply duplicate_reported.
      * rewrite <- Hk. apply defined_in_after_row, H1.
      * eapply list_elem_of_lookup_2, Hj.
      * exact H2.
    + simpl in Hi. simpl. eapply (IH _ i j); eauto. lia.
Qed.

Lemma save_filter (ruleType : text) (rows : list MappingRow) (defaultValue : text) :
  save ruleType rows defaultValue = save ruleType (List.filter retained rows) defaultValue.
Proof.
  unfold RuleEditor.save, RuleEditor.build_rows.
  rewrite <- fold_add_row_filter. reflexivity.
Qed.

(** A row added by [addRow] and left blank does not change what is saved. *)
Lemma save_addRow (ruleType : text) (rows : list MappingRow) (defaultValue : text) :
  save ruleType (addRow rows) defaultValue = save ruleType rows defaultValue.
Proof.
  rewrite (save_filter ruleType rows), save_filter. unfold addRow.
  rewrite List.filter_app. simpl. rewrite app_nil_r. reflexivity.
Qed.

Lemma build_rows_lookup b (rows : list MappingRow) (k : text) (v : Val number) :
  builtRows number (build_rows b rows) !! k = Some v ->
  exists row, row ∈ rows /\ retained row = true /\ trim (key row) = k /\ v = stored b row.
Proof.
  unfold RuleEditor.build_rows. intros H.
  apply fold_add_row_lookup in H as [H|H]; [|exact H].
  simpl in H. rewrite lookup_empty in H. discriminate.
Qed.

Lemma retained_nonempty (row : MappingRow) :
  retained row = true -> trim (key row) <> [] /\ trim (value row) <> [].
Proof.
  unfold retained. intros H. apply negb_true_iff, orb_false_iff in H as [Hk Hv].
  split; intros E; [rewrite E in Hk | rewrite E in Hv]; discriminate.
Qed.

(** *** Duplicate keys *)

(** C4 (amended). When two rows that are both retained (key and value
    non-blank after trimming) have the same trimmed key, [save] reports
    the duplicate and never calls [onSave]. Rows with a blank key or value
    are dropped before the check. *)
Theorem duplicate_key_rejected (ruleType : text) (rows : list MappingRow)
    (defaultValue : text) (i j : nat) (r1 r2 : MappingRow) :
  i <> j ->
  rows !! i = Some r1 ->
  rows !! j = Some r2 ->
  retained r1 = true ->
  retained r2 = true ->
  trim (key r1) = trim (key r2) ->
  exists dups,
    trim (key r1) ∈ dups
    /\ save ruleType rows defaultValue =
         {| saved := [];
            error := Some ("Duplicate keys: "%string ++ join ", "%string dups);
            saving := false |}.
Proof.
  intros Hne Hi Hj H1 H2 Hk.
  set (b := text_eqb ruleType "deliveryDays"%string).
  exists (duplicateKeys number (build_rows b rows)).
  assert (trim (key r1) ∈ duplicateKeys number (build_rows b rows)) as Hin.
  { destruct (Nat.lt_total i j) as [Hlt|[Heq|Hgt]]; [|contradiction|].
    - eapply duplicate_rows_reported; eauto.
    - rewrite Hk. eapply duplicate_rows_reported; eauto. }
  split; [exact Hin|].
  unfold RuleEditor.save. fold b.
  destruct (duplicateKeys number (build_rows b rows)); [inversion Hin | reflexivity].
Qed.

(** *** Blank rows *)

(** C10. [save] gives the same result as on the rows that are retained,
    so blank rows are omitted and play no part in the duplicate check; no
    entry of a saved payload has an empty key or an empty string value;
    and two rows with the same key, one of them with a blank value, are
    saved without a duplicate error. *)
Theorem blank_rows_omitted (ruleType : text) (rows : list MappingRow) (defaultValue : text) :
  save ruleType rows defaultValue = save ruleType (List.filter retained rows) defaultValue
  /\ (forall payload k v,
        payload ∈ saved number (save ruleType rows defaultValue) ->
        entries number payload !! k = Some v ->
        k <> [] /\ v <> VStr [])
  /\ (forall v, trim v = [] ->
        save "salesTaxRate"%string
          [ {| key := "ACME"%string; value := "10%"%string |};
            {| key := "ACME"%string; value := v |} ] defaultValue
        = {| saved :=
               [Conditional (VStr defaultValue)
                  (<[("ACME"%string : text) := VStr ("10%"%string : text)]> ∅)];
             error :=
               save_error_message <$>
                 onSave (Conditional (VStr defaultValue)
                           (<[("ACME"%string : text) := VStr ("10%"%string : text)]> ∅));
             saving := false |}).
Proof.
  split; [apply save_filter|]. split.
  - intros payload k v Hin Hlook. unfold RuleEditor.save in Hin.
    set (b := text_eqb ruleType "deliveryDays"%string) in *.
    set (m := text_eqb ruleType "customerNameMapping"%string) in *.
    set (c := text_eqb ruleType "customerReference"%string
              || text_eqb ruleType "paymentReference"%string) in *.
    assert (c = true -> b = false) as Hcb.
    { subst b c. unfold text_eqb. intros Ec.
      apply orb_true_iff in Ec as [Ec|Ec]; apply bool_decide_eq_true in Ec;
        subst ruleType; reflexivity. }
    clearbody b m c.
    destruct (duplicateKeys number (build_rows b rows)); cbn [saved] in Hin;
      [|inversion Hin].
    apply list_elem_of_singleton in Hin. subst payload.
    destruct m; [|destruct c]; cbn [entries] in Hlook.
    + apply build_rows_lookup in Hlook as (row & _ & Hret & <- & ->).
      apply retained_nonempty in Hret as [Hk Hv]. split; [exact Hk|].
      unfold RuleEditor.stored. destruct b; [discriminate|]. congruence.
    + rewrite (Hcb eq_refl) in *. unfold config_payload in Hlook.
      rewrite map_lookup_imap in Hlook.
      destruct (builtRows number (build_rows false rows) !! k) as [w|] eqn:Ew;
        [|discriminate].
      cbn [option_bind mbind] in Hlook. injection Hlook as <-.
      apply build_rows_lookup in Ew as (row & _ & Hret & <- & ->).
      apply retained_nonempty in Hret as [Hk Hv]. split; [exact Hk|].
      unfold config_value, RuleEditor.stored, to_number, to_text.
      repeat destruct (bool_decide _); try discriminate. congruence.
    + apply build_rows_lookup in Hlook as (row & _ & Hret & <- & ->).
      apply retained_nonempty in Hret as [Hk Hv]. split; [exact Hk|].
      unfold RuleEditor.stored. destruct b; [discriminate|]. congruence.
  - intros v Hv. rewrite save_filter.
    assert (retained {| key := "ACME"%string; value := v |} = false) as Hr.
    { unfold retained. simpl. rewrite Hv. reflexivity. }
    assert (retained {| key := "ACME"%string; value := "10%"%string |} = true) as Hr'
      by reflexivity.
    cbn [List.filter]. rewrite Hr, Hr'. vm_compute. reflexivity.
Qed.

(** *** Numeric rules *)

(** C8. Whatever [save] passes to [onSave] for the [deliveryDays] rule is
    a conditional rule whose default is the number read from the default
    field (0 when the field is empty) and whose conditions are the numbers
    read from retained rows; for the string-typed conditional rules the
    default and the conditions are strings. Without duplicates the payload
    is passed exactly once. *)
Theorem numeric_rule_coerced (ruleType : text) (rows : list MappingRow)
    (defaultValue : text) (payload : Payload number) :
  text_eqb ruleType "customerNameMapping"%string = false ->
  text_eqb ruleType "customerReference"%string = false ->
  text_eqb ruleType "paymentReference"%string = false ->
  payload ∈ saved number (save ruleType rows defaultValue) ->
  let numeric := text_eqb ruleType "deliveryDays"%string in
  exists conditions,
    saved number (save ruleType rows defaultValue) = [payload]
    /\ payload =
         Conditional
           (if numeric
            then VNum (if is_empty defaultValue then number_zero else Number defaultValue)
            else VStr defaultValue)
           conditions
    /\ (forall k v,
          conditions !! k = Some v ->
          (if numeric then is_number number v else is_string number v) = true
          /\ exists row, row ∈ rows /\ retained row = true /\ trim (key row) = k
                         /\ v = (if numeric then VNum (Number (trim (value row)))
                                 else VStr (trim (value row)))).
Proof.
  intros Em Er Ep Hin numeric. unfold RuleEditor.save in *. fold numeric in Hin |- *.
  rewrite Em, Er, Ep in *. simpl in *.
  destruct (duplicateKeys number (build_rows numeric rows)); simpl in Hin;
    [|inversion Hin].
  apply list_elem_of_singleton in Hin. subst payload.
  eexists. split; [reflexivity|]. split; [reflexivity|].
  intros k v Hlook. apply build_rows_lookup in Hlook as (row & Hrow & Hret & <- & ->).
  split.
  - unfold RuleEditor.stored. destruct numeric; reflexivity.
  - exists row. repeat split; try assumption.
Qed.

End Save.

End RuleEditorFacts.

(** ** The readiness gate *)
Module ReadinessFacts.
Import JS Readiness.

Section Schema.

Variable number : Type.

(** C2. The status of a schema store carries the three counts and
    [can_use_chat], and [can_use_chat] is true exactly when the three
    counts are all at least 1. *)
Theorem can_use_chat_iff (schema : SchemaStore number) :
  erp_columns_count (status number schema) = size (erp_schema number schema)
  /\ crm_columns_count (status number schema)
     = length (crm_columns (metadata number schema))
  /\ notification_emails_count (status number schema)
     = length (notification_emails (metadata number schema))
  /\ (can_use_chat (status number schema) = true <->
      1 <= erp_columns_count (status number schema)
      /\ 1 <= crm_columns_count (status number schema)
      /\ 1 <= notification_emails_count (status number schema)).
Proof.
  unfold status.
  cbn [erp_columns_count crm_columns_count notification_emails_count can_use_chat].
  split; [reflexivity|]. split; [reflexivity|]. split; [reflexivity|].
  rewrite !andb_true_iff, !Nat.leb_le. tauto.
Qed.

(** The status that the schema page shows before the service answers
    agrees with the gate on an empty schema. *)
Lemma emptySchemaStatus_locked :
  can_use_chat emptySchemaStatus = false
  /\ erp_columns_count emptySchemaStatus = 0
  /\ crm_columns_count emptySchemaStatus = 0.
Proof. repeat split. Qed.

End Schema.

(** The two examples of the contract: counts 1, 0, 0 lock the chat, counts
    1, 1, 1 unlock it. *)
Example one_erp_column_only :
  let s := status Fixture.number (Samples.sample_schema [] []) in
  (erp_columns_count s, crm_columns_count s, notification_emails_count s) = (1, 0, 0)
  /\ can_use_chat s = false.
Proof. split; reflexivity. Qed.

Example one_of_each :
  let s := status Fixture.number
             (Samples.sample_schema [("customer_name"%string : text)]
                [("ops@example.com"%string : text)]) in
  (erp_columns_count s, crm_columns_count s, notification_emails_count s) = (1, 1, 1)
  /\ can_use_chat s = true.
Proof. split; reflexivity. Qed.

End ReadinessFacts.

(** ** The rule-mutation protocol *)
Module RuleStoreFacts.
Import JS RuleStore.

Section Protocol.

Variable TransformRules : Type.
Variable Json : Type.
Variable translate :
  text -> TransformRules -> text * list (RulesAIChange Json) * TransformRules.

Abbreviation rules_ai_update := (RuleStore.rules_ai_update TransformRules Json translate).

Abbreviation store_after := (RuleStore.store_after TransformRules Json translate).

Lemma preview_keeps_store (store : TransformRules) (instr : text) :
  (rules_ai_update store (previewRulesAIUpdate instr)).2 = store.
Proof.
  unfold RuleStore.rules_ai_update. simpl.
  destruct (translate instr store) as [[s c] r]. reflexivity.
Qed.

(** C3. The request built by [previewRulesAIUpdate] carries [apply =
    false]; its response is the proposal of the translation (summary,
    changes, materialized rule set) and the stored rule set is the one
    before the call, whatever the instruction and the changes returned;
    the same holds after any number of previews. *)
Theorem proposal_leaves_rules_unchanged (store : TransformRules) (instr : text) :
  apply (previewRulesAIUpdate instr) = false
  /\ getRules TransformRules (rules_ai_update store (previewRulesAIUpdate instr)).2
     = getRules TransformRules store
  /\ (let response := (rules_ai_update store (previewRulesAIUpdate instr)).1 in
      applied TransformRules Json response = false
      /\ (summary TransformRules Json response,
          changes TransformRules Json response,
          updated_rules TransformRules Json response) = translate instr store)
  /\ (forall instrs : list text,
        getRules TransformRules (store_after store (map previewRulesAIUpdate instrs))
        = getRules TransformRules store).
Proof.
  split; [reflexivity|]. split; [apply preview_keeps_store|]. split.
  - unfold RuleStore.rules_ai_update. simpl.
    destruct (translate instr store) as [[s c] r]. split; reflexivity.
  - intros instrs. unfold RuleStore.store_after, getRules.
    induction instrs as [|i instrs IH]; [reflexivity|].
    simpl. rewrite preview_keeps_store. exact IH.
Qed.

(** With [apply = true] the stored rule set becomes [updated_rules]. *)
Lemma apply_replaces_rules (store : TransformRules) (instr : text) :
  getRules TransformRules (rules_ai_update store (applyRulesAIUpdate instr)).2
  = updated_rules TransformRules Json (rules_ai_update store (applyRulesAIUpdate instr)).1.
Proof.
  unfold RuleStore.rules_ai_update. simpl.
  destruct (translate instr store) as [[s c] r]. reflexivity.
Qed.

End Protocol.

End RuleStoreFacts.

(** ** The theorems at concrete inputs *)
Module Instances.
Import JS Fixture Samples.






(** The same for a request that fails before any chunk: the placeholder
    receives the error marker. *)
Example stream_error_marker :
  handleSend (idle [] "hi") (Chat.FetchThrows (ThrownError "Bad Gateway"%string))
  = ({| Chat.messages :=
          [ Chat.user_message "hi"%string;
            Chat.assistant_message "Error: Bad Gateway"%string ];
        Chat.input := [];
        Chat.busy := false;
        Chat.error := Some ("Bad Gateway"%string : text) |},
     [("hi"%string : text)]).
Proof. vm_compute. reflexivity. Qed.

(** C9 at the state reached by typing a prompt and clicking send. *)
Lemma one_request_in_flight_sending :
  length (Chat.running sending) <= 1
  /\ step sending Chat.ClickSend = None
  /\ step sending (Chat.KeyDown "Enter"%string) = Some sending.
Proof.
  assert (Chat.reachable number number_truthy number_to_string JSON_parse
            null_property_message sending) as H.
  { eapply Chat.reachable_step with (a := Chat.ClickSend).
    - eapply Chat.reachable_step with (a := Chat.TypeInput ("hi"%string : text)).
      + apply (Chat.reachable_mounted _ _ _ _ _ []).
      + reflexivity.
    - vm_compute. reflexivity. }
  destruct (ChatFacts.one_request_in_flight number number_truthy number_to_string
              JSON_parse null_property_message sending H) as (Hlen & _ & Hbusy).
  destruct (Hbusy eq_refl) as (_ & Hclick & Hkey & _).
  split; [exact Hlen|]. split; [exact Hclick | exact (Hkey _)].
Defined.

(** C4 as stated fails: two rows with the same key, the second with a
    blank value, are saved; [onSave] receives the first row and no error is
    reported. *)
Lemma duplicate_key_with_blank_value_saved :
  RuleEditor.shares_key [row "ACME" "10%"; row "ACME" ""]
  /\ save "salesTaxRate"%string [row "ACME" "10%"; row "ACME" ""] []
     = {| RuleEditor.saved :=
            [ RuleEditor.Conditional (RuleEditor.VStr [])
                (<[("ACME"%string : text) := RuleEditor.VStr ("10%"%string : text)]> ∅) ];
          RuleEditor.error := None;
          RuleEditor.saving := false |}.
Proof.
  split.
  - exists 0, 1, (row "ACME" "10%"), (row "ACME" "").
    repeat split. discriminate.
  - vm_compute. reflexivity.
Qed.

(** C4 (amended) at two rows with the same key and non-blank values. *)
Lemma duplicate_key_rejected_acme :
  exists dups,
    ("ACME"%string : text) ∈ dups
    /\ save "salesTaxRate"%string [row "ACME" "10%"; row " ACME " "12%"] []
       = {| RuleEditor.saved := [];
            RuleEditor.error := Some ("Duplicate keys: "%string ++ join ", "%string dups);
            RuleEditor.saving := false |}.
Proof.
  refine (RuleEditorFacts.duplicate_key_rejected number Number number_zero number_to_string
            (@no_rejection _) "salesTaxRate"%string
            [row "ACME" "10%"; row " ACME " "12%"] [] 0 1
            (row "ACME" "10%") (row " ACME " "12%") _ _ _ _ _ _);
    try reflexivity.
  discriminate.
Defined.

(** C8 at a [deliveryDays] rule with two retained rows, a blank row and a
    default. *)
Lemma numeric_rule_coerced_delivery :
  exists conditions,
    RuleEditor.saved number
      (save "deliveryDays"%string [row "ACME" "3"; row " Globex " " 5 "; row "" "7"] "2"%string)
    = [ RuleEditor.Conditional (RuleEditor.VNum (Some 2%Z)) conditions ]
    /\ conditions !! ("Globex"%string : text) = Some (RuleEditor.VNum (Some 5%Z))
    /\ forall k v, conditions !! k = Some v -> RuleEditor.is_number number v = true.
Proof.
  set (payload :=
         RuleEditor.Conditional (RuleEditor.VNum (Some 2%Z))
           (<[("Globex"%string : text) := RuleEditor.VNum (Some 5%Z)]>
              (<[("ACME"%string : text) := RuleEditor.VNum (Some 3%Z)]> ∅))).
  assert (payload ∈ RuleEditor.saved number
            (save "deliveryDays"%string
               [row "ACME" "3"; row " Globex " " 5 "; row "" "7"] "2"%string)) as Hin.
  { vm_compute. left. }
  destruct (RuleEditorFacts.numeric_rule_coerced number Number number_zero number_to_string
              (@no_rejection _) "deliveryDays"%string
              [row "ACME" "3"; row " Globex " " 5 "; row "" "7"] "2"%string payload
              eq_refl eq_refl eq_refl Hin) as (conditions & Hsaved & Hpayload & Hentries).
  exists conditions. split; [|split].
  - unfold save. rewrite Hsaved, Hpayload. reflexivity.
  - subst payload. injection Hpayload as <-. vm_compute. reflexivity.
  - intros k v Hk. exact (proj1 (Hentries k v Hk)).
Defined.

(** C10 at a rule with a duplicate key whose second row has a blank value
    and a row without key. *)
Lemma blank_rows_omitted_acme :
  save "salesTaxRate"%string [row "ACME" "10%"; row "ACME" "  "; row "" "12%"] "0%"%string
  = save "salesTaxRate"%string [row "ACME" "10%"] "0%"%string
  /\ RuleEditor.error number
       (save "salesTaxRate"%string
          [row "ACME" "10%"; row "ACME" "  "; row "" "12%"] "0%"%string) = None.
Proof.
  split.
  - exact (proj1 (RuleEditorFacts.blank_rows_omitted number Number number_zero
                    number_to_string (@no_rejection _) "salesTaxRate"%string
                    [row "ACME" "10%"; row "ACME" "  "; row "" "12%"] "0%"%string)).
  - vm_compute. reflexivity.
Defined.

(** A name inherited from [Object.prototype] is reported as a duplicate
    even when a single row carries it. *)
Example inherited_name_reported :
  save "salesTaxRate"%string [row "toString" "10%"] []
  = {| RuleEditor.saved := [];
       RuleEditor.error := Some ("Duplicate keys: toString"%string : text);
       RuleEditor.saving := false |}.
Proof. vm_compute. reflexivity. Qed.

(** C2 at the two examples of the contract. *)
Lemma can_use_chat_iff_examples :
  Readiness.can_use_chat (Readiness.status number (sample_schema [] [])) = false
  /\ Readiness.can_use_chat
       (Readiness.status number
          (sample_schema [("customer_name"%string : text)]
             [("ops@example.com"%string : text)])) = true.
Proof.
  split.
  - destruct (Readiness.can_use_chat
                (Readiness.status number (sample_schema [] []))) eqn:E; [|reflexivity].
    apply (ReadinessFacts.can_use_chat_iff number (sample_schema [] [])) in E.
    destruct E as (_ & Hcrm & _). vm_compute in Hcrm. lia.
  - apply (ReadinessFacts.can_use_chat_iff number
             (sample_schema [("customer_name"%string : text)]
                [("ops@example.com"%string : text)])).
    vm_compute. repeat split; lia.
Defined.

(** C3 at a translation that proposes to replace the whole rule set: the
    proposal leaves the stored rules as they were. *)
Lemma proposal_leaves_rules_unchanged_example :
  RuleStore.getRules nat
    (RuleStore.rules_ai_update nat nat
       (fun instr rules =>
          ("raise every rate"%string : text,
           [ {| RuleStore.path := "salesTaxRate._default"%string;
                RuleStore.before := rules; RuleStore.after := S rules |} ],
           S rules))
       7 (RuleStore.previewRulesAIUpdate "raise every rate"%string)).2
  = 7.
Proof.
  exact (proj1 (proj2
           (RuleStoreFacts.proposal_leaves_rules_unchanged nat nat
              (fun instr rules =>
                 ("raise every rate"%string : text,
                  [ {| RuleStore.path := "salesTaxRate._default"%string;
                       RuleStore.before := rules; RuleStore.after := S rules |} ],
                  S rules))
              7 "raise every rate"%string))).
Defined.

End Instances.

(** ** The rule editor: which saves go through, and what they write *)
Module RuleEditorMore.
Import JS RuleEditor RuleEditorLoad RuleEditorFacts.

Section Save.

Variable number : Type.
Variable Number : text -> number.
Variable number_zero : number.
Variable number_to_string : number -> text.
Variable onSave : Payload number -> option Thrown.

Abbreviation add_row := (RuleEditor.add_row number Number).
Abbreviation build_rows := (RuleEditor.build_rows number Number).
Abbreviation save := (RuleEditor.save number Number number_zero number_to_string onSave).
Abbreviation defined_in := (RuleEditor.defined_in number).
Abbreviation Acc := (RuleEditor.Acc number).
Abbreviation stored := (RuleEditor.stored number Number).
Abbreviation trimmed_key := (fun r : MappingRow => trim (key r)).

Lemma defined_in_inherited (m : gmap text (Val number)) (k : text) :
  k ∈ object_prototype_keys -> defined_in m k = true.
Proof.
  intros H. unfold RuleEditor.defined_in. apply orb_true_iff. right.
  apply bool_decide_eq_true. exact H.
Qed.

Lemma defined_in_false (m : gmap text (Val number)) (k : text) :
  defined_in m k = false <-> m !! k = None /\ k ∉ object_prototype_keys.
Proof.
  unfold RuleEditor.defined_in. rewrite orb_false_iff, !bool_decide_eq_false.
  split; intros [H1 H2]; (split; [|exact H2]).
  - destruct (m !! k); [exfalso; apply H1; eauto | reflexivity].
  - rewrite H1. intros [x Hx]. discriminate.
Qed.

Lemma set_add_not_nil (k : text) (s : list text) : set_add k s <> [].
Proof.
  unfold set_add. destruct (bool_decide (k ∈ s)) eqn:E.
  - apply bool_decide_eq_true in E. intros ->. inversion E.
  - destruct s; discriminate.
Qed.

Lemma proto_inherited : ("__proto__"%string : text) ∈ object_prototype_keys.
Proof. unfold object_prototype_keys. do 10 right. left. Qed.

(** Rows with distinct keys that are not yet defined add no duplicate. *)
Lemma fold_add_row_fresh b (rows : list MappingRow) (acc : Acc) :
  (forall row, row ∈ rows -> retained row = true ->
               defined_in (builtRows number acc) (trim (key row)) = false) ->
  NoDup (map trimmed_key (List.filter retained rows)) ->
  duplicateKeys number (fold_left (add_row b) rows acc) = duplicateKeys number acc.
Proof.
  revert acc. induction rows as [|r rows IH]; intros acc Hfresh Hnodup; [reflexivity|].
  simpl. simpl in Hnodup. destruct (retained r) eqn:E.
  - simpl in Hnodup. apply NoDup_cons in Hnodup as [Hnotin Hnodup].
    pose proof (Hfresh r (list_elem_of_here _ _) E) as Hr.
    rewrite IH.
    + rewrite add_row_retained by exact E. simpl. rewrite Hr. reflexivity.
    + intros row Hin Hret.
      rewrite add_row_retained by exact E. simpl.
      pose proof (Hfresh row (list_elem_of_further _ _ _ Hin) Hret) as Hrow.
      apply defined_in_false in Hrow as [Hnone Hproto].
      apply defined_in_false in Hr as [_ Hrproto].
      apply defined_in_false. split; [|exact Hproto].
      unfold assign, text_eqb. rewrite bool_decide_eq_false_2.
      * rewrite lookup_insert_ne; [exact Hnone|].
        intros Heq. apply Hnotin. rewrite Heq.
        apply (list_elem_of_fmap_2 trimmed_key).
        apply list_elem_of_In, List.filter_In. split; [apply list_elem_of_In, Hin | exact Hret].
      * intros Heq. apply Hrproto. rewrite Heq. apply proto_inherited.
    + exact Hnodup.
  - rewrite add_row_skipped by exact E. apply IH; [|exact Hnodup].
    intros row Hin Hret. apply Hfresh; [right; exact Hin | exact Hret].
Qed.

Lemma duplicateKeys_fold_nil b (rows : list MappingRow) (acc : Acc) :
  duplicateKeys number (fold_left (add_row b) rows acc) = [] ->
  duplicateKeys number acc = [].
Proof.
  intros H. destruct (duplicateKeys number acc) as [|k ks] eqn:E; [reflexivity|].
  pose proof (duplicateKeys_fold number Number number_zero number_to_string
                b rows acc k) as Hin.
  rewrite E, H in Hin. specialize (Hin (list_elem_of_here _ _)). inversion Hin.
Qed.

(** When no duplicate is reported, the retained rows have pairwise distinct
    trimmed keys, none of them inherited. *)
Lemma no_duplicate_distinct b (rows : list MappingRow) :
  duplicateKeys number (build_rows b rows) = [] ->
  NoDup (map trimmed_key (List.filter retained rows))
  /\ Forall (fun r => trim (key r) ∉ object_prototype_keys) (List.filter retained rows).
Proof.
  unfold RuleEditor.build_rows. rewrite fold_add_row_filter.
  set (kept := List.filter retained rows).
  assert (forall r, r ∈ kept -> retained r = true) as Hkept.
  { intros r Hr. apply list_elem_of_In, List.filter_In in Hr as [_ Hr]. exact Hr. }
  clearbody kept. intros Hnil. split.
  - apply NoDup_alt. intros i j k Hi Hj.
    rewrite list_lookup_fmap in Hi, Hj.
    destruct (kept !! i) as [r1|] eqn:E1; [|discriminate].
    destruct (kept !! j) as [r2|] eqn:E2; [|discriminate].
    simpl in Hi, Hj. injection Hi as Hi. injection Hj as Hj.
    destruct (decide (i = j)) as [|Hne]; [assumption|]. exfalso.
    assert (trim (key r1) ∈ duplicateKeys number
              (fold_left (add_row b) kept
                 {| builtRows := ∅; duplicateKeys := [] |})) as Hin.
    { destruct (Nat.lt_total i j) as [Hlt|[Heq|Hgt]]; [|contradiction|].
      - eapply (duplicate_rows_reported number Number number_zero number_to_string); eauto using list_elem_of_lookup_2. congruence.
      - replace (trim (key r1)) with (trim (key r2)) by congruence.
        eapply (duplicate_rows_reported number Number number_zero number_to_string); eauto using list_elem_of_lookup_2. congruence. }
    rewrite Hnil in Hin. inversion Hin.
  - apply Forall_forall. intros r Hr Hproto.
    assert (trim (key r) ∈ duplicateKeys number
              (fold_left (add_row b) kept
                 {| builtRows := ∅; duplicateKeys := [] |})) as Hin.
    { apply (duplicate_reported number Number number_zero number_to_string);
      [apply defined_in_inherited, Hproto | exact Hr | auto]. }
    rewrite Hnil in Hin. inversion Hin.
Qed.

Lemma distinct_no_duplicate b (rows : list MappingRow) :
  NoDup (map trimmed_key (List.filter retained rows)) ->
  Forall (fun r => trim (key r) ∉ object_prototype_keys) (List.filter retained rows) ->
  duplicateKeys number (build_rows b rows) = [].
Proof.
  intros Hnodup Hproto. unfold RuleEditor.build_rows.
  rewrite fold_add_row_fresh; [reflexivity| |exact Hnodup].
  intros row Hin Hret. apply defined_in_false. split; [apply lookup_empty|].
  rewrite Forall_forall in Hproto. apply Hproto.
  apply list_elem_of_In, List.filter_In. split; [apply list_elem_of_In, Hin | exact Hret].
Qed.

(** X1. [save] calls [onSave] exactly when the retained rows have pairwise
    distinct trimmed keys and none of these keys is a name inherited from
    [Object.prototype]; it then calls it once. Otherwise it reports
    duplicates and calls nothing. *)
Theorem save_accepts_iff (ruleType : text) (rows : list MappingRow) (defaultValue : text) :
  (length (saved number (save ruleType rows defaultValue)) = 1 <->
   NoDup (map trimmed_key (List.filter retained rows))
   /\ Forall (fun r => trim (key r) ∉ object_prototype_keys) (List.filter retained rows))
  /\ (length (saved number (save ruleType rows defaultValue)) = 1
      \/ saved number (save ruleType rows defaultValue) = []).
Proof.
  unfold RuleEditor.save.
  set (b := text_eqb ruleType "deliveryDays"%string).
  pose proof (no_duplicate_distinct b rows) as Hfwd.
  pose proof (distinct_no_duplicate b rows) as Hbwd.
  destruct (duplicateKeys number (build_rows b rows)) as [|k ks]; cbn [saved length].
  - split; [|left; reflexivity]. split; [intros _; apply Hfwd; reflexivity | reflexivity].
  - split; [|right; reflexivity]. split; [discriminate|].
    intros [H1 H2]. specialize (Hbwd H1 H2). discriminate.
Qed.

(** A key that is defined and whose later rows add no duplicate keeps its
    value. *)
Lemma fold_add_row_keeps b (rows : list MappingRow) (acc : Acc) (k : text) (v : Val number) :
  builtRows number acc !! k = Some v ->
  duplicateKeys number (fold_left (add_row b) rows acc) = [] ->
  builtRows number (fold_left (add_row b) rows acc) !! k = Some v.
Proof.
  revert acc. induction rows as [|r rows IH]; intros acc Hk Hnil; [exact Hk|].
  simpl in *. apply IH; [|exact Hnil].
  destruct (retained r) eqn:E; [|rewrite add_row_skipped by exact E; exact Hk].
  pose proof (duplicateKeys_fold_nil _ _ _ Hnil) as Hacc.
  rewrite add_row_retained in Hacc |- * by exact E. simpl in *.
  destruct (defined_in (builtRows number acc) (trim (key r))) eqn:Hdef.
  { exfalso. eapply set_add_not_nil, Hacc. }
  apply defined_in_false in Hdef as [Hnone Hproto].
  unfold assign, text_eqb. rewrite bool_decide_eq_false_2.
  - rewrite lookup_insert_ne; [exact Hk|]. intros Heq. rewrite Heq, Hk in Hnone. discriminate.
  - intros Heq. apply Hproto. rewrite Heq. apply proto_inherited.
Qed.

Lemma fold_add_row_complete b (rows : list MappingRow) (acc : Acc) (row : MappingRow) :
  duplicateKeys number (fold_left (add_row b) rows acc) = [] ->
  row ∈ rows -> retained row = true ->
  builtRows number (fold_left (add_row b) rows acc) !! trim (key row) = Some (stored b row).
Proof.
  revert acc. induction rows as [|r rows IH]; intros acc Hnil Hin Hret; [inversion Hin|].
  simpl in *. apply elem_of_cons in Hin as [<-|Hin]; [|apply IH; assumption].
  apply fold_add_row_keeps; [|exact Hnil].
  pose proof (duplicateKeys_fold_nil _ _ _ Hnil) as Hacc.
  rewrite add_row_retained in Hacc |- * by exact Hret. simpl in *.
  destruct (defined_in (builtRows number acc) (trim (key row))) eqn:Hdef.
  { exfalso. eapply set_add_not_nil, Hacc. }
  apply defined_in_false in Hdef as [_ Hproto].
  unfold assign, text_eqb. rewrite bool_decide_eq_false_2.
  - apply lookup_insert_eq.
  - intros Heq. apply Hproto. rewrite Heq. apply proto_inherited.
Qed.

(** X2. Whenever [save] passes a payload to [onSave], every retained row is
    in it: its trimmed key carries the value written for that row (the
    trimmed text, its number for [deliveryDays], the typed value for a
    config rule). *)
Theorem retained_rows_saved (ruleType : text) (rows : list MappingRow) (defaultValue : text)
    (payload : Payload number) (row : MappingRow) :
  payload ∈ saved number (save ruleType rows defaultValue) ->
  row ∈ rows ->
  retained row = true ->
  entries number payload !! trim (key row)
  = Some (written number Number number_to_string ruleType row).
Proof.
  intros Hin Hrow Hret. unfold RuleEditor.save in Hin. unfold written.
  set (b := text_eqb ruleType "deliveryDays"%string) in *.
  set (m := text_eqb ruleType "customerNameMapping"%string) in *.
  set (c := text_eqb ruleType "customerReference"%string
            || text_eqb ruleType "paymentReference"%string) in *.
  assert (m = true -> b = false) as Hmb.
  { subst b m. unfold text_eqb. intros Em. apply bool_decide_eq_true in Em.
    subst ruleType. reflexivity. }
  assert (c = true -> b = false) as Hcb.
  { subst b c. unfold text_eqb. intros Ec.
    apply orb_true_iff in Ec as [Ec|Ec]; apply bool_decide_eq_true in Ec;
      subst ruleType; reflexivity. }
  clearbody b m c.
  destruct (duplicateKeys number (build_rows b rows)) eqn:Hnil; cbn [saved] in Hin;
    [|inversion Hin].
  apply list_elem_of_singleton in Hin. subst payload.
  pose proof (fold_add_row_complete b rows _ row Hnil Hrow Hret) as Hlook.
  fold (build_rows b rows) in Hlook.
  destruct m; [|destruct c]; cbn [entries].
  - pose proof (Hmb eq_refl) as ->. exact Hlook.
  - pose proof (Hcb eq_refl) as ->. unfold config_payload.
    rewrite map_lookup_imap, Hlook. reflexivity.
  - exact Hlook.
Qed.

(** Without duplicates, the built record is the map of the retained rows. *)
Lemma build_rows_map b (rows : list MappingRow) :
  duplicateKeys number (build_rows b rows) = [] ->
  builtRows number (build_rows b rows)
  = list_to_map (map (fun r => (trim (key r), stored b r)) (List.filter retained rows)).
Proof.
  intros Hnil. destruct (no_duplicate_distinct b rows Hnil) as [Hnodup _].
  apply map_eq. intros k.
  destruct (list_to_map
              (map (fun r => (trim (key r), stored b r)) (List.filter retained rows)) !! k)
    as [v|] eqn:E.
  - apply elem_of_list_to_map in E.
    + apply list_elem_of_fmap in E as (r & [= -> ->] & Hr).
      apply list_elem_of_In, List.filter_In in Hr as [Hr Hret].
      apply fold_add_row_complete; [exact Hnil | apply list_elem_of_In, Hr | exact Hret].
    + rewrite <- list_fmap_compose. exact Hnodup.
  - destruct (builtRows number (build_rows b rows) !! k) as [v|] eqn:E'; [|reflexivity].
    exfalso. apply not_elem_of_list_to_map in E. apply E.
    apply build_rows_lookup in E' as (row & Hrow & Hret & <- & _).
    rewrite <- list_fmap_compose. apply (list_elem_of_fmap_2 trimmed_key).
    apply list_elem_of_In, List.filter_In. split; [apply list_elem_of_In, Hrow | exact Hret].
Qed.

Abbreviation ToString := (JS.ToString number number_to_string).
Abbreviation entry_value := (RuleEditorLoad.entry_value number number_to_string).
Abbreviation plain_entry := (RuleEditorLoad.plain_entry number).

Abbreviation entry_row := (RuleEditorLoad.entry_row number number_to_string).

Lemma plain_entries_rows (entries : list (text * JSValue number)) :
  NoDup (map fst entries) ->
  Forall plain_entry entries ->
  let rows := map entry_row entries in
  duplicateKeys number (build_rows false rows) = []
  /\ builtRows number (build_rows false rows) = list_to_map (map entry_value entries).
Proof.
  intros Hnodup Hplain rows.
  assert (List.filter retained rows = rows) as Hfilter.
  { subst rows. induction Hplain as [|e entries (s & Hv & Hs & Hne & Hk & Hkne & _) _ IH];
      [reflexivity|].
    apply NoDup_cons in Hnodup as [_ Hnodup]. simpl.
    assert (retained (entry_row e) = true) as ->.
    { unfold retained, RuleEditorLoad.entry_row. simpl. rewrite Hv. simpl. rewrite Hk, Hs.
      destruct e.1; [contradiction|]. destruct s; [contradiction|]. reflexivity. }
    rewrite (IH Hnodup). reflexivity. }
  assert (map (fun r => (trim (key r), stored false r)) rows = map entry_value entries) as Hmap.
  { subst rows. rewrite <- list_fmap_compose. apply Forall_fmap_ext_1.
    eapply Forall_impl; [exact Hplain|].
    intros e (s & Hv & Hs & _ & Hk & _). unfold RuleEditorLoad.entry_row, RuleEditor.stored,
      RuleEditorLoad.entry_value. simpl. rewrite Hk, Hv. simpl. rewrite Hs. reflexivity. }
  assert (duplicateKeys number (build_rows false rows) = []) as Hnil.
  { apply distinct_no_duplicate; rewrite Hfilter.
    - replace (map trimmed_key rows) with (map fst entries); [exact Hnodup|].
      subst rows. rewrite <- list_fmap_compose. apply Forall_fmap_ext_1.
      eapply Forall_impl; [exact Hplain|].
      intros e (s & _ & _ & _ & Hk & _). simpl. symmetry. exact Hk.
    - subst rows. apply Forall_fmap. eapply Forall_impl; [exact Hplain|].
      intros e (s & _ & _ & _ & Hk & _ & Hproto). simpl. rewrite Hk. exact Hproto. }
  split; [exact Hnil|]. rewrite (build_rows_map false rows Hnil), Hfilter, Hmap. reflexivity.
Qed.

(** X3. Loading a mapping rule into the editor and saving it unchanged
    passes the same mapping to [onSave], once, provided its entries are
    strings, keys and values carry no surrounding white space and are not
    empty, and no key is a name of [Object.prototype]. *)
Theorem mapping_round_trip (entries : list (text * JSValue number)) (defaultValue : text) :
  NoDup (map fst entries) ->
  Forall plain_entry entries ->
  save "customerNameMapping"%string
    (asMappingRows number number_to_string (Entries entries)) defaultValue
  = {| saved := [Plain (list_to_map (map entry_value entries))];
       error := save_error_message <$> onSave (Plain (list_to_map (map entry_value entries)));
       saving := false |}.
Proof.
  intros Hnodup Hplain.
  destruct (plain_entries_rows entries Hnodup Hplain) as [Hnil Hbuilt].
  unfold RuleEditor.save, asMappingRows.
  change (text_eqb "customerNameMapping"%string "deliveryDays"%string) with false.
  change (text_eqb "customerNameMapping"%string "customerNameMapping"%string) with true.
  cbv zeta. rewrite Hnil, Hbuilt. reflexivity.
Qed.

(** X4. Loading a string-typed conditional rule and saving it unchanged
    passes the same default and the same conditions to [onSave], under the
    same provisos on the conditions; the default is written back as it
    is. *)
Theorem conditional_round_trip (ruleType : text) (default : text)
    (entries : list (text * JSValue number)) :
  text_eqb ruleType "customerNameMapping"%string = false ->
  text_eqb ruleType "customerReference"%string = false ->
  text_eqb ruleType "paymentReference"%string = false ->
  text_eqb ruleType "deliveryDays"%string = false ->
  NoDup (map fst entries) ->
  Forall plain_entry entries ->
  let loaded := asConditional number number_to_string
                  (Typed (Value (JStr default)) (Some entries)) in
  loaded.1 = default
  /\ save ruleType loaded.2 loaded.1
     = {| saved := [Conditional (VStr default) (list_to_map (map entry_value entries))];
          error := save_error_message <$>
                     onSave (Conditional (VStr default)
                               (list_to_map (map entry_value entries)));
          saving := false |}.
Proof.
  intros Em Er Ep Ed Hnodup Hplain loaded. split; [reflexivity|].
  destruct (plain_entries_rows entries Hnodup Hplain) as [Hnil Hbuilt].
  subst loaded. unfold RuleEditor.save, asConditional. cbn [fst snd].
  rewrite Em, Er, Ep, Ed.
  cbv zeta. rewrite Hnil, Hbuilt. reflexivity.
Qed.

End Save.

(** *** Removing rows *)

Lemma filter_other_past (index idx : nat) (rows : list MappingRow) :
  index < idx -> filter_other index idx rows = rows.
Proof.
  revert idx. induction rows as [|r rows IH]; intros idx Hlt; [reflexivity|].
  simpl. destruct (Nat.eqb_spec idx index); [lia|]. rewrite IH by lia. reflexivity.
Qed.

Lemma filter_other_splice (index idx : nat) (rows : list MappingRow) :
  idx <= index ->
  filter_other index idx rows = take (index - idx) rows ++ drop (S (index - idx)) rows.
Proof.
  revert idx. induction rows as [|r rows IH]; intros idx Hle.
  - rewrite take_nil, drop_nil. reflexivity.
  - simpl. destruct (Nat.eqb_spec idx index) as [->|Hne].
    + rewrite Nat.sub_diag. simpl. rewrite drop_0. apply filter_other_past. lia.
    + rewrite IH by lia. replace (index - idx) with (S (index - S idx)) by lia.
      reflexivity.
Qed.

(** X5. [removeRow] removes the row at the given position and nothing
    else: the rows before and after it stay in order, a position past the
    end changes nothing, and removing the row that [addRow] has just added
    gives the rows back. *)
Theorem removeRow_splice (index : nat) (rows : list MappingRow) :
  removeRow index rows = take index rows ++ drop (S index) rows
  /\ (length rows <= index -> removeRow index rows = rows)
  /\ removeRow (length rows) (addRow rows) = rows.
Proof.
  assert (forall i l, removeRow i l = take i l ++ drop (S i) l) as H.
  { intros i l. unfold removeRow. rewrite filter_other_splice by lia.
    rewrite Nat.sub_0_r. reflexivity. }
  split; [apply H|]. split.
  - intros Hle. rewrite H, take_ge, drop_ge by lia. apply app_nil_r.
  - rewrite H. unfold addRow. rewrite take_app_length.
    rewrite drop_ge by (rewrite length_app; simpl; lia). apply app_nil_r.
Qed.

End RuleEditorMore.

(** ** The chat page: stored history, failed requests, append-only steps *)
Module ChatMoreFacts.
Import JS Chat ChatMore ChatFacts.

(** *** Truncation *)

Lemma slice_last_length {A : Type} (n : nat) (l : list A) :
  length (slice_last n l) <= n.
Proof. unfold slice_last. rewrite length_drop. lia. Qed.

Lemma slice_last_short {A : Type} (n : nat) (l : list A) :
  length l <= n -> slice_last n l = l.
Proof.
  intros H. unfold slice_last. replace (length l - n) with 0 by lia. apply drop_0.
Qed.

Lemma slice_last_idempotent {A : Type} (n : nat) (l : list A) :
  slice_last n (slice_last n l) = slice_last n l.
Proof. apply slice_last_short, slice_last_length. Qed.

Lemma paired_drop_two (msgs : list ChatMessage) (k : nat) :
  paired msgs = true -> paired (drop (2 * k) msgs) = true.
Proof.
  revert msgs. induction k as [|k IH]; intros msgs H; [rewrite drop_0; exact H|].
  replace (2 * S k) with (S (S (2 * k))) by lia.
  destruct msgs as [|u [|a rest]]; try discriminate; [reflexivity|].
  simpl in H. destruct (role u), (role a); try discriminate.
  simpl. apply IH, H.
Qed.

Lemma paired_even (msgs : list ChatMessage) :
  paired msgs = true -> exists k, length msgs = 2 * k.
Proof.
  assert (forall n (l : list ChatMessage), length l <= n ->
            paired l = true -> exists k, length l = 2 * k) as H.
  { induction n as [|n IH]; intros l Hlen Hp.
    - destruct l; [exists 0; reflexivity | simpl in Hlen; lia].
    - destruct l as [|u [|a rest]]; [exists 0; reflexivity | discriminate |].
      simpl in Hp. destruct (role u), (role a); try discriminate.
      destruct (IH rest) as [k Hk]; [simpl in Hlen; lia | exact Hp |].
      exists (S k). simpl. lia. }
  apply (H (length msgs)). lia.
Qed.

(** Truncating a paired history to its last 200 messages
    keeps it paired: the cut never separates a prompt from its answer. *)
Lemma paired_slice_last (msgs : list ChatMessage) :
  paired msgs = true -> paired (slice_last 200 msgs) = true.
Proof.
  intros H. unfold slice_last. destruct (paired_even msgs H) as [k Hk].
  replace (length msgs - 200) with (2 * (k - 100)) by lia.
  apply paired_drop_two, H.
Qed.

Lemma paired_app_pair (msgs : list ChatMessage) (prompt reply : text) :
  paired msgs = true ->
  paired (msgs ++ [user_message prompt; assistant_message reply]) = true.
Proof.
  assert (forall n (l : list ChatMessage), length l <= n -> paired l = true ->
            paired (l ++ [user_message prompt; assistant_message reply]) = true) as H.
  { induction n as [|n IH]; intros l Hlen Hp.
    - destruct l; [reflexivity | simpl in Hlen; lia].
    - destruct l as [|u [|a rest]]; [reflexivity | discriminate |].
      simpl in Hp |- *. destruct (role u), (role a); try discriminate.
      apply IH; [simpl in Hlen; lia | exact Hp]. }
  apply (H (length msgs)). lia.
Qed.

(** *** What later message lists keep *)

Lemma extends_refl (msgs : list ChatMessage) : extends msgs msgs.
Proof. intros j m H. exists m. repeat split; [exact H | reflexivity]. Qed.

Lemma extends_trans (a b c : list ChatMessage) : extends a b -> extends b c -> extends a c.
Proof.
  intros Hab Hbc j m H.
  destruct (Hab j m H) as (m1 & H1 & Hr1 & Hp1).
  destruct (Hbc j m1 H1) as (m2 & H2 & Hr2 & Hp2).
  exists m2. split; [exact H2|]. split; [congruence | etrans; eassumption].
Qed.

Lemma extends_insert (msgs : list ChatMessage) (i : nat) (m m' : ChatMessage) :
  msgs !! i = Some m -> role m' = role m -> content m `prefix_of` content m' ->
  extends msgs (<[i := m']> msgs).
Proof.
  intros Hi Hr Hp j mj Hj. destruct (decide (i = j)) as [->|Hne].
  - rewrite Hi in Hj. injection Hj as <-. exists m'.
    rewrite list_lookup_insert_eq by (eapply lookup_lt_Some, Hi). auto.
  - exists mj. rewrite list_lookup_insert_ne by exact Hne.
    repeat split; [exact Hj | reflexivity].
Qed.

Lemma extends_append_chunk idx (chunk : text) (msgs : list ChatMessage) :
  extends msgs (append_chunk idx chunk msgs).
Proof.
  unfold append_chunk. destruct (idx <? 0)%Z; [apply extends_refl|].
  destruct (msgs !! Z.to_nat idx) as [m|] eqn:E; [|apply extends_refl].
  eapply extends_insert; [exact E | reflexivity | apply prefix_app_r; reflexivity].
Qed.

Lemma extends_mark_error idx (message : text) (msgs : list ChatMessage) :
  extends msgs (mark_error idx message msgs).
Proof.
  unfold mark_error. destruct (idx <? 0)%Z; [apply extends_refl|].
  destruct (msgs !! Z.to_nat idx) as [m|] eqn:E; [|apply extends_refl].
  destruct (is_empty (content m)) eqn:Hc; [|apply extends_refl].
  eapply extends_insert; [exact E | reflexivity |].
  destruct (content m); [apply prefix_nil | discriminate].
Qed.

Lemma length_append_chunk idx (chunk : text) (msgs : list ChatMessage) :
  length (append_chunk idx chunk msgs) = length msgs.
Proof.
  unfold append_chunk. destruct (idx <? 0)%Z; [reflexivity|].
  destruct (msgs !! Z.to_nat idx); [apply length_insert | reflexivity].
Qed.

Lemma length_mark_error idx (message : text) (msgs : list ChatMessage) :
  length (mark_error idx message msgs) = length msgs.
Proof.
  unfold mark_error. destruct (idx <? 0)%Z; [reflexivity|].
  destruct (msgs !! Z.to_nat idx) as [m|]; [|reflexivity].
  destruct (is_empty (content m)); [apply length_insert | reflexivity].
Qed.

Lemma extends_paired (msgs msgs' : list ChatMessage) :
  extends msgs msgs' -> length msgs' = length msgs ->
  paired msgs = true -> paired msgs' = true.
Proof.
  assert (forall n (l l' : list ChatMessage), length l <= n ->
            extends l l' -> length l' = length l -> paired l = true -> paired l' = true) as H.
  { induction n as [|n IH]; intros l l' Hlen Hext Heq Hp.
    - destruct l; [|simpl in Hlen; lia]. destruct l'; [reflexivity | discriminate].
    - destruct l as [|u [|a rest]]; [destruct l'; [reflexivity | discriminate] | discriminate |].
      destruct l' as [|u' [|a' rest']]; try discriminate.
      destruct (Hext 0 u eq_refl) as (m0 & [= <-] & Hr0 & _).
      destruct (Hext 1 a eq_refl) as (m1 & [= <-] & Hr1 & _).
      simpl in Hp |- *. rewrite Hr0, Hr1.
      destruct (role u), (role a); try discriminate.
      apply (IH rest rest'); [simpl in Hlen; lia | | simpl in Heq; lia | exact Hp].
      intros j m Hj. apply (Hext (S (S j)) m Hj). }
  intros Hext Heq. apply (H (length msgs)); [lia | exact Hext | exact Heq].
Qed.

Section Consumer.

Variable number : Type.
Variable number_truthy : number -> bool.
Variable number_to_string : number -> text.
Variable JSON_parse : text -> option (JSValue number).
Variable null_property_message : text.
Variable JSON_stringify : JSValue number -> text.

Abbreviation process_events :=
  (Chat.process_events number number_truthy number_to_string JSON_parse null_property_message).
Abbreviation on_read :=
  (Chat.on_read number number_truthy number_to_string JSON_parse null_property_message).
Abbreviation handleSend :=
  (Chat.handleSend number number_truthy number_to_string JSON_parse null_property_message).
Abbreviation step :=
  (Chat.step number number_truthy number_to_string JSON_parse null_property_message).
Abbreviation run :=
  (Chat.run number number_truthy number_to_string JSON_parse null_property_message).
Abbreviation restore := (ChatMore.restore number number_truthy JSON_parse).
Abbreviation valid_item := (ChatMore.valid_item number number_truthy).
Abbreviation stored_text := (ChatMore.stored_text number JSON_stringify).
Abbreviation error_detail := (ChatMore.error_detail number number_truthy number_to_string).
Abbreviation request := (ChatMore.request number number_truthy number_to_string).
Abbreviation streamTransformerChat :=
  (ChatMore.streamTransformerChat number number_truthy number_to_string).

Lemma on_read_messages idx (buf value : text) (msgs : list ChatMessage) :
  exists chunks,
    loop_messages (on_read idx buf value msgs) = append_chunk idx chunks msgs.
Proof.
  unfold Chat.on_read. destruct (pop (split_blank (buf ++ value))) as [events rest].
  pose proof (process_events_messages number number_truthy number_to_string JSON_parse
                null_property_message idx events msgs) as H.
  eexists. rewrite <- H. destruct (process_events idx events msgs); reflexivity.
Qed.

(** The messages after a step of a running exchange or of the input. *)
Lemma step_extends (ui ui' : UI) (a : Action) :
  step ui a = Some ui' -> a <> ClearHistory ->
  extends (messages (page ui)) (messages (page ui'))
  /\ (length (messages (page ui')) = length (messages (page ui))
      \/ exists prompt,
           messages (page ui')
           = messages (page ui) ++ [user_message prompt; assistant_message []]).
Proof.
  assert (forall u : UI,
            extends (messages (page u)) (messages (page (start_send u)))
            /\ (length (messages (page (start_send u))) = length (messages (page u))
                \/ exists prompt,
                     messages (page (start_send u))
                     = messages (page u) ++ [user_message prompt; assistant_message []]))
    as Hstart.
  { intros u. unfold start_send, begin_send.
    destruct (is_empty (trim (input (page u)))).
    - split; [apply extends_refl | left; reflexivity].
    - simpl. split; [|right; eauto].
      intros j m Hj. exists m. split; [apply lookup_app_l_Some, Hj|].
      split; reflexivity. }
  intros Hstep Hclear.
  destruct a as [value| |key| |k value|k ending]; simpl in Hstep.
  - destruct (busy (page ui)); [discriminate|]. injection Hstep as <-.
    split; [apply extends_refl | left; reflexivity].
  - destruct (canSend (page ui)); [|discriminate]. injection Hstep as <-. apply Hstart.
  - injection Hstep as <-. unfold handleInputKeyDown.
    destruct (negb (text_eqb key "Enter"%string));
      [split; [apply extends_refl | left; reflexivity]|].
    destruct (negb (canSend (page ui)));
      [split; [apply extends_refl | left; reflexivity] | apply Hstart].
  - contradiction.
  - destruct (running ui !! k) as [ex|]; [|discriminate].
    destruct (on_read_messages (assistantIndex ex) (buffer ex) value (messages (page ui)))
      as [chunks Hmsgs].
    destruct (on_read _ _ _ _) as [buf' msgs'|msgs' t]; injection Hstep as <-;
      simpl in Hmsgs |- *; subst msgs'.
    + split; [apply extends_append_chunk | left; apply length_append_chunk].
    + split.
      * eapply extends_trans; [apply extends_append_chunk | apply extends_mark_error].
      * left. rewrite length_mark_error. apply length_append_chunk.
  - destruct (running ui !! k) as [ex|]; [|discriminate]. injection Hstep as <-.
    destruct ending; simpl.
    + split; [apply extends_refl | left; reflexivity].
    + split; [apply extends_mark_error | left; apply length_mark_error].
Qed.

(** X8. The history is append-only: except for Clear Chat History, no
    event of the page removes a message, changes its role, or alters text
    that is already shown; a message can only grow at its end. *)
Theorem history_append_only (ui ui' : UI) (a : Action) (j : nat) (m : ChatMessage) :
  step ui a = Some ui' ->
  a <> ClearHistory ->
  messages (page ui) !! j = Some m ->
  exists m',
    messages (page ui') !! j = Some m'
    /\ role m' = role m
    /\ content m `prefix_of` content m'.
Proof.
  intros Hstep Hclear Hj. destruct (step_extends ui ui' a Hstep Hclear) as [Hext _].
  exact (Hext j m Hj).
Qed.

Lemma step_paired (ui ui' : UI) (a : Action) :
  step ui a = Some ui' ->
  paired (messages (page ui)) = true -> paired (messages (page ui')) = true.
Proof.
  intros Hstep Hp.
  assert (a = ClearHistory \/ a <> ClearHistory) as [->|Hne]
    by (destruct a; auto; right; discriminate).
  - simpl in Hstep. injection Hstep as <-. reflexivity.
  - destruct (step_extends ui ui' a Hstep Hne) as [Hext [Hlen|[prompt Happ]]].
    + eapply extends_paired; eassumption.
    + rewrite Happ. apply paired_app_pair, Hp.
Qed.

(** X9. From a history in which every user message is followed by an
    assistant message, every run of the page keeps the history of that
    form, and so does the truncation to the last 200 messages that is
    stored: the cut never separates a prompt from its answer. *)
Theorem history_stays_paired (history : list ChatMessage) (actions : list Action) (ui : UI) :
  paired history = true ->
  run (mounted history) actions = Some ui ->
  paired (messages (page ui)) = true
  /\ paired (slice_last 200 (messages (page ui))) = true.
Proof.
  intros Hp Hrun.
  assert (paired (messages (page ui)) = true) as H.
  { change history with (messages (page (mounted history))) in Hp.
    revert Hp Hrun. generalize (mounted history). intros u. revert u.
    induction actions as [|a actions IH]; intros u Hp Hrun.
    - injection Hrun as <-. exact Hp.
    - simpl in Hrun. destruct (step u a) as [u'|] eqn:E; [|discriminate].
      eapply IH; [eapply step_paired; eassumption | exact Hrun]. }
  split; [exact H | apply paired_slice_last, H].
Qed.

(** *** Stored history *)

Lemma valid_item_encode (m : ChatMessage) :
  valid_item (ChatMore.encode number m) = Some m.
Proof. destruct m as [[] c]; reflexivity. Qed.

Lemma omap_valid_encode (msgs : list ChatMessage) :
  omap valid_item (map (ChatMore.encode number) msgs) = msgs.
Proof.
  induction msgs as [|m msgs IH]; [reflexivity|].
  simpl. rewrite valid_item_encode. simpl. f_equal. exact IH.
Qed.

(** X6. When what the page stored parses back to the value that was
    serialized, mounting restores the last 200 messages of the history (the
    whole history when it has at most 200), in order; and whatever is
    stored, a restored history has at most 200 messages. *)
Theorem history_round_trip (msgs : list ChatMessage) :
  stored_text msgs <> [] ->
  JSON_parse (stored_text msgs) = Some (ChatMore.persisted number msgs) ->
  restore (Some (stored_text msgs)) = Some (slice_last 200 msgs)
  /\ (length msgs <= 200 -> restore (Some (stored_text msgs)) = Some msgs)
  /\ (forall raw restored, restore raw = Some restored -> length restored <= 200).
Proof.
  intros Hne Hparse.
  assert (restore (Some (stored_text msgs)) = Some (slice_last 200 msgs)) as H.
  { unfold ChatMore.restore. rewrite Hparse.
    destruct (stored_text msgs); [contradiction|]. simpl.
    unfold ChatMore.persisted.
    rewrite omap_valid_encode, slice_last_idempotent. reflexivity. }
  split; [exact H|]. split.
  - intros Hlen. rewrite H, slice_last_short by exact Hlen. reflexivity.
  - intros raw restored. unfold ChatMore.restore.
    destruct raw as [r|]; [|discriminate].
    destruct (is_empty r); [discriminate|].
    destruct (JSON_parse r) as [[| | | |items|]|]; try discriminate.
    intros [= <-]. apply slice_last_length.
Qed.

(** *** Failed requests *)

(** X7. When the chat request is answered with a status that is not ok,
    the page shows the detail that the service sent (the status text when
    it sent none), writes it into the assistant placeholder after "Error: ",
    and is idle again; [request] raises the same error for the same
    response. *)
Theorem http_error_surfaces (st : PageState) (r : ChatMore.Response number) :
  is_empty (trim (input st)) = false ->
  ChatMore.ok number r = false ->
  handleSend st (streamTransformerChat (ChatMore.Answered number r))
  = ({| messages :=
          messages st ++
            [user_message (trim (input st));
             assistant_message ("Error: "%string ++ error_detail r)];
        input := [];
        busy := false;
        error := Some (error_detail r) |},
     [trim (input st)])
  /\ request (ChatMore.Answered number r) = inl (ThrownError (error_detail r)).
Proof.
  intros Hprompt Hok. unfold ChatMore.streamTransformerChat, ChatMore.request.
  rewrite Hok. split; [|reflexivity].
  rewrite (handleSend_result number number_truthy number_to_string JSON_parse
             null_property_message st _ Hprompt).
  reflexivity.
Qed.

End Consumer.

End ChatMoreFacts.

(** ** The schema page *)
Module SchemaPageFacts.
Import JS Readiness SchemaPage.

Lemma is_empty_false (s : text) : is_empty s = false <-> s <> [].
Proof. destruct s; simpl; split; intros; congruence. Qed.

Lemma is_empty_true (s : text) : is_empty s = true <-> s = [].
Proof. destruct s; simpl; split; intros; congruence. Qed.

Section Page.

Variable number : Type.
Variable number_truthy : number -> bool.
Variable JSON_parse : text -> option (JSValue number).
Variable JSON_stringify : JSValue number -> text.
Variable JSON_stringify_indented : JSValue number -> text.

Abbreviation parseDefaultValue := (SchemaPage.parseDefaultValue number JSON_parse).
Abbreviation parsedRules := (SchemaPage.parsedRules number number_truthy JSON_parse).
Abbreviation form_payload := (SchemaPage.form_payload number JSON_parse).
Abbreviation startEditErp :=
  (SchemaPage.startEditErp number JSON_stringify JSON_stringify_indented).
Abbreviation handleSaveErpColumn :=
  (SchemaPage.handleSaveErpColumn number number_truthy JSON_parse).
Abbreviation onClick := (SchemaPage.onClick number number_truthy JSON_parse).
Abbreviation attempt := (SchemaPage.attempt number).
Abbreviation perform := (SchemaPage.perform number).
Abbreviation Page := (SchemaPage.Page number).
Abbreviation Service := (SchemaPage.Service number).
Abbreviation Call := (SchemaPage.Call number).

Lemma parsedRules_Some (t : text) (props : list (text * JSValue number)) :
  parsedRules t = Some props <->
  (trim t = [] /\ props = []) \/ (trim t <> [] /\ JSON_parse t = Some (JObj props)).
Proof.
  unfold SchemaPage.parsedRules. destruct (is_empty (trim t)) eqn:E.
  - apply is_empty_true in E. split.
    + intros [= <-]. left. auto.
    + intros [[_ ->]|[H _]]; [reflexivity | contradiction].
  - apply is_empty_false in E. split.
    + intros H. right. split; [exact E|].
      destruct (JSON_parse t) as [[| | | | |props']|]; simpl in H; try discriminate;
        repeat match type of H with
               | (if ?b then _ else _) = _ => destruct b; try discriminate
               end.
      injection H as <-. reflexivity.
    + intros [[H _]|[_ ->]]; [contradiction | reflexivity].
Qed.

Lemma perform_first (service : Service) (c : Call) (rest : list Call) :
  exists more, fst (perform service (c :: rest)) = c :: more.
Proof.
  simpl. destruct (write number service c); [eexists; reflexivity|].
  destruct (perform service rest). eexists; reflexivity.
Qed.

Lemma attempt_calls (service : Service) (fallback : text) (writes : list Call)
    (updates : Page -> Page) :
  calls number (attempt service fallback writes updates)
  = fst (perform service writes)
      ++ match snd (perform service writes) with
         | Some _ => []
         | None => [GetSchemaStore; GetSchemaStoreStatus]
         end.
Proof.
  unfold SchemaPage.attempt. destruct (perform service writes) as [sent [t|]]; simpl.
  - rewrite app_nil_r. reflexivity.
  - destruct (refresh number service) as [t|[store st]]; reflexivity.
Qed.

Lemma attempt_begun (service : Service) (fallback : text) (writes : list Call)
    (updates : Page -> Page) (q : Page) :
  begun number (attempt service fallback writes updates) q
  = setError number None (setBusy number true q).
Proof.
  unfold SchemaPage.attempt. destruct (perform service writes) as [sent [t|]];
    [reflexivity|].
  destruct (refresh number service) as [t|[store st]]; reflexivity.
Qed.

Lemma attempt_settled_busy (service : Service) (fallback : text) (writes : list Call)
    (updates : Page -> Page) (q : Page) :
  busy number (settled number (attempt service fallback writes updates) q) = false.
Proof.
  unfold SchemaPage.attempt. destruct (perform service writes) as [sent [t|]];
    [reflexivity|].
  destruct (refresh number service) as [t|[store st]]; reflexivity.
Qed.

Lemma attempt_started (service : Service) (fallback : text) (c : Call) (rest : list Call)
    (updates : Page -> Page) :
  calls number (attempt service fallback (c :: rest) updates) <> [].
Proof.
  rewrite attempt_calls. destruct (perform_first service c rest) as [more ->]. discriminate.
Qed.

(** The requests of a handler that got past its checks are those of its
    writes, then the two reads if no write was rejected. *)
Lemma elem_of_attempt (service : Service) (fallback : text) (writes : list Call)
    (updates : Page -> Page) (c : Call) :
  c ∈ calls number (attempt service fallback writes updates) ->
  c ∈ writes \/ c = GetSchemaStore \/ c = GetSchemaStoreStatus.
Proof.
  rewrite attempt_calls. intros H. apply elem_of_app in H as [H|H].
  - left. revert H. clear. induction writes as [|w writes IH]; simpl.
    + intros H. inversion H.
    + destruct (write number service w).
      * simpl. intros H. apply list_elem_of_singleton in H as ->. left.
      * destruct (perform service writes) as [sent thrown]. simpl in *.
        intros H. apply elem_of_cons in H as [->|H]; [left | right; auto].
  - right. destruct (snd (perform service writes)); [inversion H|].
    apply elem_of_cons in H as [->|H]; [auto|].
    apply list_elem_of_singleton in H as ->. auto.
Qed.

(** X10. [handleSaveErpColumn] sends a request exactly when the column
    name is not blank and the rules text is blank or parses to a JSON
    object; otherwise it only shows a message: the page is not marked busy
    and nothing else changes. *)
Theorem save_requests_iff (p : Page) (service : Service) :
  let r := handleSaveErpColumn p service in
  (calls number r <> [] <->
     trim (erpName (form number p)) <> []
     /\ (trim (erpRulesText (form number p)) = []
         \/ exists props, JSON_parse (erpRulesText (form number p)) = Some (JObj props)))
  /\ (calls number r = [] ->
      forall q, exists message,
        begun number r q = setError number (Some message) q /\ settled number r q = q).
Proof.
  unfold SchemaPage.handleSaveErpColumn.
  destruct (is_empty (trim (erpName (form number p)))) eqn:Hname.
  - apply is_empty_true in Hname. split.
    + split; [intros H; contradiction H; reflexivity | intros [H _]; contradiction].
    + intros _ q. eexists. split; reflexivity.
  - apply is_empty_false in Hname.
    destruct (parsedRules (erpRulesText (form number p))) as [props|] eqn:Hrules.
    + split.
      * split; [|intros _; apply attempt_started].
        intros _. split; [exact Hname|].
        apply parsedRules_Some in Hrules as [[H _]|[_ H]]; eauto.
      * intros H. exfalso. revert H. apply attempt_started.
    + split.
      * split; [intros H; contradiction H; reflexivity|].
        intros [_ [H|[props H]]]; exfalso.
        -- assert (parsedRules (erpRulesText (form number p)) = Some []) as H'
             by (apply parsedRules_Some; auto).
           congruence.
        -- destruct (is_empty (trim (erpRulesText (form number p)))) eqn:E.
           ++ unfold SchemaPage.parsedRules in Hrules. rewrite E in Hrules. discriminate.
           ++ apply is_empty_false in E.
              assert (parsedRules (erpRulesText (form number p)) = Some props) as H'
                by (apply parsedRules_Some; auto).
              congruence.
      * intros _ q. eexists. split; reflexivity.
Qed.

(** X11. When [handleSaveErpColumn] deletes a column, it is the column
    that was being edited, its name differs from the name being saved, and
    the delete is sent right after the upsert of the new name, which the
    service accepted: a rename never deletes the old column first. *)
Theorem rename_deletes_after_upsert (p : Page) (service : Service) (name : text) :
  DeleteERPSchemaColumn name ∈ calls number (handleSaveErpColumn p service) ->
  erpOriginalName (form number p) = Some name
  /\ name <> trim (erpName (form number p))
  /\ exists payload rest,
       calls number (handleSaveErpColumn p service)
       = UpsertERPSchemaColumn number (trim (erpName (form number p))) payload
           :: DeleteERPSchemaColumn name :: rest
       /\ write number service
            (UpsertERPSchemaColumn number (trim (erpName (form number p))) payload) = None.
Proof.
  unfold SchemaPage.handleSaveErpColumn.
  destruct (is_empty (trim (erpName (form number p)))); [intros H; inversion H|].
  destruct (parsedRules (erpRulesText (form number p))) as [props|];
    [|intros H; inversion H].
  set (trimmedName := trim (erpName (form number p))).
  set (payload := form_payload (form number p) props).
  unfold SchemaPage.renamed.
  destruct (erpOriginalName (form number p)) as [original|].
  - destruct (negb (is_empty original) && negb (text_eqb original trimmedName)) eqn:E.
    + rewrite attempt_calls. cbn [SchemaPage.perform].
      destruct (write number service (UpsertERPSchemaColumn number trimmedName payload))
        eqn:Hup.
      * simpl. intros H. apply list_elem_of_singleton in H. discriminate.
      * intros H.
        assert (name = original) as ->.
        { destruct (write number service (DeleteERPSchemaColumn original));
            simpl in H; repeat (apply elem_of_cons in H as [H|H]; [try congruence|]);
            inversion H. }
        apply andb_true_iff in E as [_ E]. apply negb_true_iff in E.
        unfold text_eqb in E. apply bool_decide_eq_false in E.
        split; [reflexivity|]. split; [exact E|].
        exists payload.
        destruct (write number service (DeleteERPSchemaColumn original)); simpl;
          eexists; split; [reflexivity | exact Hup | reflexivity | exact Hup].
    + intros H. apply elem_of_attempt in H as [H|[H|H]]; try discriminate.
      apply list_elem_of_singleton in H. discriminate.
  - intros H. apply elem_of_attempt in H as [H|[H|H]]; try discriminate.
    apply list_elem_of_singleton in H. discriminate.
Qed.

(** X12. Whatever button is pressed, a request that creates or renames a
    column carries a name that is not empty and is the trimmed text of the
    field it was typed into. *)
Theorem created_names_trimmed (b : Button) (p : Page) (service : Service)
    (c : Call) (name : text) :
  c ∈ calls number (onClick b p service) ->
  created_name number c = Some name ->
  name <> []
  /\ (name = trim (erpName (form number p))
      \/ name = trim (crmColumnName number p)
      \/ name = trim (crmEditingValue number p)).
Proof.
  intros Hin Hname. destruct b as [|n| | |n]; simpl in Hin.
  - unfold SchemaPage.handleSaveErpColumn in Hin.
    destruct (is_empty (trim (erpName (form number p)))) eqn:E; [inversion Hin|].
    destruct (parsedRules (erpRulesText (form number p))); [|inversion Hin].
    apply is_empty_false in E.
    apply elem_of_attempt in Hin as [H|[->| ->]]; try discriminate.
    apply elem_of_cons in H as [->|H].
    + injection Hname as <-. auto.
    + destruct (renamed _ _); [apply list_elem_of_singleton in H as ->|inversion H].
      discriminate.
  - unfold SchemaPage.handleDeleteErpColumn in Hin.
    apply elem_of_attempt in Hin as [H|[->| ->]]; try discriminate.
    apply list_elem_of_singleton in H as ->. discriminate.
  - unfold SchemaPage.handleAddCrmColumn in Hin.
    destruct (is_empty (trim (crmColumnName number p))) eqn:E; [inversion Hin|].
    apply is_empty_false in E.
    apply elem_of_attempt in Hin as [H|[->| ->]]; try discriminate.
    apply list_elem_of_singleton in H as ->. injection Hname as <-. auto.
  - unfold SchemaPage.handleRenameCrmColumn in Hin.
    destruct (crmEditingOriginal number p) as [original|]; [|inversion Hin].
    destruct (is_empty original); [inversion Hin|].
    destruct (is_empty (trim (crmEditingValue number p))) eqn:E; [inversion Hin|].
    apply is_empty_false in E.
    apply elem_of_attempt in Hin as [H|[->| ->]]; try discriminate.
    apply list_elem_of_singleton in H as ->. injection Hname as <-. auto.
  - unfold SchemaPage.handleDeleteCrmColumn in Hin.
    apply elem_of_attempt in Hin as [H|[->| ->]]; try discriminate.
    apply list_elem_of_singleton in H as ->. discriminate.
Qed.

(** X13. A handler either sends nothing and leaves the busy flag alone,
    or it marks the page busy and clears the error before its first
    request, and the page is no longer busy once it has settled, whatever
    the service answered. *)
Theorem busy_released (b : Button) (p : Page) (service : Service) :
  let r := onClick b p service in
  (calls number r = []
   /\ forall q, busy number (begun number r q) = busy number q /\ settled number r q = q)
  \/ (calls number r <> []
      /\ forall q,
           busy number (begun number r q) = true
           /\ error number (begun number r q) = None
           /\ busy number (settled number r q) = false).
Proof.
  assert (forall fallback c rest updates,
            let r := attempt service fallback (c :: rest) updates in
            calls number r <> []
            /\ forall q,
                 busy number (begun number r q) = true
                 /\ error number (begun number r q) = None
                 /\ busy number (settled number r q) = false) as Hstarted.
  { intros fallback c rest updates. split; [apply attempt_started|].
    intros q. rewrite attempt_begun, attempt_settled_busy. auto. }
  assert (forall message,
            let r := rejected number message in
            calls number r = []
            /\ forall q, busy number (begun number r q) = busy number q
                         /\ settled number r q = q) as Hrejected.
  { intros message. split; [reflexivity|]. intros q. split; reflexivity. }
  destruct b as [|n| | |n]; simpl.
  - unfold SchemaPage.handleSaveErpColumn.
    destruct (is_empty (trim (erpName (form number p)))); [left; apply Hrejected|].
    destruct (parsedRules (erpRulesText (form number p)));
      [right; apply Hstarted | left; apply Hrejected].
  - right. apply Hstarted.
  - unfold SchemaPage.handleAddCrmColumn.
    destruct (is_empty (trim (crmColumnName number p)));
      [left; apply Hrejected | right; apply Hstarted].
  - unfold SchemaPage.handleRenameCrmColumn.
    destruct (crmEditingOriginal number p) as [original|];
      [|left; split; [reflexivity | intros q; split; reflexivity]].
    destruct (is_empty original);
      [left; split; [reflexivity | intros q; split; reflexivity]|].
    destruct (is_empty (trim (crmEditingValue number p)));
      [left; apply Hrejected | right; apply Hstarted].
  - right. apply Hstarted.
Qed.

(** X14. Editing a stored column and saving the form as it was filled in
    sends the column back unchanged under its own name, and deletes
    nothing, provided that the name, type and description carry no
    surrounding white space, name and type are not empty, and
    [JSON.parse] reads back what [JSON.stringify] wrote for the default
    value and the rules. *)
Theorem edit_then_save_unchanged (name : text) (column : ERPSchemaColumn number)
    (p : Page) (service : Service) :
  trim name = name -> name <> [] ->
  trim (data_type number column) = data_type number column ->
  data_type number column <> [] ->
  trim (description number column) = description number column ->
  (default_value number column = JNull
   \/ (trim (JSON_stringify (default_value number column)) <> []
       /\ JSON_parse (trim (JSON_stringify (default_value number column)))
          = Some (default_value number column))) ->
  trim (JSON_stringify_indented (JObj (rules number column))) <> [] ->
  JSON_parse (JSON_stringify_indented (JObj (rules number column)))
  = Some (JObj (rules number column)) ->
  calls number (handleSaveErpColumn (startEditErp name column p) service)
  = UpsertERPSchemaColumn number name column
      :: match write number service (UpsertERPSchemaColumn number name column) with
         | Some _ => []
         | None => [GetSchemaStore; GetSchemaStoreStatus]
         end.
Proof.
  intros Hname Hname' Htype Htype' Hdesc Hdefault Hrules Hparse.
  assert (parsedRules (JSON_stringify_indented (JObj (rules number column)))
          = Some (rules number column)) as Hprops
    by (apply parsedRules_Some; auto).
  apply is_empty_false in Hname', Htype'.
  assert (form_payload (form number (startEditErp name column p)) (rules number column)
          = column) as Hpayload.
  { destruct column as [dv ty desc req rs]. unfold SchemaPage.form_payload.
    cbn [form SchemaPage.startEditErp SchemaPage.setForm erpDefaultValue erpDataType
         erpDescription erpRequired default_value data_type description required rules]
      in *.
    rewrite Htype'. rewrite Htype, Htype', Hdesc. f_equal.
    - unfold SchemaPage.parseDefaultValue.
      destruct Hdefault as [->|[Hne Hback]]; [reflexivity|].
      destruct dv; try reflexivity;
        (apply is_empty_false in Hne; rewrite Hne, Hback; reflexivity).
    - destruct req; reflexivity. }
  unfold SchemaPage.handleSaveErpColumn.
  cbn [form SchemaPage.startEditErp SchemaPage.setForm erpName erpRulesText
       erpOriginalName] in *.
  rewrite Hname, Hname', Hprops, Hpayload.
  unfold SchemaPage.renamed. rewrite Hname'. cbn [negb andb].
  assert (text_eqb name name = true) as -> by (apply bool_decide_eq_true; reflexivity).
  cbn [negb]. rewrite attempt_calls. cbn [SchemaPage.perform].
  destruct (write number service (UpsertERPSchemaColumn number name column)); reflexivity.
Qed.

End Page.

End SchemaPageFacts.

(** ** The deployment script *)
Module DeployFacts.
Import JS Deploy.

Section Check.

Variable name : text.
Variable probe : nat -> text.

Lemma poll_step (done remaining : nat) (code : text) :
  poll name probe done (S remaining) code
  = if text_eqb (probe (S done)) ok then
      {| exit_status := 0; probes := S done; sleeps := done;
         logged := log (name ++ " health OK (200)"%string) |}
    else poll name probe (S done) remaining (probe (S done)).
Proof. reflexivity. Qed.

Lemma poll_spec (remaining done : nat) (code : text) :
  let w := poll name probe done remaining code in
  (exit_status w = 0
   /\ done < probes w <= done + remaining
   /\ probe (probes w) = ok
   /\ sleeps w = probes w - 1
   /\ forall j, done < j < probes w -> probe j <> ok)
  \/ (exit_status w = 1
      /\ probes w = done + remaining
      /\ sleeps w = done + remaining
      /\ forall j, done < j <= done + remaining -> probe j <> ok).
Proof.
  revert done code. induction remaining as [|remaining IH]; intros done code.
  - right. simpl. repeat split; try lia.
  - cbv zeta. rewrite poll_step. destruct (text_eqb (probe (S done)) ok) eqn:E.
    + apply bool_decide_eq_true in E. left. cbn [exit_status probes sleeps].
      repeat split; try lia. exact E.
    + apply bool_decide_eq_false in E.
      destruct (IH (S done) (probe (S done))) as [(H0 & Hp & Hok & Hs & Hbefore)
                                                 |(H1 & Hp & Hs & Hnone)].
      * left. repeat split; try lia; try assumption.
        intros j Hj. destruct (decide (j = S done)) as [->|Hne]; [exact E|].
        apply Hbefore. lia.
      * right. repeat split; try lia.
        intros j Hj. destruct (decide (j = S done)) as [->|Hne]; [exact E|].
        apply Hnone. lia.
Qed.

(** The loop for a given number of iterations. *)
Lemma poll_count (n : nat) :
  let w := poll name probe 0 n [] in
  (exit_status w = 0 <-> answers probe n)
  /\ probes w <= n
  /\ (exit_status w = 0 ->
      probe (probes w) = ok
      /\ (forall j, 1 <= j < probes w -> probe j <> ok)
      /\ sleeps w = probes w - 1)
  /\ (exit_status w <> 0 -> exit_status w = 1 /\ probes w = n /\ sleeps w = n).
Proof.
  intros w. subst w.
  destruct (poll_spec n 0 []) as [(H0 & Hp & Hok & Hs & Hbefore)|(H1 & Hp & Hs & Hnone)].
  - split; [|split; [lia|split]].
    + split; [|intros _; exact H0].
      intros _. exists (probes (poll name probe 0 n [])). split; [lia | exact Hok].
    + intros _. split; [exact Hok|]. split; [|exact Hs].
      intros j Hj. apply Hbefore. lia.
    + intros H. contradiction.
  - split; [|split; [lia|split]].
    + split; [intros H; rewrite H1 in H; discriminate|].
      intros [i [Hi Hok]]. exfalso. apply (Hnone i); [lia | exact Hok].
    + intros H. rewrite H1 in H. discriminate.
    + intros _. split; [exact H1|]. split; [exact Hp | exact Hs].
Qed.

Lemma wait_for_fifty :
  wait_for_http_200 name probe (Some 50%Z) = Some (poll name probe 0 50 []).
Proof. reflexivity. Qed.

(** X15. For a count that bash reads as a 64-bit number other than the
    largest one (40 when no count is given), [wait_for_http_200] returns,
    and it succeeds exactly when one of the first [tries] probes answers
    200. It then stops at the first such probe, having slept once after
    each earlier one; otherwise it returns 1 after exactly [tries] probes.
    In no case does it probe more than [tries] times; a count below 1
    gives no probe at all. *)
Theorem wait_for_http_200_spec (tries : option Z) :
  let t := int64 (default 40%Z tries) in
  t <> (2 ^ 63 - 1)%Z ->
  exists w,
    wait_for_http_200 name probe tries = Some w
    /\ (exit_status w = 0 <-> answers probe (Z.to_nat t))
    /\ probes w <= Z.to_nat t
    /\ (exit_status w = 0 ->
        probe (probes w) = ok
        /\ (forall j, 1 <= j < probes w -> probe j <> ok)
        /\ sleeps w = probes w - 1)
    /\ (exit_status w <> 0 ->
        exit_status w = 1 /\ probes w = Z.to_nat t /\ sleeps w = Z.to_nat t)
    /\ ((t < 1)%Z -> exit_status w = 1 /\ probes w = 0).
Proof.
  intros t Ht. unfold wait_for_http_200, iterations. fold t.
  destruct (Z.eqb_spec t (2 ^ 63 - 1)) as [E|_]; [contradiction|].
  eexists. split; [reflexivity|].
  destruct (poll_count (Z.to_nat t)) as (Hiff & Hle & Hok & Hfail).
  split; [exact Hiff|]. split; [exact Hle|]. split; [exact Hok|]. split; [exact Hfail|].
  intros Hlow. replace (Z.to_nat t) with 0 in * by lia.
  assert (exit_status (poll name probe 0 0 []) <> 0) as Hne.
  { intros H0. apply Hiff in H0 as [i [Hi _]]. lia. }
  destruct (Hfail Hne) as (H1 & Hp & _). split; assumption.
Qed.

End Check.

(** Counts in the 64-bit range are read as they are written. *)
Lemma int64_small (z : Z) : (- 2 ^ 63 <= z < 2 ^ 63)%Z -> int64 z = z.
Proof. intros H. unfold int64. rewrite Z.mod_small by lia. lia. Qed.

Lemma health_checks_probes (targets : list (text * (nat -> text))) :
  sum_list (map probes (health_checks targets)) <= 50 * length targets
  /\ length (health_checks targets) <= length targets.
Proof.
  induction targets as [|[name probe] targets [IH1 IH2]]; [simpl; lia|].
  cbn [health_checks]. rewrite wait_for_fifty.
  destruct (poll_count name probe 50) as (_ & Hp & _).
  destruct (Nat.eqb (exit_status (poll name probe 0 50 [])) 0);
    simpl in *; lia.
Qed.

Lemma healthy_cons (name : text) (probe : nat -> text)
    (targets : list (text * (nat -> text))) :
  healthy ((name, probe) :: targets) = true <->
  answers probe 50 /\ healthy targets = true.
Proof.
  unfold healthy. cbn [health_checks]. rewrite wait_for_fifty.
  destruct (poll_count name probe 50) as (Hiff & _).
  destruct (Nat.eqb_spec (exit_status (poll name probe 0 50 [])) 0) as [E|E].
  - cbn [forallb]. apply Nat.eqb_eq in E as E'. rewrite E'. cbn [andb].
    split; [intros H; split; [apply Hiff, E | exact H] | intros [_ H]; exact H].
  - cbn [forallb]. apply Nat.eqb_neq in E as E'. rewrite E'. cbn [andb].
    split; [discriminate | intros [H _]; apply Hiff in H; contradiction].
Qed.

(** X16. The script gets past its health checks exactly when the backend,
    its OpenAPI document and the UI each answer 200 within 50 probes. A
    check that fails ends the script: when the backend never answers 200,
    it alone is probed, 50 times. In every case the three checks make at
    most 150 probes. *)
Theorem health_gate (backend openapi ui : nat -> text) :
  let checks := health_checks (deploy_targets backend openapi ui) in
  (healthy (deploy_targets backend openapi ui) = true <->
     answers backend 50 /\ answers openapi 50 /\ answers ui 50)
  /\ (~ answers backend 50 ->
      exists w, checks = [w] /\ exit_status w = 1 /\ probes w = 50)
  /\ sum_list (map probes checks) <= 150.
Proof.
  intros checks. subst checks. unfold deploy_targets. split; [|split].
  - rewrite !healthy_cons. unfold healthy. simpl. tauto.
  - intros Hdown. cbn [health_checks]. rewrite wait_for_fifty.
    destruct (poll_count ("backend"%string : text) backend 50)
      as (Hiff & _ & _ & Hfail).
    destruct (Nat.eqb_spec
                (exit_status (poll ("backend"%string : text) backend 0 50 [])) 0)
      as [E|E].
    + apply Hiff in E. contradiction.
    + eexists. split; [reflexivity|]. destruct (Hfail E) as (H1 & Hp & _). auto.
  - pose proof (health_checks_probes
                  [("backend"%string : text, backend);
                   ("openapi"%string : text, openapi);
                   ("ui"%string : text, ui)]) as [H _].
    simpl length in H. lia.
Qed.

End DeployFacts.

(** ** The customer drop-down *)
Module CustomerDropdownFacts.
Import JS CustomerDropdown.

Lemma trim_start_suffix (s : text) : exists d, s = d ++ trim_start s.
Proof.
  induction s as [|c s [d IH]]; [exists []; reflexivity|].
  simpl. destruct (is_ws c); [|exists []; reflexivity].
  exists (c :: d). simpl. f_equal. exact IH.
Qed.

Lemma trim_start_app (a b : text) : exists w, trim_start (a ++ b) = w ++ trim_start b.
Proof.
  induction a as [|c a IH]; [exists []; reflexivity|].
  simpl. destruct (is_ws c); [exact IH|].
  destruct (trim_start_suffix b) as [d Hd].
  exists (c :: a ++ d). rewrite <- app_comm_cons, <- app_assoc, <- Hd. reflexivity.
Qed.

Lemma trim_start_keep (a b : text) :
  trim_start a <> [] -> trim_start (a ++ b) = trim_start a ++ b.
Proof.
  induction a as [|c a IH]; [intros H; contradiction H; reflexivity|].
  simpl. destruct (is_ws c); [exact IH | reflexivity].
Qed.

(** Typing on never changes the beginning of the trimmed text. *)
Lemma trim_prefix (x y : text) : trim x `prefix_of` trim (x ++ y).
Proof.
  unfold trim. destruct (trim_start x) as [|c u] eqn:E; [apply prefix_nil|].
  rewrite trim_start_keep by (rewrite E; discriminate). rewrite E.
  rewrite rev_app_distr.
  destruct (trim_start_app (rev y) (rev (c :: u))) as [w ->].
  rewrite rev_app_distr. apply prefix_app_r. reflexivity.
Qed.

Lemma startsWith_spec (p s : text) :
  startsWith p s = true <-> exists post, s = p ++ post.
Proof.
  revert s. induction p as [|a p IH]; intros s; simpl.
  - split; [intros _; exists s; reflexivity | reflexivity].
  - destruct s as [|b s].
    + split; [discriminate | intros [post H]; discriminate].
    + rewrite andb_true_iff, IH. split.
      * intros [Hab [post ->]]. apply Ascii.eqb_eq in Hab as ->. exists post. reflexivity.
      * intros [post [= -> ->]]. split; [apply Ascii.eqb_refl | exists post; reflexivity].
Qed.

Lemma includes_spec (needle hay : text) :
  includes needle hay = true <-> exists pre post, hay = pre ++ needle ++ post.
Proof.
  induction hay as [|c hay IH].
  - simpl. rewrite orb_false_r, startsWith_spec. split.
    + intros [post H]. exists [], post. exact H.
    + intros [pre [post H]]. destruct pre; [exists post; exact H|discriminate].
  - cbn [includes]. rewrite orb_true_iff, startsWith_spec, IH. split.
    + intros [[post H]|[pre [post H]]].
      * exists [], post. exact H.
      * exists (c :: pre), post. rewrite H. reflexivity.
    + intros [[|c' pre] [post H]].
      * left. exists post. exact H.
      * right. injection H as _ H. exists pre, post. exact H.
Qed.

Lemma filter_sublist_filter {A : Type} (f g : A -> bool) (l : list A) :
  (forall x, x ∈ l -> g x = true -> f x = true) ->
  List.filter g l `sublist_of` List.filter f l.
Proof.
  induction l as [|x l IH]; intros H; [constructor|].
  simpl. destruct (g x) eqn:Eg.
  - rewrite (H x (list_elem_of_here _ _) Eg). constructor.
    apply IH. intros y Hy. apply H. right. exact Hy.
  - destruct (f x).
    + constructor. apply IH. intros y Hy. apply H. right. exact Hy.
    + apply IH. intros y Hy. apply H. right. exact Hy.
Qed.

Lemma filter_sublist {A : Type} (f : A -> bool) (l : list A) :
  List.filter f l `sublist_of` l.
Proof.
  induction l as [|x l IH]; [constructor|].
  simpl. destruct (f x); constructor; exact IH.
Qed.

Section Filter.

Variable toLowerCase : text -> text.

Abbreviation filtered := (CustomerDropdown.filtered toLowerCase).

(** X17. The options of the drop-down are customers of the list, in the
    order of the list. Typing further characters after the search text
    never brings back a customer that the shorter text had excluded,
    provided that the lower-cased longer text begins with the lower-cased
    shorter one (which holds unless a typed letter changes the small form
    of a letter before it). *)
Theorem filtered_narrows (customers : list text) (query more : text) :
  filtered customers query `sublist_of` customers
  /\ (toLowerCase query `prefix_of` toLowerCase (query ++ more) ->
      filtered customers (query ++ more) `sublist_of` filtered customers query).
Proof.
  split.
  - unfold CustomerDropdown.filtered.
    destruct (is_empty _); [reflexivity | apply filter_sublist].
  - intros [rest Hrest]. unfold CustomerDropdown.filtered. rewrite Hrest.
    destruct (trim_prefix (toLowerCase query) rest) as [z Hz].
    rewrite Hz.
    destruct (trim (toLowerCase query)) as [|c lowered] eqn:E.
    + simpl. destruct (is_empty z); [reflexivity | apply filter_sublist].
    + cbn [app is_empty]. apply filter_sublist_filter.
      intros customer _ H. apply includes_spec in H as [pre [post H]].
      apply includes_spec. exists pre, (z ++ post). rewrite H.
      cbn [app]. rewrite <- app_assoc. reflexivity.
Qed.

End Filter.

End CustomerDropdownFacts.

(** ** The data table *)
Module DataTableFacts.
Import DataTable.

Lemma round53_exact (z : Z) : (Z.abs z <= 2 ^ 53)%Z -> round53 z = z.
Proof.
  intros H. unfold round53. destruct (Z.ltb_spec (Z.abs z) (2 ^ 53)); [reflexivity|].
  assert (z = 2 ^ 53 \/ z = - 2 ^ 53)%Z as [-> | ->] by lia; reflexivity.
Qed.

(** X18. For a page of a non-empty result that the service can have
    produced (a positive page size, a page between 1 and the number of
    pages, and a first row that exists), as long as [page * limit] stays
    below 2^53, where the arithmetic of doubles is exact: the range shown
    lies within the result and has at most [limit] rows; for an empty
    result it is 0-0. The Previous and Next buttons, when enabled, ask for
    a page between 1 and the number of pages. *)
Theorem page_range_within (pagination : Pagination) :
  (0 < limit pagination)%Z ->
  (1 <= page pagination <= total_pages pagination)%Z ->
  (0 <= total pagination)%Z ->
  (page pagination * limit pagination < 2 ^ 53)%Z ->
  ((0 < total pagination)%Z ->
   ((page pagination - 1) * limit pagination < total pagination)%Z ->
   (1 <= pageStart pagination <= pageEnd pagination)%Z
   /\ (pageEnd pagination <= total pagination)%Z
   /\ (pageEnd pagination - pageStart pagination + 1 <= limit pagination)%Z)
  /\ (total pagination = 0%Z -> pageStart pagination = 0%Z /\ pageEnd pagination = 0%Z)
  /\ (forall n, previous pagination = Some n ->
        (1 <= n < page pagination)%Z)
  /\ (forall n, next pagination = Some n ->
        (page pagination < n <= total_pages pagination)%Z).
Proof.
  intros Hlimit Hpage Htotal Hexact. unfold pageStart, pageEnd, previous, next.
  assert (page pagination < 2 ^ 53)%Z as Hp by nia.
  assert (0 <= (page pagination - 1) * limit pagination
          /\ (page pagination - 1) * limit pagination + 1
             <= page pagination * limit pagination)%Z as [Hlow Hup] by nia.
  rewrite (round53_exact (page pagination - 1)) by lia.
  rewrite (round53_exact ((page pagination - 1) * limit pagination)) by lia.
  rewrite (round53_exact ((page pagination - 1) * limit pagination + 1)) by lia.
  rewrite (round53_exact (page pagination * limit pagination)) by lia.
  rewrite (round53_exact (page pagination + 1)) by lia.
  split; [|split; [|split]].
  - intros Hpos Hfirst. destruct (Z.eqb_spec (total pagination) 0); [lia|]. nia.
  - intros H0. rewrite H0. simpl. split; [reflexivity|]. nia.
  - intros n. destruct (Z.leb_spec (page pagination) 1); [discriminate|].
    intros [= <-]. lia.
  - intros n. destruct (Z.geb_spec (page pagination) (total_pages pagination));
      [discriminate|].
    intros [= <-]. lia.
Qed.

End DataTableFacts.

(** ** Instances of the further properties *)
Module MoreInstances.
Import JS Fixture Samples MoreSamples.

Ltac decided := apply (bool_decide_unpack _); vm_compute; exact I.

Lemma mapping_entries_plain :
  Forall (RuleEditorLoad.plain_entry number) mapping_entries.
Proof.
  repeat (constructor;
          [eexists; repeat split; try reflexivity; try discriminate; decided|]).
  constructor.
Qed.

(** X2 at a tax rule with two rows: the row of Globex, typed with spaces
    around its key, is in the payload under the trimmed key. *)
Lemma retained_rows_saved_globex :
  RuleEditor.entries number
    tax_payload
    !! ("Globex"%string : text)
  = Some (RuleEditor.VStr ("12%"%string : text)).
Proof.
  refine (RuleEditorMore.retained_rows_saved number Number number_zero number_to_string
            (@no_rejection _) "salesTaxRate"%string
            [row "ACME" "10%"; row " Globex " "12%"] "0%"%string _
            (row " Globex " "12%") _ _ _).
  - replace (RuleEditor.saved number
               (RuleEditor.save number Number number_zero number_to_string
                  (@no_rejection _) "salesTaxRate"%string
                  [row "ACME" "10%"; row " Globex " "12%"] "0%"%string))
      with [tax_payload]
      by (vm_compute; reflexivity).
    apply list_elem_of_here.
  - apply elem_of_cons. right. apply list_elem_of_here.
  - vm_compute. reflexivity.
Defined.

(** X3 at a mapping of two customers. *)
Lemma mapping_round_trip_customers :
  save "customerNameMapping"%string
    (RuleEditorLoad.asMappingRows number number_to_string
       (RuleEditorLoad.Entries mapping_entries)) []
  = {| RuleEditor.saved :=
         [RuleEditor.Plain
            (list_to_map
               (map (RuleEditorLoad.entry_value number number_to_string) mapping_entries))];
       RuleEditor.error := None;
       RuleEditor.saving := false |}.
Proof.
  refine (RuleEditorMore.mapping_round_trip number Number number_zero number_to_string
            (@no_rejection _) mapping_entries [] _ _).
  - decided.
  - exact mapping_entries_plain.
Defined.

(** X4 at a tax rule with a default and the same two conditions. *)
Lemma conditional_round_trip_tax :
  save "salesTaxRate"%string
    (RuleEditorLoad.asMappingRows number number_to_string
       (RuleEditorLoad.Entries mapping_entries)) "20%"%string
  = {| RuleEditor.saved :=
         [RuleEditor.Conditional (RuleEditor.VStr ("20%"%string : text))
            (list_to_map
               (map (RuleEditorLoad.entry_value number number_to_string) mapping_entries))];
       RuleEditor.error := None;
       RuleEditor.saving := false |}.
Proof.
  refine (proj2 (RuleEditorMore.conditional_round_trip number Number number_zero
                   number_to_string (@no_rejection _) "salesTaxRate"%string "20%"%string
                   mapping_entries _ _ _ _ _ _)); try reflexivity.
  - decided.
  - exact mapping_entries_plain.
Defined.

(** X6 at a history of two exchanges. *)
Lemma history_round_trip_two_exchanges :
  ChatMore.restore number number_truthy MoreSamples.JSON_parse
    (Some (ChatMore.stored_text number MoreSamples.JSON_stringify history))
  = Some history.
Proof.
  refine (proj1 (proj2 (ChatMoreFacts.history_round_trip number number_truthy
                          MoreSamples.JSON_parse MoreSamples.JSON_stringify history _ _)) _).
  - vm_compute. discriminate.
  - vm_compute. reflexivity.
  - vm_compute. lia.
Defined.

(** X7 at a response with status 503 that carries a detail. *)
Lemma http_error_surfaces_unavailable :
  handleSend (idle [] "hi")
    (ChatMore.streamTransformerChat number number_truthy number_to_string
       (ChatMore.Answered number unavailable))
  = ({| Chat.messages :=
          [ Chat.user_message "hi"%string;
            Chat.assistant_message "Error: model is loading"%string ];
        Chat.input := [];
        Chat.busy := false;
        Chat.error := Some ("model is loading"%string : text) |},
     [("hi"%string : text)]).
Proof.
  refine (proj1 (ChatMoreFacts.http_error_surfaces number number_truthy number_to_string
                   Fixture.JSON_parse null_property_message (idle [] "hi") unavailable _ _));
    vm_compute; reflexivity.
Defined.

(** X8 at a read that carries a chunk: the prompt is untouched and the
    empty placeholder has grown. *)
Lemma history_append_only_chunk :
  exists m',
    Chat.messages (Chat.page answered) !! 1 = Some m'
    /\ Chat.role m' = Chat.Assistant
    /\ [] `prefix_of` Chat.content m'.
Proof.
  refine (ChatMoreFacts.history_append_only number number_truthy number_to_string
            Fixture.JSON_parse null_property_message sending answered
            (Chat.Deliver 0 hello_read) 1 (Chat.assistant_message []) _ _ _).
  - vm_compute. reflexivity.
  - discriminate.
  - reflexivity.
Defined.

(** X9 at a further exchange on a restored history. *)
Lemma history_stays_paired_script :
  ChatMore.paired (Chat.messages (Chat.page after_script)) = true
  /\ ChatMore.paired (ChatMore.slice_last 200 (Chat.messages (Chat.page after_script)))
     = true.
Proof.
  refine (ChatMoreFacts.history_stays_paired number number_truthy number_to_string
            Fixture.JSON_parse null_property_message history script after_script _ _);
    vm_compute; reflexivity.
Defined.

(** X11 at the rename of [invoice_no] to [invoice_number]. *)
Lemma rename_deletes_after_upsert_invoice :
  SchemaPage.erpOriginalName (SchemaPage.form number (schema_page rename_form))
  = Some ("invoice_no"%string : text)
  /\ ("invoice_no"%string : text)
     <> trim (SchemaPage.erpName (SchemaPage.form number (schema_page rename_form)))
  /\ exists payload rest,
       SchemaPage.calls number
         (SchemaPage.handleSaveErpColumn number number_truthy Fixture.JSON_parse
            (schema_page rename_form) accepting)
       = SchemaPage.UpsertERPSchemaColumn number
           (trim (SchemaPage.erpName (SchemaPage.form number (schema_page rename_form))))
           payload
           :: SchemaPage.DeleteERPSchemaColumn ("invoice_no"%string : text) :: rest
       /\ SchemaPage.write number accepting
            (SchemaPage.UpsertERPSchemaColumn number
               (trim (SchemaPage.erpName (SchemaPage.form number (schema_page rename_form))))
               payload) = None.
Proof.
  refine (SchemaPageFacts.rename_deletes_after_upsert number number_truthy
            Fixture.JSON_parse (schema_page rename_form) accepting
            ("invoice_no"%string : text) _).
  vm_compute. apply elem_of_cons. right. apply list_elem_of_here.
Defined.

(** X12 at the Add button of the CRM column form. *)
Lemma created_names_trimmed_company :
  ("customer_company"%string : text) <> []
  /\ (("customer_company"%string : text)
      = trim (SchemaPage.erpName (SchemaPage.form number (schema_page rename_form)))
      \/ ("customer_company"%string : text)
         = trim (SchemaPage.crmColumnName number (schema_page rename_form))
      \/ ("customer_company"%string : text)
         = trim (SchemaPage.crmEditingValue number (schema_page rename_form))).
Proof.
  refine (SchemaPageFacts.created_names_trimmed number number_truthy Fixture.JSON_parse
            SchemaPage.AddCrmColumn (schema_page rename_form) accepting
            (SchemaPage.AddCRMColumn ("customer_company"%string : text))
            ("customer_company"%string : text) _ _).
  - vm_compute. apply list_elem_of_here.
  - reflexivity.
Defined.

(** X14 at a stored column with a default value. *)
Lemma edit_then_save_unchanged_currency :
  SchemaPage.calls number
    (SchemaPage.handleSaveErpColumn number number_truthy MoreSamples.JSON_parse
       (SchemaPage.startEditErp number MoreSamples.JSON_stringify
          MoreSamples.JSON_stringify_indented ("currency"%string : text) currency_column
          (schema_page SchemaPage.emptyForm))
       accepting)
  = [ SchemaPage.UpsertERPSchemaColumn number ("currency"%string : text) currency_column;
      SchemaPage.GetSchemaStore;
      SchemaPage.GetSchemaStoreStatus ].
Proof.
  refine (SchemaPageFacts.edit_then_save_unchanged number number_truthy
            MoreSamples.JSON_parse MoreSamples.JSON_stringify
            MoreSamples.JSON_stringify_indented ("currency"%string : text) currency_column
            (schema_page SchemaPage.emptyForm) accepting _ _ _ _ _ _ _ _);
    try (vm_compute; reflexivity); try (vm_compute; discriminate).
  right. split; [vm_compute; discriminate | vm_compute; reflexivity].
Defined.

(** X15 at a count written above the 64-bit range, read as 50, and an
    endpoint that answers 200 from its third probe on. *)
Lemma wait_for_http_200_spec_wrapped :
  exists w,
    Deploy.wait_for_http_200 ("backend"%string : text) (up_from 3)
      (Some (2 ^ 64 + 50)%Z) = Some w
    /\ Deploy.exit_status w = 0
    /\ Deploy.probes w <= 50.
Proof.
  assert (Deploy.int64 (default 40%Z (Some (2 ^ 64 + 50)%Z)) <> (2 ^ 63 - 1)%Z) as H
    by (vm_compute; discriminate).
  destruct (DeployFacts.wait_for_http_200_spec ("backend"%string : text) (up_from 3)
              (Some (2 ^ 64 + 50)%Z) H) as (w & Hw & Hiff & Hle & _).
  exists w. split; [exact Hw|]. split; [|exact Hle].
  apply Hiff. exists 3. split; [vm_compute; lia | reflexivity].
Defined.

(** X17 at a search text that is typed further. *)
Lemma filtered_narrows_acme :
  CustomerDropdown.filtered lower_ascii customers " acme h"%string
  `sublist_of` CustomerDropdown.filtered lower_ascii customers " ac"%string.
Proof.
  refine (proj2 (CustomerDropdownFacts.filtered_narrows lower_ascii customers
                   (" ac"%string : text) ("me h"%string : text)) _).
  exists (lower_ascii ("me h"%string : text)). vm_compute. reflexivity.
Defined.

(** X18 at the second page of 25 records: rows 11 to 20. *)
Lemma page_range_within_second_page :
  (1 <= DataTable.pageStart second_page <= DataTable.pageEnd second_page)%Z
  /\ (DataTable.pageEnd second_page <= DataTable.total second_page)%Z
  /\ (DataTable.pageEnd second_page - DataTable.pageStart second_page + 1
      <= DataTable.limit second_page)%Z.
Proof.
  refine (proj1 (DataTableFacts.page_range_within second_page _ _ _ _) _ _);
    vm_compute; try split; congruence.
Defined.

(** Above 2^53 the products are rounded: on this page the range shown has
    two rows more than the page size. *)
Example page_range_rounded :
  DataTable.pageStart huge_page = 9007199515875288%Z
  /\ DataTable.pageEnd huge_page = 9007199610781556%Z
  /\ (DataTable.pageEnd huge_page - DataTable.pageStart huge_page + 1
      = DataTable.limit huge_page + 2)%Z.
Proof. vm_compute. repeat split. Qed.

End MoreInstances.
